(** * pubsub-wrapper: the PubSub facade of src/PubSub.ts

    A shallow embedding of the facade class (constructor, init, createTopic,
    deleteTopic, subscribe, unsubscribe, publish, send, sendWithoutCover)
    together with the pieces of the JavaScript runtime it leans on
    (JSON.stringify / JSON.parse, Buffer.from / toString, EventEmitter),
    and the properties of the written specification stated over that
    embedding.

    Conventions.
    - Text is kept as its UTF-8 bytes (a [string] is a sequence of bytes).
      [Buffer.from(s)] gives those bytes; [buf.toString()] decodes bytes
      as UTF-8 and puts U+FFFD where they are not ([Utf8.decode]). JSON
      syntax is ASCII and passes bytes >= 0x80 through untouched.
    - A promise is modelled by its settlement ([Fulfilled] / [Rejected]):
      calls are taken one after another, never overlapping.
    - The managed service and its client library are not part of the
      repository; they are an interface ([PubSubCore]) whose behaviour
      enters theorems only through explicit hypotheses. So is the
      caller's EventEmitter: whether it has a listener for 'error' is
      part of the world. *)

From Stdlib Require Import ZArith NArith Ascii String List Lia.
From Stdlib Require Import Decimal DecimalString DecimalZ DecimalPos DecimalFacts.
From stdpp Require Import base option list strings gmap.

Local Open Scope Z_scope.

(** ** JSON values

    A number is a 64-bit floating-point number, kept under its name: the
    decimal that Number::toString writes for it, the shortest one that
    identifies it. A number whose name has no fraction and at most 21
    digits is [JNum] of that integer; every other finite one is [JDec],
    with its sign, its significant digits (first and last of them not
    zero) and the place of the decimal point: [JDec s d n] is
    (+/-) 0.d * 10^n. So 1.5 is [JDec false "15" 1], 0.001 is
    [JDec false "1" (-2)] and 1e21 is [JDec false "1" 22]. [JInf] is an
    infinity, which JSON.parse gives for a literal beyond the range.
    Minus zero is zero, as it is under [===]. An object is the list of
    its own properties in enumeration order. *)

Set Warnings "-register-all".

Inductive json : Type :=
| JNull
| JBool (b : bool)
| JNum (z : Z)
| JDec (negative : bool) (digits : string) (point : Z)
| JInf (negative : bool)
| JStr (s : string)
| JArr (xs : list json)
| JObj (kvs : list (string * json)).

Module Json.

(** *** Characters *)

Definition dquote : ascii := "034"%char.
Definition bslash : ascii := "\"%char.

Definition is_ws (c : ascii) : bool :=
  Ascii.eqb c " " || Ascii.eqb c "009" || Ascii.eqb c "010" || Ascii.eqb c "013".

Definition hex_digit (n : N) : ascii :=
  if (n <? 10)%N then ascii_of_N (48 + n) else ascii_of_N (87 + n).

Definition hex_value (c : ascii) : option N :=
  let n := N_of_ascii c in
  if (48 <=? n)%N && (n <=? 57)%N then Some (n - 48)%N
  else if (97 <=? n)%N && (n <=? 102)%N then Some (n - 87)%N
  else if (65 <=? n)%N && (n <=? 70)%N then Some (n - 55)%N
  else None.

Definition digit_of_char (c : ascii) : option (uint -> uint) :=
  if Ascii.eqb c "0" then Some D0 else if Ascii.eqb c "1" then Some D1
  else if Ascii.eqb c "2" then Some D2 else if Ascii.eqb c "3" then Some D3
  else if Ascii.eqb c "4" then Some D4 else if Ascii.eqb c "5" then Some D5
  else if Ascii.eqb c "6" then Some D6 else if Ascii.eqb c "7" then Some D7
  else if Ascii.eqb c "8" then Some D8 else if Ascii.eqb c "9" then Some D9
  else None.

Definition is_digit (c : ascii) : bool :=
  match digit_of_char c with Some _ => true | None => false end.

(** *** Strings of digits *)

Fixpoint all_digits (s : string) : bool :=
  match s with
  | EmptyString => true
  | String c r => is_digit c && all_digits r
  end.

Fixpoint zeros (n : nat) : string :=
  match n with
  | O => ""
  | S m => String "0" (zeros m)
  end.

(** The first [n] characters, and what comes after them. *)
Fixpoint str_take (n : nat) (s : string) : string :=
  match n, s with
  | S m, String c r => String c (str_take m r)
  | _, _ => ""
  end.

Fixpoint str_drop (n : nat) (s : string) : string :=
  match n, s with
  | S m, String _ r => str_drop m r
  | _, _ => s
  end.

Fixpoint strip_leading (s : string) : string :=
  match s with
  | String c r => if Ascii.eqb c "0" then strip_leading r else s
  | EmptyString => ""
  end.

Fixpoint strip_trailing (s : string) : string :=
  match s with
  | EmptyString => ""
  | String c r =>
      match strip_trailing r with
      | EmptyString => if Ascii.eqb c "0" then "" else String c ""
      | String c' r' => String c (String c' r')
      end
  end.

(** The longest run of digits in front, and the rest. *)
Fixpoint span_digits (s : string) : string * string :=
  match s with
  | String c r =>
      if is_digit c then let '(d, r') := span_digits r in (String c d, r')
      else ("", s)
  | EmptyString => ("", "")
  end.

Fixpoint scan_digits (s : string) : uint * string :=
  match s with
  | EmptyString => (Nil, "")
  | String c r =>
      match digit_of_char c with
      | Some mk => let '(d, r') := scan_digits r in (mk d, r')
      | None => (Nil, s)
      end
  end.

(** The number a string of digits writes. *)
Definition digits_value (d : string) : Z := Z.of_uint (fst (scan_digits d)).

(** *** JSON.stringify (QuoteJSONString and SerializeJSONProperty) *)

(** One character of a string literal, escaped as QuoteJSONString does:
    the two-character escapes, then [\u00xx] for the other control
    characters, everything else unchanged. *)
Definition escape_char (c : ascii) : string :=
  let n := N_of_ascii c in
  if Ascii.eqb c dquote then String bslash (String dquote "")
  else if Ascii.eqb c bslash then String bslash (String bslash "")
  else if (n =? 8)%N then String bslash "b"
  else if (n =? 9)%N then String bslash "t"
  else if (n =? 10)%N then String bslash "n"
  else if (n =? 12)%N then String bslash "f"
  else if (n =? 13)%N then String bslash "r"
  else if (n <? 32)%N then
    String bslash (String "u" (String "0" (String "0"
      (String (hex_digit (n / 16)) (String (hex_digit (n mod 16)) "")))))
  else String c "".

Fixpoint escape (s : string) : string :=
  match s with
  | EmptyString => ""
  | String c r => escape_char c +:+ escape r
  end.

Definition quote (s : string) : string :=
  String dquote (escape s +:+ String dquote "").

(** The decimal digits of an integer, with a sign. *)
Definition number_to_string (z : Z) : string :=
  NilZero.string_of_int (Z.to_int z).

(** The exponent part Number::toString writes: e, a sign, the digits. *)
Definition exponent_text (e : Z) : string :=
  String "e" ((if 0 <=? e then "+" else "-") +:+ number_to_string (Z.abs e)).

(** Number::toString on (+/-) 0.digits * 10^n, with k the number of
    digits: the digits and n - k zeros when k <= n <= 21; the digits with
    a point after the n-th when 0 < n <= 21; zero, a point, -n zeros and
    the digits when -6 < n <= 0; otherwise the first digit, the others
    after a point, and the exponent n - 1. *)
Definition number_text (negative : bool) (digits : string) (n : Z) : string :=
  let k := Z.of_nat (String.length digits) in
  (if negative then "-" else "") +:+
  (if (k <=? n) && (n <=? 21) then digits +:+ zeros (Z.to_nat (n - k))
   else if (0 <? n) && (n <=? 21) then
     str_take (Z.to_nat n) digits +:+ "." +:+ str_drop (Z.to_nat n) digits
   else if (-6 <? n) && (n <=? 0) then
     "0." +:+ zeros (Z.to_nat (- n)) +:+ digits
   else
     match digits with
     | EmptyString => ""
     | String d EmptyString => String d (exponent_text (n - 1))
     | String d more => String d ("." +:+ more +:+ exponent_text (n - 1))
     end).

(** The digits of an integer without its sign. *)
Definition integer_digits (z : Z) : string := number_to_string (Z.abs z).

(** An integer of at most 21 digits is written in full; a longer one
    goes the way of every other number, by its significant digits. *)
Definition integer_text (z : Z) : string :=
  if (String.length (integer_digits z) <=? 21)%nat then number_to_string z
  else number_text (z <? 0) (strip_trailing (integer_digits z))
         (Z.of_nat (String.length (integer_digits z))).

(** Array elements and object members are separated by commas, with no
    white space (JSON.stringify without a [space] argument). *)
Fixpoint commas (parts : list string) : string :=
  match parts with
  | [] => ""
  | [p] => p
  | p :: rest => p +:+ "," +:+ commas rest
  end.

Fixpoint stringify (v : json) : string :=
  match v with
  | JNull => "null"
  | JBool true => "true"
  | JBool false => "false"
  | JNum z => integer_text z
  | JDec negative digits n => number_text negative digits n
  | JInf _ => "null"
  | JStr s => quote s
  | JArr xs => "[" +:+ commas (map stringify xs) +:+ "]"
  | JObj kvs =>
      "{" +:+ commas (map (fun kv => quote (fst kv) +:+ ":" +:+ stringify (snd kv)) kvs) +:+ "}"
  end.

(** *** JSON.parse *)

Fixpoint skip_ws (s : string) : string :=
  match s with
  | String c r => if is_ws c then skip_ws r else s
  | EmptyString => ""
  end.

Fixpoint take_literal (lit s : string) : option string :=
  match lit, s with
  | EmptyString, _ => Some s
  | String a lit', String b s' => if Ascii.eqb a b then take_literal lit' s' else None
  | String _ _, EmptyString => None
  end.

(** The UTF-8 bytes of a code point. *)
Definition utf8_encode (n : N) : string :=
  if (n <? 128)%N then String (ascii_of_N n) ""
  else if (n <? 2048)%N then
    String (ascii_of_N (192 + n / 64)) (String (ascii_of_N (128 + n mod 64)) "")
  else if (n <? 65536)%N then
    String (ascii_of_N (224 + n / 4096))
      (String (ascii_of_N (128 + (n / 64) mod 64))
         (String (ascii_of_N (128 + n mod 64)) ""))
  else
    String (ascii_of_N (240 + n / 262144))
      (String (ascii_of_N (128 + (n / 4096) mod 64))
         (String (ascii_of_N (128 + (n / 64) mod 64))
            (String (ascii_of_N (128 + n mod 64)) ""))).

Definition hex4 (a b c d : ascii) : option N :=
  match hex_value a, hex_value b, hex_value c, hex_value d with
  | Some x, Some y, Some z, Some w => Some (x * 4096 + y * 256 + z * 16 + w)%N
  | _, _, _, _ => None
  end.

Definition is_high_surrogate (n : N) : bool := (55296 <=? n)%N && (n <? 56320)%N.
Definition is_low_surrogate (n : N) : bool := (56320 <=? n)%N && (n <? 57344)%N.

(** A lone surrogate has no UTF-8 form; it reads as U+FFFD, which is what
    any conversion of the parsed string to bytes would make of it. *)
Definition replacement : string := utf8_encode 65533.

Definition simple_escape (e : ascii) : option ascii :=
  if Ascii.eqb e dquote then Some dquote
  else if Ascii.eqb e bslash then Some bslash
  else if Ascii.eqb e "/" then Some "/"%char
  else if Ascii.eqb e "b" then Some "008"%char
  else if Ascii.eqb e "f" then Some "012"%char
  else if Ascii.eqb e "n" then Some "010"%char
  else if Ascii.eqb e "r" then Some "013"%char
  else if Ascii.eqb e "t" then Some "009"%char
  else None.

(** The characters of a string literal after its opening quote, up to and
    including the closing one; returns the string and the text after it. *)
Fixpoint parse_chars (s : string) : option (string * string) :=
  match s with
  | EmptyString => None
  | String c r =>
      if Ascii.eqb c dquote then Some ("", r)
      else if Ascii.eqb c bslash then
        match r with
        | EmptyString => None
        | String e r1 =>
            if Ascii.eqb e "u" then
              match r1 with
              | String h1 (String h2 (String h3 (String h4 r2))) =>
                  match hex4 h1 h2 h3 h4 with
                  | None => None
                  | Some n =>
                      if is_high_surrogate n then
                        match r2 with
                        | String b1 (String u1 (String g1 (String g2 (String g3 (String g4 r3))))) =>
                            match (if Ascii.eqb b1 bslash && Ascii.eqb u1 "u"
                                   then hex4 g1 g2 g3 g4 else None) with
                            | Some m =>
                                if is_low_surrogate m then
                                  '(str, fin) ← parse_chars r3;
                                  Some (utf8_encode (65536 + (n - 55296) * 1024 + (m - 56320))
                                          +:+ str, fin)
                                else
                                  '(str, fin) ← parse_chars r2;
                                  Some (replacement +:+ str, fin)
                            | None =>
                                '(str, fin) ← parse_chars r2;
                                Some (replacement +:+ str, fin)
                            end
                        | _ =>
                            '(str, fin) ← parse_chars r2;
                            Some (replacement +:+ str, fin)
                        end
                      else if is_low_surrogate n then
                        '(str, fin) ← parse_chars r2;
                        Some (replacement +:+ str, fin)
                      else
                        '(str, fin) ← parse_chars r2;
                        Some (utf8_encode n +:+ str, fin)
                  end
              | _ => None
              end
            else
              match simple_escape e with
              | Some ch => '(str, fin) ← parse_chars r1; Some (String ch str, fin)
              | None => None
              end
        end
      else if (N_of_ascii c <? 32)%N then None
      else '(str, fin) ← parse_chars r; Some (String c str, fin)
  end.

(** The grammar of a number: an optional minus, an integer part that is
    0 or starts with another digit, an optional fraction (a point and
    digits), an optional exponent (e or E, an optional sign, digits). *)
Definition scan_int (s : string) : option (string * string) :=
  match s with
  | EmptyString => None
  | String c r =>
      if Ascii.eqb c "0" then Some ("0", r)
      else if is_digit c then Some (span_digits s)
      else None
  end.

Definition scan_frac (s : string) : option (string * string) :=
  match s with
  | EmptyString => Some ("", "")
  | String c r =>
      if Ascii.eqb c "." then
        match span_digits r with
        | (EmptyString, _) => None
        | (f, r') => Some (f, r')
        end
      else Some ("", s)
  end.

Definition scan_exp (s : string) : option (Z * string) :=
  match s with
  | EmptyString => Some (0, "")
  | String c r =>
      if Ascii.eqb c "e" || Ascii.eqb c "E" then
        let '(minus, r1) :=
          match r with
          | String sign r' =>
              if Ascii.eqb sign "-" then (true, r')
              else if Ascii.eqb sign "+" then (false, r')
              else (false, r)
          | EmptyString => (false, r)
          end in
        match span_digits r1 with
        | (EmptyString, _) => None
        | (d, r2) => Some (if minus then - digits_value d else digits_value d, r2)
        end
      else Some (0, s)
  end.

(** *** 64-bit numbers

    A literal stands for the 64-bit number nearest to the decimal it
    writes, ties going to the even significand (IEEE 754 binary64:
    a significand below 2^53, an exponent of two from -1074 to 971). *)

(** The fraction s * 10^e, as numerator and denominator. *)
Definition fraction (s e : Z) : Z * Z :=
  if 0 <=? e then (s * 10 ^ e, 1) else (s, 10 ^ (- e)).

(** num / den divided by 2^p. *)
Definition scale (num den p : Z) : Z * Z :=
  if 0 <=? p then (num, den * 2 ^ p) else (num * 2 ^ (- p), den).

(** The integer nearest to a / b, the even one of two. *)
Definition round_half_even (a b : Z) : Z :=
  let q := a / b in
  let r := a mod b in
  if (b <? 2 * r) || ((b =? 2 * r) && Z.odd q) then q + 1 else q.

(** The 64-bit number nearest to the positive num / den, as (q, p) for
    q * 2^p: 2^52 <= q < 2^53, or p = -1074 and q < 2^52 (q = 0 when the
    fraction is too small). [None] is beyond the range: infinity. *)
Definition to_binary64 (num den : Z) : option (Z * Z) :=
  let est := Z.log2 num - Z.log2 den - 52 in
  let '(a, b) := scale num den est in
  let p := Z.max (if a / b <? 2 ^ 52 then est - 1 else est) (-1074) in
  let '(a, b) := scale num den p in
  let q := round_half_even a b in
  let '(q, p) := if q =? 2 ^ 53 then (2 ^ 52, p + 1) else (q, p) in
  if 971 <? p then None else Some (q, p).

(** num / den < 10^n *)
Definition below (num den n : Z) : bool :=
  if 0 <=? n then num <? den * 10 ^ n else num * 10 ^ (- n) <? den.

(** The n with 10^(n-1) <= num / den < 10^n, looked for from an estimate
    that is never too large. *)
Definition decade (num den : Z) : Z :=
  let est := (Z.log2 num - Z.log2 den - 1) * 30103 / 100000 in
  if below num den est then est
  else if below num den (est + 1) then est + 1
  else if below num den (est + 2) then est + 2
  else est + 3.

(** s * 10^e is read as q * 2^p. *)
Definition rounds_to (q p s e : Z) : bool :=
  let '(num, den) := fraction s e in
  match to_binary64 num den with
  | Some (q', p') => (q' =? q) && (p' =? p)
  | None => false
  end.

(** The name of q * 2^p with k digits, if there is one (Number::toString,
    step 5): of the decimals of k digits just under and just over the
    number, one that is read as the number; of two, the nearer one, and
    the even one if they are as near. *)
Definition shortest_with (k q p : Z) : option (Z * Z) :=
  let '(xn, xd) := if 0 <=? p then (q * 2 ^ p, 1) else (q, 2 ^ (- p)) in
  let n := decade xn xd in
  let e := n - k in
  let lo := if 0 <=? e then xn / (xd * 10 ^ e) else (xn * 10 ^ (- e)) / xd in
  let hi := lo + 1 in
  let twice := if 0 <=? e then 2 * xn else 2 * xn * 10 ^ (- e) in
  let middle := if 0 <=? e then (2 * lo + 1) * 10 ^ e * xd else (2 * lo + 1) * xd in
  match rounds_to q p lo e, rounds_to q p hi e with
  | true, true =>
      if twice <? middle then Some (lo, e)
      else if middle <? twice then Some (hi, e)
      else if Z.even lo then Some (lo, e) else Some (hi, e)
  | true, false => Some (lo, e)
  | false, true => Some (hi, e)
  | false, false => None
  end.

(** The fewest digits that do: 17 always do. *)
Fixpoint shortest_from (fuel : nat) (k q p : Z) : Z * Z :=
  match fuel with
  | O => (q, 0)
  | S fuel' =>
      match shortest_with k q p with
      | Some se => se
      | None => shortest_from fuel' (k + 1) q p
      end
  end.

(** What a literal comes to. *)
Inductive named : Type :=
| Zero
| Infinite
| Name (digits : string) (n : Z).

Definition name_of (q p : Z) : named :=
  let '(s, e) := shortest_from 17 1 q p in
  let written := number_to_string s in
  Name (strip_trailing written) (Z.of_nat (String.length written) + e).

(** The name of the 64-bit number nearest to 0.d * 10^n, for significant
    digits d. Beyond 10^400 every decimal is out of range and under
    10^-400 every decimal is nearest to zero. *)
Definition normalize (d : string) (n : Z) : named :=
  if 400 <? n then Infinite
  else if n <? -400 then Zero
  else
    let '(num, den) := fraction (digits_value d) (n - Z.of_nat (String.length d)) in
    match to_binary64 num den with
    | None => Infinite
    | Some (q, p) => if q =? 0 then Zero else name_of q p
    end.

(** A finite number that is not zero, under its name. *)
Definition number_named (negative : bool) (d : string) (n : Z) : json :=
  let k := Z.of_nat (String.length d) in
  if (k <=? n) && (n <=? 21) then
    let z := digits_value (d +:+ zeros (Z.to_nat (n - k))) in
    JNum (if negative then - z else z)
  else JDec negative d n.

(** The number a literal writes: the digits of the integer part and of
    the fraction, without the zeros in front and at the end, and the
    place of the point among them, rounded to 64 bits. *)
Definition number_of (negative : bool) (int frac : string) (exp : Z) : json :=
  let all := int +:+ frac in
  let significant := strip_leading all in
  let digits := strip_trailing significant in
  let n := Z.of_nat (String.length int)
           - Z.of_nat (String.length all - String.length significant) + exp in
  match digits with
  | EmptyString => JNum 0
  | String _ _ =>
      match normalize digits n with
      | Zero => JNum 0
      | Infinite => JInf negative
      | Name d n' => number_named negative d n'
      end
  end.

Definition parse_number (s : string) : option (json * string) :=
  let '(negative, s1) :=
    match s with
    | String c r => if Ascii.eqb c "-" then (true, r) else (false, s)
    | EmptyString => (false, s)
    end in
  '(int, r1) ← scan_int s1;
  '(frac, r2) ← scan_frac r1;
  '(exp, r3) ← scan_exp r2;
  Some (number_of negative int frac exp, r3).

(** CreateDataProperty on an object kept as its list of own properties in
    enumeration order: an existing key keeps its place and takes the new
    value, a new key goes last. *)
Fixpoint obj_set (k : string) (v : json) (o : list (string * json)) : list (string * json) :=
  match o with
  | [] => [(k, v)]
  | (k', v') :: rest =>
      if String.eqb k k' then (k, v) :: rest else (k', v') :: obj_set k v rest
  end.

Definition obj_of_members (ms : list (string * json)) : list (string * json) :=
  fold_left (fun o kv => obj_set (fst kv) (snd kv) o) ms [].

(** The three productions of the grammar, each given the parsers for the
    parts nested inside it. *)
Definition value_of
    (elements : string -> option (list json * string))
    (members : string -> option (list (string * json) * string))
    (s : string) : option (json * string) :=
  match skip_ws s with
  | EmptyString => None
  | String c r =>
      if Ascii.eqb c "n" then r' ← take_literal "ull" r; Some (JNull, r')
      else if Ascii.eqb c "t" then r' ← take_literal "rue" r; Some (JBool true, r')
      else if Ascii.eqb c "f" then r' ← take_literal "alse" r; Some (JBool false, r')
      else if Ascii.eqb c dquote then '(str, r') ← parse_chars r; Some (JStr str, r')
      else if Ascii.eqb c "[" then
        match skip_ws r with
        | String c' r' =>
            if Ascii.eqb c' "]" then Some (JArr [], r')
            else '(xs, r'') ← elements r; Some (JArr xs, r'')
        | EmptyString => None
        end
      else if Ascii.eqb c "{" then
        match skip_ws r with
        | String c' r' =>
            if Ascii.eqb c' "}" then Some (JObj [], r')
            else '(ms, r'') ← members r; Some (JObj (obj_of_members ms), r'')
        | EmptyString => None
        end
      else parse_number (String c r)
  end.

Definition elements_of
    (value : string -> option (json * string))
    (elements : string -> option (list json * string))
    (s : string) : option (list json * string) :=
  '(v, r) ← value s;
  match skip_ws r with
  | String c r' =>
      if Ascii.eqb c "," then '(vs, r'') ← elements r'; Some (v :: vs, r'')
      else if Ascii.eqb c "]" then Some ([v], r')
      else None
  | EmptyString => None
  end.

Definition members_of
    (value : string -> option (json * string))
    (members : string -> option (list (string * json) * string))
    (s : string) : option (list (string * json) * string) :=
  match skip_ws s with
  | String q r0 =>
      if Ascii.eqb q dquote then
        '(k, r1) ← parse_chars r0;
        match skip_ws r1 with
        | String colon r2 =>
            if Ascii.eqb colon ":" then
              '(v, r) ← value r2;
              match skip_ws r with
              | String c r' =>
                  if Ascii.eqb c "," then
                    '(ms, r'') ← members r'; Some ((k, v) :: ms, r'')
                  else if Ascii.eqb c "}" then Some ([(k, v)], r')
                  else None
              | EmptyString => None
              end
            else None
        | EmptyString => None
        end
      else None
  | EmptyString => None
  end.

(** The recursive descent, bounded by [fuel]. *)
Fixpoint parse_value (fuel : nat) (s : string) : option (json * string) :=
  match fuel with
  | O => None
  | S fuel' => value_of (parse_elements fuel') (parse_members fuel') s
  end
with parse_elements (fuel : nat) (s : string) : option (list json * string) :=
  match fuel with
  | O => None
  | S fuel' => elements_of (parse_value fuel') (parse_elements fuel') s
  end
with parse_members (fuel : nat) (s : string) : option (list (string * json) * string) :=
  match fuel with
  | O => None
  | S fuel' => members_of (parse_value fuel') (parse_members fuel') s
  end.

(** JSON.parse: one value, surrounded by optional white space. [None] is
    the SyntaxError. *)
Definition parse (s : string) : option json :=
  match parse_value (S (String.length s)) s with
  | Some (v, r) => match skip_ws r with EmptyString => Some v | String _ _ => None end
  | None => None
  end.

End Json.

(** ** UTF-8

    The decoder of [buffer.toString()]: well-formed sequences are kept,
    and each longest ill-formed run that could have started a character
    becomes one U+FFFD. *)
Module Utf8.

(** What the decoder is waiting for: the start of a character, or
    continuation bytes (one, two, three), the next of them restricted
    after the lead bytes E0, ED, F0 and F4. *)
Inductive expect : Type :=
| Boundary
| Last
| Two
| Three
| AfterE0
| AfterED
| AfterF0
| AfterF4.

Definition between (lo hi : N) (b : ascii) : bool :=
  (lo <=? N_of_ascii b)%N && (N_of_ascii b <=? hi)%N.

Definition step (st : expect) (b : ascii) : option expect :=
  match st with
  | Boundary =>
      if between 0 127 b then Some Boundary
      else if between 194 223 b then Some Last
      else if between 224 224 b then Some AfterE0
      else if between 237 237 b then Some AfterED
      else if between 225 239 b then Some Two
      else if between 240 240 b then Some AfterF0
      else if between 241 243 b then Some Three
      else if between 244 244 b then Some AfterF4
      else None
  | Last => if between 128 191 b then Some Boundary else None
  | Two => if between 128 191 b then Some Last else None
  | Three => if between 128 191 b then Some Two else None
  | AfterE0 => if between 160 191 b then Some Last else None
  | AfterED => if between 128 159 b then Some Last else None
  | AfterF0 => if between 144 191 b then Some Two else None
  | AfterF4 => if between 128 143 b then Some Two else None
  end.

Fixpoint run (st : expect) (bytes : string) : option expect :=
  match bytes with
  | EmptyString => Some st
  | String b rest =>
      match step st b with
      | Some st' => run st' rest
      | None => None
      end
  end.

(** Text that is UTF-8 from end to end. *)
Definition well_formed (text : string) : bool :=
  match run Boundary text with
  | Some Boundary => true
  | _ => false
  end.

(** [pending] holds the bytes of the character being read. A byte that
    cannot continue it ends it with U+FFFD and is then read again as the
    start of a character. *)
Fixpoint decode_from (st : expect) (pending : string) (bytes : string) : string :=
  match bytes with
  | EmptyString =>
      match st with
      | Boundary => ""
      | _ => Json.replacement
      end
  | String b rest =>
      match step st b with
      | Some Boundary => pending +:+ String b (decode_from Boundary "" rest)
      | Some st' => decode_from st' (pending +:+ String b "") rest
      | None =>
          match st with
          | Boundary => Json.replacement +:+ decode_from Boundary "" rest
          | _ =>
              Json.replacement +:+
              match step Boundary b with
              | Some Boundary => String b (decode_from Boundary "" rest)
              | Some st' => decode_from st' (String b "") rest
              | None => Json.replacement +:+ decode_from Boundary "" rest
              end
          end
      end
  end.

Definition decode (bytes : string) : string := decode_from Boundary "" bytes.

End Utf8.

(** ** The runtime around the facade *)

(** What an event payload carries under each key; [None] is undefined. *)
Definition Data : Type := list (string * option json).

(** Errors: those the language raises itself, those a promise of the
    client library rejects with, and the one an EventEmitter throws when
    'error' is emitted and nobody listens for it (ERR_UNHANDLED_ERROR,
    with the payload of the event as its context). *)
Inductive Error : Type :=
| TypeError (message : string)
| RpcError (code : string)
| UnhandledError (service : string) (data : option Data) (err : Error).

(** The settlement of a promise. *)
Inductive outcome (A : Type) : Type :=
| Fulfilled (a : A)
| Rejected (e : Error).
Arguments Fulfilled {A} a.
Arguments Rejected {A} e.

(** A Buffer is a sequence of bytes. Buffer.from(text) is the UTF-8
    encoding of the text, which is the text itself as it is kept here;
    buffer.toString() decodes, and bytes that are not UTF-8 come out as
    U+FFFD. *)
Definition Buffer : Type := string.
Definition Buffer_from (text : string) : Buffer := text.
Definition Buffer_toString (b : Buffer) : string := Utf8.decode b.

Record Credentials : Type := {
  client_email : string;
  private_key : string;
}.

(** interface PubSubConfig, an object by its own properties. Reading a
    property that is missing gives undefined, which is [None], and so
    does reading one that is there with the value undefined. The spread
    in the constructor tells the two apart, so for the one property that
    has a default under it, [has_ack_deadline_seconds] says whether the
    key is there; when it is not, [ack_deadline_seconds] is not looked
    at. *)
Record PubSubConfig : Type := {
  projectId : option string;
  file : option string;
  credentials : option Credentials;
  ack_deadline_seconds : option Z;
  has_ack_deadline_seconds : bool;
}.

(** The argument of [new PubSubCore(...)] in init. *)
Record ClientOptions : Type := {
  opt_projectId : option string;
  opt_keyFile : option string;
  opt_credentials : option Credentials;
}.

(** SubscriptionOptions as subscribe fills it in. *)
Record SubscriptionOptions : Type := {
  flowControl_maxMessages : Z;
  ackDeadline : option Z;
}.

(** The options argument of subscribe. *)
Record SubscribeOptions : Type := {
  maxInProgress : option Z;
  ackDeadlineSeconds : option Z;
}.

(** The external client library (@google-cloud/pubsub) and the managed
    service behind it. [Service] is everything on that side; an
    asynchronous method is a transition of it that settles a promise. *)
Class PubSubCore : Type := {
  Service : Type;
  Client : Type;
  Topic : Type;
  Subscription : Type;
  Subscription_eq_dec :: EqDecision Subscription;
  new_client : ClientOptions -> Client;
  getTopics : Client -> Service -> outcome unit * Service;
  client_topic : Client -> string -> Topic;
  topic_name : Topic -> string;
  topic_exists : Topic -> Service -> outcome bool * Service;
  topic_create : Topic -> Service -> outcome Topic * Service;
  topic_delete : Topic -> Service -> outcome unit * Service;
  topic_subscription :
    Topic -> string -> option SubscriptionOptions -> Service -> Subscription * Service;
  subscription_name : Subscription -> string;
  subscription_exists : Subscription -> Service -> outcome bool * Service;
  subscription_create : Subscription -> Service -> outcome Subscription * Service;
  subscription_delete : Subscription -> Service -> outcome unit * Service;
  publisher_publish : Topic -> Buffer -> Service -> outcome string * Service;
}.

(** Function values are compared by reference; a caller's function is
    known by its reference. *)
Definition Callback : Type := nat.

(** An EventEmitter handed to the constructor, by reference. *)
Definition EventEmitter : Type := nat.

(** The three emissions of the class: log, success and error. *)
Inductive Event : Type :=
| EvLog (service : string) (message : string) (data : option Data)
| EvSuccess (service : string) (message : string) (data : option Data)
| EvError (service : string) (data : option Data) (err : Error).

(** The functions that get registered as listeners: a function of the
    caller, or one of the two arrow functions subscribe creates, each a
    new function object ([closure]) that captures the variables shown. *)
Inductive Listener : Type :=
| UserFn (f : Callback)
| MessageListener (closure : nat) (cb : Callback)
| ErrorListener (closure : nat) (topicName subName : string).

Global Instance Listener_eq_dec : EqDecision Listener.
Proof. solve_decision. Defined.

(** A message as the client library delivers it. [nack] and [skip] are
    properties that may be missing. *)
Record Message : Type := {
  msg_id : string;
  msg_data : Buffer;
  msg_has_nack : bool;
  msg_has_skip : bool;
}.

Inductive Method : Type := Ack | Nack | Skip.

(** The function values put in the envelope: a method bound to its
    message, or the empty arrow function. *)
Inductive Action : Type :=
| Bound (m : Method) (target : Message)
| Noop.

(** The object subscribe hands to the caller's function. In [data],
    [None] is undefined. *)
Record Envelope : Type := {
  nack : Action;
  skip : Action;
  ack : Action;
  data : option json;
}.

(** What the parsing helper returns for a text that is not JSON: the
    choice of the package, left open. [None] is undefined. *)
Class SafelyParseJson : Type := {
  on_syntax_error : string -> option json;
}.

(** Modelled from the spec: the helper [safeJSON] of the package
    safely-parse-json, which is missing. "A data field produced by
    best-effort JSON-parsing the raw payload bytes (if parsing fails, the
    parsing utility is expected to return a safe fallback rather than
    throwing, e.g. the original string or null)": JSON.parse inside a try
    block. *)
Definition safeJSON `{SafelyParseJson} (text : string) : option json :=
  match Json.parse text with
  | Some v => Some v
  | None => on_syntax_error text
  end.

Section Facade.
Context `{core : PubSubCore} `{parser : SafelyParseJson}.

(** The requests made to the client library, for the record. *)
Inductive Call : Type :=
| CallGetTopics (c : Client)
| CallTopicExists (t : Topic)
| CallTopicCreate (t : Topic)
| CallTopicDelete (t : Topic)
| CallSubscriptionExists (s : Subscription)
| CallSubscriptionCreate (s : Subscription)
| CallSubscriptionDelete (s : Subscription)
| CallPublish (t : Topic) (data : Buffer).

(** One [emitter.on(event, fn)] that is still in force. *)
Record Registration : Type := {
  reg_target : Subscription;
  reg_event : string;
  reg_fn : Listener;
}.

Global Instance Registration_eq_dec : EqDecision Registration.
Proof. solve_decision. Defined.

(** Everything outside the facade object. Lists grow at the end.
    [emitted] are the events an emitter took; [has_error_listener] tells
    which emitters have a listener for 'error'. *)
Record World : Type := {
  service : Service;
  emitted : list (EventEmitter * Event);
  listeners : list Registration;
  closures : nat;
  unhandled : list Error;
  calls : list Call;
  has_error_listener : EventEmitter -> bool;
}.

(** class PubSub: the fields of [this]. *)
Record PubSub : Type := {
  name : string;
  emitter : EventEmitter;
  config : PubSubConfig;
  client : option Client;
  topics : gmap string Topic;
}.

Definition set_client (c : Client) (p : PubSub) : PubSub :=
  {| name := name p; emitter := emitter p; config := config p;
     client := Some c; topics := topics p |}.

Definition set_topics (ts : gmap string Topic) (p : PubSub) : PubSub :=
  {| name := name p; emitter := emitter p; config := config p;
     client := client p; topics := ts |}.

Definition set_service (s : Service) (w : World) : World :=
  {| service := s; emitted := emitted w; listeners := listeners w;
     closures := closures w; unhandled := unhandled w; calls := calls w;
     has_error_listener := has_error_listener w |}.

Definition add_emitted (e : EventEmitter * Event) (w : World) : World :=
  {| service := service w; emitted := emitted w ++ [e]; listeners := listeners w;
     closures := closures w; unhandled := unhandled w; calls := calls w;
     has_error_listener := has_error_listener w |}.

Definition set_listeners (ls : list Registration) (w : World) : World :=
  {| service := service w; emitted := emitted w; listeners := ls;
     closures := closures w; unhandled := unhandled w; calls := calls w;
     has_error_listener := has_error_listener w |}.

Definition set_closures (n : nat) (w : World) : World :=
  {| service := service w; emitted := emitted w; listeners := listeners w;
     closures := n; unhandled := unhandled w; calls := calls w;
     has_error_listener := has_error_listener w |}.

Definition add_unhandled (e : Error) (w : World) : World :=
  {| service := service w; emitted := emitted w; listeners := listeners w;
     closures := closures w; unhandled := unhandled w ++ [e]; calls := calls w;
     has_error_listener := has_error_listener w |}.

Definition add_call (c : Call) (w : World) : World :=
  {| service := service w; emitted := emitted w; listeners := listeners w;
     closures := closures w; unhandled := unhandled w; calls := calls w ++ [c];
     has_error_listener := has_error_listener w |}.

(** *** Method bodies: state passing with rejection *)

(** A method body runs on [this] and the world and ends by returning a
    value or by throwing; for an async method that is the settlement of
    the promise it returned. What was changed before a throw stays
    changed. *)
Definition M (A : Type) : Type := PubSub -> World -> outcome A * PubSub * World.

Definition ret {A} (a : A) : M A := fun p w => (Fulfilled a, p, w).

Definition throw {A} (e : Error) : M A := fun p w => (Rejected e, p, w).

Definition bind {A B} (m : M A) (k : A -> M B) : M B :=
  fun p w =>
    match m p w with
    | (Fulfilled a, p', w') => k a p' w'
    | (Rejected e, p', w') => (Rejected e, p', w')
    end.

Notation "x <- m ;; k" := (bind m (fun x => k))
  (at level 100, m at next level, right associativity).
Notation "m ;; k" := (bind m (fun _ => k))
  (at level 100, right associativity).

Definition this : M PubSub := fun p w => (Fulfilled p, p, w).

Definition update_this (f : PubSub -> PubSub) : M unit :=
  fun p w => (Fulfilled tt, f p, w).

Definition update_world (f : World -> World) : M unit :=
  fun p w => (Fulfilled tt, p, f w).

(** Calling an asynchronous method of the client library: the request is
    made and a promise comes back, here already settled. *)
Definition request {A} (c : Call) (op : Service -> outcome A * Service) : M (outcome A) :=
  fun p w =>
    let '(r, s') := op (service w) in
    (Fulfilled r, p, set_service s' (add_call c w)).

(** [await promise] *)
Definition await {A} (promise : outcome A) : M A :=
  match promise with
  | Fulfilled a => ret a
  | Rejected e => throw e
  end.

(** [promise.catch(handler)]: a promise for the same value, or for what
    the handler returns; it rejects only if the handler throws. *)
Definition promise_catch (promise : outcome string) (handler : Error -> M unit)
  : M (outcome (option string)) :=
  match promise with
  | Fulfilled a => ret (Fulfilled (Some a))
  | Rejected e =>
      fun p w =>
        match handler e p w with
        | (Fulfilled _, p', w') => (Fulfilled (Fulfilled None), p', w')
        | (Rejected e', p', w') => (Fulfilled (Rejected e'), p', w')
        end
  end.

(** A promise that is let go without a handler: if it rejects, nobody
    ever sees the error through the method's own promise. *)
Definition discard {A} (promise : outcome A) : M unit :=
  match promise with
  | Fulfilled _ => ret tt
  | Rejected e => update_world (add_unhandled e)
  end.

(** [this.emitter.emit(kind, payload)]. The emitter is the caller's. For
    'log' and 'success' emit hands the payload to whoever listens and
    returns. For 'error' it does so only if there is a listener for
    'error'; if there is none it throws, and the payload here is not an
    Error, so what it throws is a new error with the payload as context.
    The caller's listeners are taken to return. *)
Definition emit (ev : Event) : M unit :=
  fun p w =>
    match ev with
    | EvError service data err =>
        if has_error_listener w (emitter p)
        then (Fulfilled tt, p, add_emitted (emitter p, ev) w)
        else (Rejected (UnhandledError service data err), p, w)
    | _ => (Fulfilled tt, p, add_emitted (emitter p, ev) w)
    end.

(** [emitter.on(event, fn)] on a subscription. *)
Definition on (target : Subscription) (event : string) (fn : Listener) : M unit :=
  update_world (fun w =>
    set_listeners
      (listeners w ++ [{| reg_target := target; reg_event := event; reg_fn := fn |}]) w).

(** Removing the registration added last among those equal to [r]. *)
Fixpoint remove_last (r : Registration) (ls : list Registration) : list Registration :=
  match ls with
  | [] => []
  | x :: rest =>
      if bool_decide (x = r) && negb (bool_decide (r ∈ rest)) then rest
      else x :: remove_last r rest
  end.

(** [emitter.removeListener(event, fn)]: at most one registration goes, the
    one of that very function added last for that event. *)
Definition removeListener (target : Subscription) (event : string) (fn : Listener) : M unit :=
  update_world (fun w =>
    set_listeners
      (remove_last {| reg_target := target; reg_event := event; reg_fn := fn |}
         (listeners w)) w).

(** A new function object. *)
Definition new_closure : M nat :=
  fun p w => (Fulfilled (closures w), p, set_closures (S (closures w)) w).

(** *** The class *)

(** [{ ack_deadline_seconds: 300, ...config }]: the spread copies every
    own property of [config] over the default, one whose value is
    undefined included. *)
Definition with_defaults (cfg : PubSubConfig) : PubSubConfig :=
  {| projectId := projectId cfg;
     file := file cfg;
     credentials := credentials cfg;
     ack_deadline_seconds :=
       if has_ack_deadline_seconds cfg then ack_deadline_seconds cfg else Some 300;
     has_ack_deadline_seconds := true |}.

Definition constructor (name : string) (emitter : EventEmitter) (config : PubSubConfig)
  : PubSub :=
  {| name := name;
     emitter := emitter;
     config := with_defaults config;
     client := None;
     topics := ∅ |}.

(** [new PubSub(name, emitter, config)]: the constructor body has no throw
    and touches nothing but the new object. *)
Definition new_PubSub (name : string) (emitter : EventEmitter) (config : PubSubConfig)
    (w : World) : outcome PubSub * World :=
  (Fulfilled (constructor name emitter config), w).

Definition log (message : string) (data : option Data) : M unit :=
  p <- this ;; emit (EvLog (name p) message data).

Definition success (message : string) (data : option Data) : M unit :=
  p <- this ;; emit (EvSuccess (name p) message data).

Definition error (err : Error) (data : option Data) : M unit :=
  p <- this ;; emit (EvError (name p) data err).

(** A value that may be undefined, inside a template literal. *)
Definition show (o : option string) : string :=
  match o with
  | Some s => s
  | None => "undefined"
  end.

Definition str (o : option string) : option json := JStr <$> o.

Definition init : M PubSub :=
  p <- this ;;
  let cfg := config p in
  log "Using config"
    (Some [("projectId", str (projectId cfg));
           ("email", match credentials cfg with
                     | Some c => Some (JStr (client_email c))
                     | None => Some (JStr "n/a")
                     end);
           ("method", match credentials cfg with
                      | Some _ => Some (JStr "PrivateKey")
                      | None => Some (JStr "KeyFile")
                      end)]) ;;
  let client := new_client {| opt_projectId := projectId cfg;
                              opt_keyFile := file cfg;
                              opt_credentials := credentials cfg |} in
  listed <- request (CallGetTopics client) (getTopics client) ;;
  await listed ;;
  update_this (set_client client) ;;
  success ("Successfully connected on project " +:+ show (projectId cfg)) None ;;
  this.

(** [this.client.topic(name)]; a null client is a TypeError. *)
Definition client_dot_topic (name : string) : M Topic :=
  p <- this ;;
  match client p with
  | Some c => ret (client_topic c name)
  | None => throw (TypeError "Cannot read properties of null (reading 'topic')")
  end.

(** [this.topics[name]] followed by a property access on the result; an
    unregistered name gives undefined and the access is a TypeError. *)
Definition registered (name property : string) : M Topic :=
  p <- this ;;
  match topics p !! name with
  | Some t => ret t
  | None =>
      throw (TypeError ("Cannot read properties of undefined (reading '"
                        +:+ property +:+ "')"))
  end.

Definition dq : string := String Json.dquote "".

Definition createTopic (name : string) : M bool :=
  topic <- client_dot_topic name ;;
  log ("Creating topic " +:+ name) None ;;
  answer <- request (CallTopicExists topic) (topic_exists topic) ;;
  exists_ <- await answer ;;
  if exists_ then
    success ("Topic " +:+ dq +:+ name +:+ dq +:+ " already exists") None ;;
    update_this (fun p => set_topics (<[name := topic]> (topics p)) p) ;;
    ret true
  else
    created <- request (CallTopicCreate topic) (topic_create topic) ;;
    createdTopic <- await created ;;
    update_this (fun p => set_topics (<[name := createdTopic]> (topics p)) p) ;;
    success ("Topic " +:+ dq +:+ name +:+ dq +:+ " created") None ;;
    ret true.

Definition deleteTopic (name : string) : M bool :=
  topic <- registered name "delete" ;;
  deleted <- request (CallTopicDelete topic) (topic_delete topic) ;;
  await deleted ;;
  log ("Deleted topic " +:+ topic_name topic) None ;;
  update_this (fun p => set_topics (delete name (topics p)) p) ;;
  ret true.

(** The arrow function [(msg) => { ... return cb(newmsg); }] of subscribe:
    the envelope it builds, and the call it makes. *)
Definition newmsg (msg : Message) : Envelope :=
  {| nack := if msg_has_nack msg then Bound Nack msg else Noop;
     skip := if msg_has_skip msg then Bound Skip msg else Noop;
     ack := Bound Ack msg;
     data := safeJSON (Buffer_toString (msg_data msg)) |}.

(** A call of a caller's function, with its argument. *)
Inductive Invocation : Type :=
| WithEnvelope (cb : Callback) (arg : Envelope)
| WithMessage (f : Callback) (arg : Message).

Definition message_listener (cb : Callback) (msg : Message) : Invocation :=
  WithEnvelope cb (newmsg msg).

(** The arrow function [(err) => { this.error(err, {...}) }] of subscribe. *)
Definition error_listener (topicName subName : string) (err : Error) : M unit :=
  error err (Some [("topicName", Some (JStr topicName));
                   ("subName", Some (JStr subName))]).

(** A subscription emitting 'message': its listeners for that event are
    called in the order they were added. *)
Definition deliver (w : World) (target : Subscription) (msg : Message) : list Invocation :=
  omap (fun r =>
          if bool_decide (reg_target r = target) && String.eqb (reg_event r) "message" then
            match reg_fn r with
            | MessageListener _ cb => Some (message_listener cb msg)
            | UserFn f => Some (WithMessage f msg)
            | ErrorListener _ _ _ => None
            end
          else None)
       (listeners w).

(** A subscription emitting 'error': the listeners subscribe registered
    on it for that event are called in the order they were added, and
    one that throws ends the emit with what it threw. Functions of the
    caller are not run here. *)
Fixpoint call_error_listeners (ls : list Registration) (target : Subscription)
    (err : Error) : M unit :=
  match ls with
  | [] => ret tt
  | r :: rest =>
      if bool_decide (reg_target r = target) && String.eqb (reg_event r) "error" then
        match reg_fn r with
        | ErrorListener _ topicName subName =>
            error_listener topicName subName err ;;
            call_error_listeners rest target err
        | _ => call_error_listeners rest target err
        end
      else call_error_listeners rest target err
  end.

Definition emit_subscription_error (target : Subscription) (err : Error) : M unit :=
  fun p w => call_error_listeners (listeners w) target err p w.

Definition num (o : option Z) : option json := JNum <$> o.

Definition subscribe (topicName subName : string) (cb : Callback)
    (options : SubscribeOptions) : M bool :=
  p <- this ;;
  let maxInProgress :=
    match maxInProgress options with Some v => v | None => 1 end in
  let ackDeadlineSeconds :=
    match ackDeadlineSeconds options with
    | Some v => Some v
    | None => ack_deadline_seconds (config p)
    end in
  let opts := {| flowControl_maxMessages := maxInProgress;
                 ackDeadline := ackDeadlineSeconds |} in
  topic <- registered topicName "subscription" ;;
  subscription <- (fun p w =>
                     let '(sub, s') := topic_subscription topic subName (Some opts) (service w) in
                     (Fulfilled sub, p, set_service s' w)) ;;
  log "Subscribing"
    (Some [("topicName", Some (JStr topicName));
           ("subName", Some (JStr subName));
           ("opts", Some (JObj (("maxInProgress", JNum maxInProgress)
                                 :: match ackDeadlineSeconds with
                                    | Some v => [("ackDeadlineSeconds", JNum v)]
                                    | None => []
                                    end)))]) ;;
  answer <- request (CallSubscriptionExists subscription) (subscription_exists subscription) ;;
  exists_ <- await answer ;;
  sub <- (if exists_ then
            success "Subscription already exists"
              (Some [("topicName", Some (JStr (topic_name topic)));
                     ("subName", Some (JStr (subscription_name subscription)))]) ;;
            ret subscription
          else
            created <- request (CallSubscriptionCreate subscription)
                               (subscription_create subscription) ;;
            res <- await created ;;
            success "Created subscription"
              (Some [("topicName", Some (JStr (topic_name topic)));
                     ("subName", Some (JStr (subscription_name subscription)))]) ;;
            ret res) ;;
  f <- new_closure ;;
  on sub "message" (MessageListener f cb) ;;
  g <- new_closure ;;
  on sub "error" (ErrorListener g (topic_name topic) (subscription_name sub)) ;;
  ret true.

Definition unsubscribe (topicName subName : string) (cb : Callback) : M bool :=
  topic <- registered topicName "subscription" ;;
  subscription <- (fun p w =>
                     let '(sub, s') := topic_subscription topic subName None (service w) in
                     (Fulfilled sub, p, set_service s' w)) ;;
  removeListener subscription "message" (UserFn cb) ;;
  deleted <- request (CallSubscriptionDelete subscription) (subscription_delete subscription) ;;
  await deleted ;;
  log ("Removed listener from " +:+ topic_name topic +:+ ", " +:+ subscription_name subscription)
    (Some [("topicName", Some (JStr (topic_name topic)));
           ("subName", Some (JStr (subscription_name subscription)))]) ;;
  ret true.

(** The object literal [{ content, meta }] as JSON.stringify sees it: a
    property whose value is undefined is left out. *)
Definition envelope (content : option json) (meta : json) : json :=
  JObj (match content with
        | Some c => [("content", c)]
        | None => []
        end ++ [("meta", meta)]).

(** The default of a parameter declared [meta = {}]. *)
Definition or_empty (meta : option json) : json :=
  match meta with
  | Some m => m
  | None => JObj []
  end.

(** [publish(topicName, content, meta = {}, handle = true)]. An argument
    that is left out is [None]; [handle] is the value after defaulting.
    The result [tt] is the undefined an async function without a return
    value resolves to. *)
Definition publish (topicName : string) (content : option json) (meta : option json)
    (handle : bool) : M unit :=
  let meta := or_empty meta in
  topic <- registered topicName "publisher" ;;
  let payload := Buffer_from (Json.stringify (envelope content meta)) in
  publishPromise <- request (CallPublish topic payload) (publisher_publish topic payload) ;;
  if negb handle then
    discard publishPromise ;;
    ret tt
  else
    caught <- promise_catch publishPromise
                (fun err => error err (Some [("topicName", Some (JStr topicName));
                                             ("message", content);
                                             ("options", Some meta)])) ;;
    await caught ;;
    ret tt.

End Facade.

(** ** Sending without the registry *)

(** [topic.publish(data)] of the client library, the method send and
    sendWithoutCover call on a topic looked up for the occasion. *)
Class TopicPublish `{PubSubCore} : Type := {
  topic_publish : Topic -> Buffer -> Service -> outcome string * Service;
}.

Section Sending.
Context `{core : PubSubCore} `{direct : !TopicPublish}.

Notation "x <- m ;; k" := (bind m (fun x => k))
  (at level 100, m at next level, right associativity).
Notation "m ;; k" := (bind m (fun _ => k))
  (at level 100, right associativity).

(** The object literal [{ content, meta }] of send as JSON.stringify sees
    it: neither parameter has a default, and a property whose value is
    undefined is left out. *)
Definition envelope_of (content meta : option json) : json :=
  JObj (match content with
        | Some c => [("content", c)]
        | None => []
        end ++
        match meta with
        | Some m => [("meta", m)]
        | None => []
        end).

(** [send(topicName, content, meta, handler = true)] *)
Definition send (topicName : string) (content meta : option json) (handler : bool)
  : M unit :=
  topic <- client_dot_topic topicName ;;
  let payload := Buffer_from (Json.stringify (envelope_of content meta)) in
  publishPromise <- request (CallPublish topic payload) (topic_publish topic payload) ;;
  if negb handler then
    discard publishPromise ;;
    ret tt
  else
    caught <- promise_catch publishPromise
                (fun err => error err (Some [("topicName", Some (JStr topicName));
                                             ("message", content);
                                             ("options", meta)])) ;;
    await caught ;;
    ret tt.

(** [sendWithoutCover(topicName, data, handler = true)]. In the payload of
    the error event the buffer stands as the text it holds. *)
Definition sendWithoutCover (topicName : string) (data : Buffer) (handler : bool)
  : M unit :=
  topic <- client_dot_topic topicName ;;
  publishPromise <- request (CallPublish topic data) (topic_publish topic data) ;;
  if negb handler then
    discard publishPromise ;;
    ret tt
  else
    caught <- promise_catch publishPromise
                (fun err => error err (Some [("topicName", Some (JStr topicName));
                                             ("message", Some (JStr (Buffer_toString data)))])) ;;
    await caught ;;
    ret tt.

End Sending.

(** ** The earlier implementation (plain JavaScript, before the move to
    TypeScript)

    It validates its arguments with helpers of packages that are not in
    the repository, and hands the publish promise back when the caller
    asks to handle failure. Only the constructor and publish are needed
    for comparison. *)
Module Legacy.

(** The configuration object of the earlier constructor. *)
Record Config : Type := {
  projectId : option string;
  keyFilename : option string;
  ack_deadline_seconds : option Z;
}.

(** Modelled from the spec: the schema check of the constructor, done by
    [validate] and [joi] of the package validator, which is missing.
    "Validates configuration against a fixed schema (required project id
    string; optional credential fields; default ack-deadline). Fails fast
    (throws/returns error) if validation fails." *)
Definition validate_config (cfg : Config) : Error + Config :=
  match projectId cfg with
  | None => inl (TypeError "projectId is required")
  | Some _ =>
      inr {| projectId := projectId cfg;
             keyFilename := keyFilename cfg;
             ack_deadline_seconds :=
               match ack_deadline_seconds cfg with
               | Some v => Some v
               | None => Some 300
               end |}
  end.

(** Modelled from the spec: the schema check of publish on [meta], by the
    same missing package. "meta is constrained to known optional fields
    (replyTo, correlationId); unknown fields are rejected by validation,
    known fields pass through unchanged." *)
Definition known_meta_field (kv : string * json) : bool :=
  (String.eqb (fst kv) "replyTo" || String.eqb (fst kv) "correlationId")
  && match snd kv with JStr _ => true | _ => false end.

Definition validate_meta (meta : json) : Error + json :=
  match meta with
  | JObj kvs =>
      if forallb known_meta_field kvs then inr meta
      else inl (TypeError "meta is not allowed to have that field")
  | _ => inl (TypeError "meta must be an object")
  end.

Section Legacy.
Context `{core : PubSubCore}.

(** The fields the earlier class sets itself. *)
Record PubSub : Type := {
  config : Config;
  client : option Client;
  topics : gmap string Topic;
}.

(** [new PubSub(name, emitter, config)]: a failed validation is thrown out
    of the constructor. *)
Definition new_PubSub (cfg : Config) : Error + PubSub :=
  match validate_config cfg with
  | inl e => inl e
  | inr cfg' => inr {| config := cfg'; client := None; topics := ∅ |}
  end.

(** publish with [handle === false]: validate, look the topic up, publish,
    and [return p]. The result is what the caller gets: something thrown
    before a promise exists ([inl]), or the promise [p] itself. *)
Definition publish_unhandled (p : PubSub) (topicName : string) (content : option json)
    (meta : option json) (s : Service) : (Error + outcome string) * Service :=
  match validate_meta (or_empty meta) with
  | inl e => (inl e, s)
  | inr meta' =>
      match topics p !! topicName with
      | None => (inl (TypeError "Cannot read properties of undefined (reading 'publish')"), s)
      | Some topic =>
          let '(promise, s') :=
            publisher_publish topic (Json.stringify (envelope content meta')) s in
          (inr promise, s')
      end
  end.

End Legacy.
End Legacy.

(** ** A small in-memory service

    One implementation of the client interface, used to run the methods
    on concrete inputs. The service knows topics and subscriptions by
    name and can be unreachable; every [topic.subscription(...)] is a new
    object. *)
Module Memory.

Record State : Type := {
  reachable : bool;
  known_topics : list string;
  known_subscriptions : list string;
  objects : nat;
}.

Definition answer {A} (s : State) (r : outcome A * State) : outcome A * State :=
  if reachable s then r else (Rejected (RpcError "UNAVAILABLE"), s).

Definition with_topics (ts : list string) (s : State) : State :=
  {| reachable := reachable s; known_topics := ts;
     known_subscriptions := known_subscriptions s; objects := objects s |}.

Definition with_subscriptions (ss : list string) (s : State) : State :=
  {| reachable := reachable s; known_topics := known_topics s;
     known_subscriptions := ss; objects := objects s |}.

Definition member (x : string) (l : list string) : bool := existsb (String.eqb x) l.

Definition without (x : string) (l : list string) : list string :=
  filter (fun y => negb (String.eqb x y)) l.

Global Instance core : PubSubCore := {|
  Service := State;
  Client := ClientOptions;
  Topic := string;
  Subscription := nat * string;
  new_client := fun o => o;
  getTopics := fun _ s => answer s (Fulfilled tt, s);
  client_topic := fun _ name => name;
  topic_name := fun t => "projects/p/topics/" +:+ t;
  topic_exists := fun t s => answer s (Fulfilled (member t (known_topics s)), s);
  topic_create := fun t s =>
    answer s (if member t (known_topics s) then (Rejected (RpcError "ALREADY_EXISTS"), s)
              else (Fulfilled t, with_topics (known_topics s ++ [t]) s));
  topic_delete := fun t s =>
    answer s (if member t (known_topics s)
              then (Fulfilled tt, with_topics (without t (known_topics s)) s)
              else (Rejected (RpcError "NOT_FOUND"), s));
  topic_subscription := fun _ sub _ s =>
    ((objects s, sub),
     {| reachable := reachable s; known_topics := known_topics s;
        known_subscriptions := known_subscriptions s; objects := S (objects s) |});
  subscription_name := fun sub => "projects/p/subscriptions/" +:+ snd sub;
  subscription_exists := fun sub s =>
    answer s (Fulfilled (member (snd sub) (known_subscriptions s)), s);
  subscription_create := fun sub s =>
    answer s (if member (snd sub) (known_subscriptions s)
              then (Rejected (RpcError "ALREADY_EXISTS"), s)
              else (Fulfilled sub, with_subscriptions (known_subscriptions s ++ [snd sub]) s));
  subscription_delete := fun sub s =>
    answer s (if member (snd sub) (known_subscriptions s)
              then (Fulfilled tt, with_subscriptions (without (snd sub) (known_subscriptions s)) s)
              else (Rejected (RpcError "NOT_FOUND"), s));
  publisher_publish := fun t _ s =>
    answer s (if member t (known_topics s) then (Fulfilled "1", s)
              else (Rejected (RpcError "NOT_FOUND"), s));
|}.

(** A parsing helper that gives the text back when it is not JSON. *)
Global Instance parser : SafelyParseJson := {|
  on_syntax_error := fun text => Some (JStr text);
|}.

Definition up : State :=
  {| reachable := true; known_topics := []; known_subscriptions := []; objects := 0 |}.

Definition down : State :=
  {| reachable := false; known_topics := []; known_subscriptions := []; objects := 0 |}.

(** A world at the start, with a listener for 'error' on every emitter,
    as the example of the repository has on its own. *)
Definition world (s : State) : World :=
  {| service := s; emitted := []; listeners := []; closures := 0;
     unhandled := []; calls := []; has_error_listener := fun _ => true |}.

(** The same with no listener for 'error' on any emitter. *)
Definition unheard (s : State) : World :=
  {| service := s; emitted := []; listeners := []; closures := 0;
     unhandled := []; calls := []; has_error_listener := fun _ => false |}.

Definition fresh : PubSub :=
  constructor "pubsub" 0%nat
    {| projectId := Some "quizizz-dev"; file := None; credentials := None;
       ack_deadline_seconds := None; has_ack_deadline_seconds := false |}.

Definition options : ClientOptions :=
  {| opt_projectId := Some "quizizz-dev"; opt_keyFile := None; opt_credentials := None |}.

(** After init. *)
Definition ready : PubSub := set_client options fresh.

(** After init and createTopic('test'). *)
Definition with_test : PubSub := set_topics (<["test" := "test"]> ∅) ready.

Definition serving : State :=
  {| reachable := true; known_topics := ["test"]; known_subscriptions := []; objects := 0 |}.

Definition failing : State :=
  {| reachable := false; known_topics := ["test"]; known_subscriptions := []; objects := 0 |}.

Definition x1 : json := JObj [("x", JNum 1)].

Definition reply : json := JObj [("replyTo", JStr "answers"); ("correlationId", JStr "42")].

Definition foo : json := JObj [("foo", JStr "bar")].

Definition no_options : SubscribeOptions :=
  {| maxInProgress := None; ackDeadlineSeconds := None |}.

(** The world after subscribe('test', 'sub', f7) and after the
    unsubscribe('test', 'sub', f7) that follows. *)
Definition subscribed : World :=
  snd (subscribe "test" "sub" 7%nat no_options with_test (world serving)).

Definition unsubscribed : World :=
  snd (unsubscribe "test" "sub" 7%nat with_test subscribed).

(** topic.publish goes the way of the topic's publisher. *)
Global Instance direct : TopicPublish := {|
  topic_publish := fun t _ s =>
    answer s (if member t (known_topics s) then (Fulfilled "1", s)
              else (Rejected (RpcError "NOT_FOUND"), s));
|}.

Definition with_credentials : PubSubConfig :=
  {| projectId := Some "quizizz-dev"; file := None;
     credentials := Some {| client_email := "svc@quizizz-dev"; private_key := "secret" |};
     ack_deadline_seconds := None; has_ack_deadline_seconds := false |}.

Definition three_twenty : SubscribeOptions :=
  {| maxInProgress := Some 3; ackDeadlineSeconds := Some 20 |}.

(** A service that knows the topic test and its subscription sub, before
    and after one subscription object was handed out. *)
Definition listening : State :=
  {| reachable := true; known_topics := ["test"]; known_subscriptions := ["sub"];
     objects := 0 |}.

Definition serving_one : State :=
  {| reachable := true; known_topics := ["test"]; known_subscriptions := [];
     objects := 1 |}.

Definition listening_one : State :=
  {| reachable := true; known_topics := ["test"]; known_subscriptions := ["sub"];
     objects := 1 |}.

Definition listening_two : State :=
  {| reachable := true; known_topics := ["test"]; known_subscriptions := ["sub"];
     objects := 2 |}.

(** The facade and the world after createTopic('test') on a ready facade. *)
Definition created : PubSub := snd (fst (createTopic "test" ready (world up))).

Definition created_world : World := snd (createTopic "test" ready (world up)).

(** The plain configuration of the example. *)
Definition plain : PubSubConfig :=
  {| projectId := Some "quizizz-dev"; file := None; credentials := None;
     ack_deadline_seconds := None; has_ack_deadline_seconds := false |}.

(** The same with the key ack_deadline_seconds there and undefined. *)
Definition undefined_deadline : PubSubConfig :=
  {| projectId := Some "quizizz-dev"; file := None; credentials := None;
     ack_deadline_seconds := None; has_ack_deadline_seconds := true |}.

(** A facade built with the key there and undefined, after init and
    createTopic('test'). *)
Definition with_test_undefined : PubSub :=
  set_topics (<["test" := "test"]> ∅)
    (set_client options (constructor "pubsub" 0%nat undefined_deadline)).

Definition a1 : Message :=
  {| msg_id := "1"; msg_data := "{" +:+ dq +:+ "a" +:+ dq +:+ ":1}";
     msg_has_nack := true; msg_has_skip := false |}.

(** A message whose payload has a fraction, and one that is not JSON. *)
Definition half : Message :=
  {| msg_id := "2"; msg_data := "{" +:+ dq +:+ "a" +:+ dq +:+ ":1.5}";
     msg_has_nack := false; msg_has_skip := true |}.

Definition bad : Message :=
  {| msg_id := "3"; msg_data := "{bad json";
     msg_has_nack := false; msg_has_skip := false |}.


End Memory.

(** ** Values that JSON carries faithfully *)

(** An integer that is written in full: at most 21 digits. *)
Definition plain_integer (z : Z) : bool :=
  (String.length (Json.integer_digits z) <=? 21)%nat.

(** Significant digits: digits, at least one, the first and the last of
    them not zero. *)
Definition significant_digits (d : string) : bool :=
  Json.all_digits d
  && match d with
     | String c _ => negb (Ascii.eqb c "0")
     | EmptyString => false
     end
  && String.eqb (Json.strip_trailing d) d.

(** The decimal 0.d * 10^n is the name of a 64-bit number: reading it
    gives the number whose name it is. *)
Definition is_name (d : string) (n : Z) : bool :=
  match Json.normalize d n with
  | Json.Name d' n' => String.eqb d' d && (n' =? n)
  | _ => false
  end.

(** An integer that is a number: zero, or written in full and a name. *)
Definition integer_number (z : Z) : bool :=
  (z =? 0)
  || (plain_integer z
      && is_name (Json.strip_trailing (Json.integer_digits z))
           (Z.of_nat (String.length (Json.integer_digits z)))).

(** A number that is not written in full, under its name. *)
Definition proper_decimal (d : string) (n : Z) : bool :=
  significant_digits d
  && negb ((Z.of_nat (String.length d) <=? n) && (n <=? 21)).

(** A JavaScript value that JSON carries, as it is kept here: every
    number is finite and under its name, every string and key is
    well-formed text, and an object has each key once. *)
Fixpoint serializable (v : json) : bool :=
  match v with
  | JNull | JBool _ => true
  | JNum z => integer_number z
  | JDec _ d n => proper_decimal d n && is_name d n
  | JInf _ => false
  | JStr s => Utf8.well_formed s
  | JArr xs => forallb serializable xs
  | JObj kvs =>
      bool_decide (NoDup (map fst kvs))
      && forallb (fun kv => Utf8.well_formed (fst kv) && serializable (snd kv)) kvs
  end.

(** [meta] as publish declares it: [{ replyTo?: string; correlationId?: string }]. *)
Definition meta_shape (m : json) : bool :=
  match m with
  | JObj kvs =>
      bool_decide (NoDup (map fst kvs))
      && forallb (fun kv => (String.eqb (fst kv) "replyTo" || String.eqb (fst kv) "correlationId")
                            && match snd kv with
                               | JStr s => Utf8.well_formed s
                               | _ => false
                               end) kvs
  | _ => false
  end.

(** The number of parser steps a value needs. *)
Fixpoint size (v : json) : nat :=
  match v with
  | JArr xs => S (list_sum (map (fun x => S (size x)) xs))
  | JObj kvs => S (list_sum (map (fun kv => S (size (snd kv))) kvs))
  | _ => 1
  end.

(** ** Shapes of JSON text used in stating what the parser does *)

(** No digit comes next. *)
Definition no_digit_ahead (rest : string) : Prop :=
  match rest with
  | EmptyString => True
  | String c _ => Json.digit_of_char c = None
  end.

(** What follows cannot be taken for more of a number. *)
Definition number_ends (s : string) : bool :=
  match s with
  | EmptyString => true
  | String c _ =>
      negb (Ascii.eqb c "." || Ascii.eqb c "e" || Ascii.eqb c "E" || Json.is_digit c)
  end.

(** Bytes below 0x80 only. *)
Fixpoint ascii_only (s : string) : bool :=
  match s with
  | EmptyString => true
  | String c r => (N_of_ascii c <? 128)%N && ascii_only r
  end.

(** The text starts like a number. *)
Definition starts_number (s : string) : bool :=
  match s with
  | String c _ =>
      Ascii.eqb c "-" || match Json.digit_of_char c with Some _ => true | None => false end
  | EmptyString => false
  end.

(** A text that opens a value: no white space in front, and not the end
    of an enclosing array or object. *)
Definition opens (s : string) : bool :=
  match s with
  | String c _ => negb (Json.is_ws c) && negb (Ascii.eqb c "]") && negb (Ascii.eqb c "}")
  | EmptyString => false
  end.

(** [v], written out and followed by [rest], reads back as [v] with
    [rest] left over, given fuel for its size. *)
Definition reads (v : json) : Prop :=
  forall fuel rest,
    (size v <= fuel)%nat -> serializable v = true -> number_ends rest = true ->
    Json.parse_value fuel (Json.stringify v +:+ rest) = Some (v, rest).

(** One member of an object as stringify writes it. *)
Definition member_text (kv : string * json) : string :=
  Json.quote (fst kv) +:+ ":" +:+ Json.stringify (snd kv).

(** * Properties *)

(** ** JSON: parsing what stringify wrote *)

Module JsonFacts.
Import Json.

Lemma str_app_cons (x : ascii) (a b : string) : String x a +:+ b = String x (a +:+ b).
Proof. reflexivity. Qed.

Lemma str_app_nil_l (b : string) : "" +:+ b = b.
Proof. reflexivity. Qed.

Lemma str_app_assoc (a b c : string) : (a +:+ b) +:+ c = a +:+ (b +:+ c).
Proof.
  induction a as [|x a IH]; [reflexivity|].
  rewrite !str_app_cons. now f_equal.
Qed.

Lemma str_app_nil_r (a : string) : a +:+ "" = a.
Proof.
  induction a as [|x a IH]; [reflexivity|].
  rewrite str_app_cons. now f_equal.
Qed.

Lemma str_length_app (a b : string) :
  String.length (a +:+ b) = (String.length a + String.length b)%nat.
Proof.
  induction a as [|x a IH]; [reflexivity|].
  rewrite str_app_cons. simpl. now rewrite IH.
Qed.

(** An escaped character reads back as the character. *)
Lemma parse_chars_escape_char (c : ascii) (rest : string) :
  parse_chars (escape_char c +:+ rest)
  = '(str, fin) ← parse_chars rest; Some (String c str, fin).
Proof.
  destruct c as [[] [] [] [] [] [] [] []]; reflexivity.
Qed.

Lemma parse_chars_escape (s rest : string) :
  parse_chars (escape s +:+ String dquote rest) = Some (s, rest).
Proof.
  induction s as [|c s IH].
  - reflexivity.
  - cbn [escape]. rewrite str_app_assoc, parse_chars_escape_char, IH. reflexivity.
Qed.

(** *** Strings of digits *)

Lemma is_digit_no_digit (c : ascii) : is_digit c = false <-> digit_of_char c = None.
Proof. unfold is_digit. destruct (digit_of_char c); split; congruence. Qed.

Lemma number_ends_no_digit (rest : string) :
  number_ends rest = true -> no_digit_ahead rest.
Proof.
  destruct rest as [|c r]; simpl; [trivial|].
  intros H. apply is_digit_no_digit.
  destruct (is_digit c); [|reflexivity].
  rewrite !orb_true_r in H. discriminate.
Qed.

Lemma all_digits_app (a b : string) :
  all_digits (a +:+ b) = all_digits a && all_digits b.
Proof.
  induction a as [|x a IH]; [reflexivity|].
  rewrite str_app_cons. cbn [all_digits]. now rewrite IH, andb_assoc.
Qed.

Lemma all_digits_zeros (n : nat) : all_digits (zeros n) = true.
Proof. induction n as [|n IH]; [reflexivity | exact IH]. Qed.

Lemma length_zeros (n : nat) : String.length (zeros n) = n.
Proof. induction n as [|n IH]; [reflexivity | simpl; now rewrite IH]. Qed.

Lemma all_digits_string_of_uint (d : uint) : all_digits (NilEmpty.string_of_uint d) = true.
Proof. induction d; cbn [NilEmpty.string_of_uint all_digits]; auto. Qed.

Lemma span_digits_app (a b : string) :
  all_digits a = true -> no_digit_ahead b -> span_digits (a +:+ b) = (a, b).
Proof.
  intros Ha Hb. induction a as [|x a IH].
  - rewrite str_app_nil_l. destruct b as [|c r]; [reflexivity|].
    cbn [span_digits]. simpl in Hb. apply is_digit_no_digit in Hb. now rewrite Hb.
  - cbn [all_digits] in Ha. apply andb_true_iff in Ha as [Hx Ha].
    rewrite str_app_cons. cbn [span_digits]. now rewrite Hx, IH.
Qed.

Lemma str_take_drop (n : nat) (s : string) : str_take n s +:+ str_drop n s = s.
Proof.
  revert s. induction n as [|n IH]; intros [|c r]; try reflexivity.
  cbn [str_take str_drop]. rewrite str_app_cons. now rewrite IH.
Qed.

Lemma length_str_take (n : nat) (s : string) :
  (n <= String.length s)%nat -> String.length (str_take n s) = n.
Proof.
  revert s. induction n as [|n IH]; intros [|c r] H; try reflexivity.
  - simpl in H. lia.
  - simpl in *. rewrite IH; lia.
Qed.

Lemma length_str_drop (n : nat) (s : string) :
  String.length (str_drop n s) = (String.length s - n)%nat.
Proof.
  revert s. induction n as [|n IH]; intros [|c r]; try reflexivity.
  simpl. apply IH.
Qed.

Lemma all_digits_take_drop (n : nat) (s : string) :
  all_digits s = true -> all_digits (str_take n s) = true /\ all_digits (str_drop n s) = true.
Proof.
  intros H. rewrite <- (str_take_drop n s), all_digits_app in H.
  now apply andb_true_iff in H.
Qed.

Lemma strip_leading_nonzero (c : ascii) (r : string) :
  Ascii.eqb c "0" = false -> strip_leading (String c r) = String c r.
Proof. intros H. cbn [strip_leading]. now rewrite H. Qed.

Lemma strip_leading_zeros (n : nat) (s : string) :
  strip_leading (zeros n +:+ s) = strip_leading s.
Proof. induction n as [|n IH]; [reflexivity | exact IH]. Qed.

Lemma length_strip_trailing (s : string) :
  (String.length (strip_trailing s) <= String.length s)%nat.
Proof.
  induction s as [|c r IH]; [reflexivity|].
  cbn [strip_trailing]. destruct (strip_trailing r) as [|c' r'].
  - destruct (Ascii.eqb c "0"); simpl; lia.
  - simpl in *. lia.
Qed.

(** Taking the zeros off the end and putting as many back changes
    nothing. *)
Lemma strip_trailing_pad (s : string) :
  strip_trailing s +:+ zeros (String.length s - String.length (strip_trailing s)) = s.
Proof.
  induction s as [|c r IH]; [reflexivity|].
  pose proof (length_strip_trailing r) as Hle.
  cbn [strip_trailing]. destruct (strip_trailing r) as [|c' r'] eqn:Ht.
  - rewrite str_app_nil_l in IH. simpl String.length in IH. rewrite Nat.sub_0_r in IH.
    destruct (Ascii.eqb_spec c "0") as [->|_].
    + rewrite str_app_nil_l.
      replace (String.length (String "0" r) - String.length "")%nat
        with (S (String.length r)) by (simpl; lia).
      cbn [zeros]. now rewrite IH.
    + rewrite str_app_cons, str_app_nil_l.
      replace (String.length (String c r) - String.length (String c ""))%nat
        with (String.length r) by (simpl; lia).
      now rewrite IH.
  - rewrite str_app_cons. f_equal.
    replace (String.length (String c r) - String.length (String c (String c' r')))%nat
      with (String.length r - String.length (String c' r'))%nat by (simpl; lia).
    exact IH.
Qed.

Lemma strip_trailing_head (c : ascii) (r : string) :
  Ascii.eqb c "0" = false -> exists r', strip_trailing (String c r) = String c r'.
Proof.
  intros H. cbn [strip_trailing]. rewrite H.
  destruct (strip_trailing r); eauto.
Qed.

Lemma scan_digits_string_of_uint (d : uint) (rest : string) :
  no_digit_ahead rest ->
  scan_digits (NilEmpty.string_of_uint d +:+ rest) = (d, rest).
Proof.
  intros Hrest.
  induction d; cbn [NilEmpty.string_of_uint];
    try (rewrite str_app_cons; simpl; rewrite IHd; reflexivity).
  rewrite str_app_nil_l. destruct rest as [|c r]; simpl in *; [reflexivity|].
  now rewrite Hrest.
Qed.

Lemma digits_value_string_of_uint (d : uint) :
  digits_value (NilEmpty.string_of_uint d) = Z.of_uint d.
Proof.
  unfold digits_value.
  pose proof (scan_digits_string_of_uint d "" I) as H.
  rewrite str_app_nil_r in H. now rewrite H.
Qed.

(** The digits of a positive number do not start with a zero. *)
Lemma to_uint_head (p : positive) : forall d, Pos.to_uint p <> D0 d.
Proof.
  intros d Hd.
  assert (Hn : unorm (Pos.to_uint p) = Pos.to_uint p).
  { rewrite <- DecimalPos.Unsigned.to_of, DecimalPos.Unsigned.of_to. reflexivity. }
  rewrite Hd, unorm_D0 in Hn.
  destruct (uint_eq_dec d Nil) as [->|Hnil].
  - apply (DecimalPos.Unsigned.to_uint_nonzero p). exact Hd.
  - pose proof (nb_digits_unorm d Hnil) as Hle.
    rewrite Hn in Hle. simpl in Hle. lia.
Qed.

Lemma string_of_pos (p : positive) :
  NilZero.string_of_uint (Pos.to_uint p) = NilEmpty.string_of_uint (Pos.to_uint p).
Proof.
  pose proof (DecimalPos.Unsigned.to_uint_nonnil p) as Hnil.
  unfold NilZero.string_of_uint. destruct (Pos.to_uint p); congruence.
Qed.

Lemma of_uint_to_uint (p : positive) : Z.of_uint (Pos.to_uint p) = Z.pos p.
Proof. unfold Z.of_uint. now rewrite DecimalPos.Unsigned.of_to. Qed.

(** The digits of a positive integer: digits, the first of them not
    zero, which write that integer. *)
Lemma digits_of_pos (p : positive) :
  exists c r,
    NilZero.string_of_uint (Pos.to_uint p) = String c r
    /\ Ascii.eqb c "0" = false
    /\ all_digits (String c r) = true
    /\ digits_value (String c r) = Z.pos p.
Proof.
  rewrite string_of_pos.
  pose proof (DecimalPos.Unsigned.to_uint_nonnil p) as Hnil.
  pose proof (to_uint_head p) as Hhead.
  pose proof (all_digits_string_of_uint (Pos.to_uint p)) as Hall.
  pose proof (digits_value_string_of_uint (Pos.to_uint p)) as Hval.
  rewrite of_uint_to_uint in Hval.
  destruct (Pos.to_uint p) as [|u|u|u|u|u|u|u|u|u|u]; try congruence;
    try (exfalso; eapply Hhead; reflexivity);
    cbn [NilEmpty.string_of_uint] in *; eexists _, _; (split; [reflexivity|]);
    (split; [reflexivity|]); split; assumption.
Qed.

(** *** Numbers *)

Lemma digit_not_minus (c : ascii) : is_digit c = true -> Ascii.eqb c "-" = false.
Proof. destruct (Ascii.eqb_spec c "-") as [->|_]; [discriminate | reflexivity]. Qed.

Lemma digit_not_zero_is_digit (c : ascii) (r : string) :
  all_digits (String c r) = true -> is_digit c = true /\ all_digits r = true.
Proof. cbn [all_digits]. intros H. now apply andb_true_iff in H. Qed.

Lemma scan_frac_none (rest : string) :
  number_ends rest = true -> scan_frac rest = Some ("", rest).
Proof.
  destruct rest as [|c r]; [reflexivity|]. unfold number_ends, scan_frac.
  destruct (Ascii.eqb c "."); [discriminate | reflexivity].
Qed.

Lemma scan_exp_none (rest : string) :
  number_ends rest = true -> scan_exp rest = Some (0, rest).
Proof.
  destruct rest as [|c r]; [reflexivity|]. unfold number_ends, scan_exp.
  destruct (Ascii.eqb c "."), (Ascii.eqb c "e"), (Ascii.eqb c "E");
    try discriminate; reflexivity.
Qed.

Lemma scan_int_digits (c : ascii) (r rest : string) :
  Ascii.eqb c "0" = false -> all_digits (String c r) = true -> no_digit_ahead rest ->
  scan_int (String c r +:+ rest) = Some (String c r, rest).
Proof.
  intros Hc Hall Hrest. unfold scan_int. rewrite str_app_cons, Hc.
  destruct (digit_not_zero_is_digit c r Hall) as [Hd _]. rewrite Hd.
  rewrite <- str_app_cons. now rewrite span_digits_app.
Qed.

Lemma scan_frac_digits (f rest : string) :
  all_digits f = true -> f <> "" -> no_digit_ahead rest ->
  scan_frac (String "." (f +:+ rest)) = Some (f, rest).
Proof.
  intros Hall Hf Hrest. unfold scan_frac. cbn [Ascii.eqb Bool.eqb].
  rewrite span_digits_app by assumption.
  destruct f; [congruence | reflexivity].
Qed.

(** The digits of a natural number: digits, at least one, which write
    that number. *)
Lemma natural_text (a : Z) :
  0 <= a ->
  all_digits (number_to_string a) = true
  /\ number_to_string a <> ""
  /\ digits_value (number_to_string a) = a.
Proof.
  intros Ha. destruct a as [|p|p]; [| |lia].
  - repeat split. discriminate.
  - unfold number_to_string. cbn [Z.to_int NilZero.string_of_int].
    destruct (digits_of_pos p) as (c & r & -> & _ & Hall & Hval).
    repeat split; [exact Hall | discriminate | exact Hval].
Qed.

Lemma scan_exp_text (e : Z) (rest : string) :
  no_digit_ahead rest -> scan_exp (exponent_text e +:+ rest) = Some (e, rest).
Proof.
  intros Hrest. unfold exponent_text, scan_exp. rewrite str_app_cons.
  cbn [Ascii.eqb Bool.eqb orb].
  destruct (natural_text (Z.abs e) (Z.abs_nonneg e)) as (Hall & Hne & Hval).
  destruct (Z.leb_spec 0 e) as [Hpos|Hneg];
    rewrite str_app_assoc, str_app_cons, str_app_nil_l;
    cbn [Ascii.eqb Bool.eqb];
    rewrite span_digits_app by assumption;
    (destruct (number_to_string (Z.abs e)) eqn:Hx; [congruence|]);
    rewrite Hval; do 2 f_equal; lia.
Qed.

Lemma scan_frac_exponent (e : Z) (rest : string) :
  scan_frac (exponent_text e +:+ rest) = Some ("", exponent_text e +:+ rest).
Proof. reflexivity. Qed.

Lemma parse_number_sign (negative : bool) (c : ascii) (r : string) :
  Ascii.eqb c "-" = false ->
  parse_number ((if negative then "-" else "") +:+ String c r)
  = '(int, r1) ← scan_int (String c r);
    '(frac, r2) ← scan_frac r1;
    '(exp, r3) ← scan_exp r2;
    Some (number_of negative int frac exp, r3).
Proof.
  intros Hc. unfold parse_number. destruct negative.
  - rewrite str_app_cons, str_app_nil_l. reflexivity.
  - rewrite str_app_nil_l. now rewrite Hc.
Qed.

Lemma significant_digits_inv (d : string) :
  significant_digits d = true ->
  all_digits d = true /\ strip_trailing d = d
  /\ exists c r, d = String c r /\ Ascii.eqb c "0" = false.
Proof.
  unfold significant_digits. intros H.
  apply andb_true_iff in H as [H Ht]. apply andb_true_iff in H as [Hall Hhead].
  apply String.eqb_eq in Ht. split; [exact Hall|]. split; [exact Ht|].
  destruct d as [|c r]; [discriminate|]. exists c, r. split; [reflexivity|].
  now apply negb_true_iff in Hhead.
Qed.

Lemma is_name_inv (d : string) (n : Z) :
  is_name d n = true -> normalize d n = Name d n.
Proof.
  unfold is_name. destruct (normalize d n) as [| |d' n']; try discriminate.
  intros H. apply andb_true_iff in H as [Hd Hn].
  apply String.eqb_eq in Hd. apply Z.eqb_eq in Hn. now subst.
Qed.

Lemma number_of_proper (negative : bool) (int frac : string) (exp : Z) (d : string) (n : Z) :
  proper_decimal d n = true -> is_name d n = true ->
  strip_leading (int +:+ frac) = d ->
  Z.of_nat (String.length int)
  - Z.of_nat (String.length (int +:+ frac) - String.length d) + exp = n ->
  number_of negative int frac exp = JDec negative d n.
Proof.
  unfold proper_decimal. intros H Hname Hlead Hn.
  apply andb_true_iff in H as [Hsig Hform].
  destruct (significant_digits_inv d Hsig) as (_ & Htrail & c & r & Hd & _).
  unfold number_of. rewrite Hlead, Htrail, Hn, (is_name_inv d n Hname).
  unfold number_named.
  apply negb_true_iff in Hform. rewrite Hform. now rewrite Hd.
Qed.

(** A number that is not written in full reads back under its name. *)
Lemma parse_number_text (negative : bool) (d : string) (n : Z) (rest : string) :
  proper_decimal d n = true -> is_name d n = true -> number_ends rest = true ->
  parse_number (number_text negative d n +:+ rest) = Some (JDec negative d n, rest).
Proof.
  intros Hproper Hname Hends.
  pose proof (number_ends_no_digit rest Hends) as Hrest.
  pose proof Hproper as H. unfold proper_decimal in H.
  apply andb_true_iff in H as [Hsig Hform]. apply negb_true_iff in Hform.
  destruct (significant_digits_inv d Hsig) as (Hall & Htrail & c & r & Hd & Hc).
  destruct (digit_not_zero_is_digit c r ltac:(now rewrite <- Hd)) as [Hdc Hr].
  unfold number_text. rewrite Hform, str_app_assoc.
  destruct ((0 <? n) && (n <=? 21)) eqn:Hfixed;
    [|destruct ((-6 <? n) && (n <=? 0)) eqn:Hsmall].
  - (* digits, a point, digits *)
    apply andb_true_iff in Hfixed as [H0 H21].
    apply Z.ltb_lt in H0. apply Z.leb_le in H21.
    assert (Hk : n < Z.of_nat (String.length d)).
    { apply andb_false_iff in Hform as [Hf|Hf];
        [apply Z.leb_gt in Hf; lia | apply Z.leb_gt in Hf; lia]. }
    destruct (Z.to_nat n) as [|m] eqn:Hm; [lia|].
    assert (Hlen : (S m < String.length d)%nat) by lia.
    destruct (all_digits_take_drop (S m) d Hall) as [Htake Hdrop].
    assert (Hdropne : str_drop (S m) d <> "").
    { intros Hnil. pose proof (length_str_drop (S m) d) as Hl.
      rewrite Hnil in Hl. simpl in Hl. lia. }
    assert (Hhead : str_take (S m) d = String c (str_take m r)) by now rewrite Hd.
    rewrite Hhead in *. rewrite !str_app_assoc, str_app_cons.
    rewrite parse_number_sign by now apply digit_not_minus.
    rewrite <- str_app_cons.
    rewrite scan_int_digits; [|assumption|assumption|reflexivity].
    cbn [mbind option_bind]. rewrite str_app_cons, str_app_nil_l.
    rewrite scan_frac_digits by assumption.
    cbn [mbind option_bind]. rewrite scan_exp_none by assumption.
    cbn [mbind option_bind]. f_equal. f_equal.
    apply number_of_proper; [exact Hproper|exact Hname| |].
    + rewrite <- Hhead, str_take_drop, Hd. now apply strip_leading_nonzero.
    + rewrite <- Hhead, str_take_drop, length_str_take by lia. lia.
  - (* zero, a point, zeros, digits *)
    apply andb_true_iff in Hsmall as [H6 H0].
    apply Z.ltb_lt in H6. apply Z.leb_le in H0.
    change ("0." +:+ zeros (Z.to_nat (- n)) +:+ d)
      with (String "0" (String "." (zeros (Z.to_nat (- n)) +:+ d))).
    rewrite !str_app_cons.
    rewrite parse_number_sign by reflexivity.
    cbn [scan_int Ascii.eqb Bool.eqb mbind option_bind].
    rewrite scan_frac_digits; [| | |assumption].
    + cbn [mbind option_bind]. rewrite scan_exp_none by assumption.
      cbn [mbind option_bind]. f_equal. f_equal.
      apply number_of_proper; [exact Hproper|exact Hname| |].
      * change ("0" +:+ zeros (Z.to_nat (- n)) +:+ d)
          with (zeros (S (Z.to_nat (- n))) +:+ d).
        rewrite strip_leading_zeros, Hd. now apply strip_leading_nonzero.
      * rewrite !str_length_app, length_zeros. simpl String.length. lia.
    + now rewrite all_digits_app, all_digits_zeros, Hall.
    + intros Hnil. apply (f_equal String.length) in Hnil.
      rewrite str_length_app, Hd in Hnil. simpl in Hnil. lia.
  - (* one digit, the others after a point, the exponent *)
    rewrite Hd. rewrite Hd in Hproper, Hname.
    assert (Hexp : scan_exp (exponent_text (n - 1) +:+ rest) = Some (n - 1, rest))
      by now apply scan_exp_text.
    destruct r as [|c' r'].
    + rewrite str_app_cons. rewrite parse_number_sign by now apply digit_not_minus.
      unfold scan_int. rewrite Hc, Hdc.
      change (span_digits (String c (exponent_text (n - 1) +:+ rest)))
        with (span_digits (String c "" +:+ (exponent_text (n - 1) +:+ rest))).
      rewrite span_digits_app; [|now rewrite <- Hd|reflexivity].
      cbn [mbind option_bind]. rewrite scan_frac_exponent.
      cbn [mbind option_bind]. rewrite Hexp. cbn [mbind option_bind]. f_equal. f_equal.
      apply number_of_proper; [exact Hproper|exact Hname| |].
      * now apply strip_leading_nonzero.
      * simpl String.length. lia.
    + rewrite str_app_cons. rewrite parse_number_sign by now apply digit_not_minus.
      unfold scan_int. rewrite Hc, Hdc.
      change (span_digits (String c (("." +:+ String c' r' +:+ exponent_text (n - 1)) +:+ rest)))
        with (span_digits (String c "" +:+ String "." ((String c' r' +:+ exponent_text (n - 1)) +:+ rest))).
      rewrite span_digits_app; [| |reflexivity].
      2:{ cbn [all_digits]. now rewrite Hdc. }
      cbn [mbind option_bind]. rewrite str_app_assoc.
      rewrite scan_frac_digits; [|assumption|discriminate|reflexivity].
      cbn [mbind option_bind]. rewrite Hexp. cbn [mbind option_bind]. f_equal. f_equal.
      apply number_of_proper; [exact Hproper|exact Hname| |].
      * now apply strip_leading_nonzero.
      * simpl String.length. rewrite Nat.sub_diag. lia.
Qed.

(** An integer that is a number reads back. *)
Lemma parse_integer_text (z : Z) (rest : string) :
  integer_number z = true -> number_ends rest = true ->
  parse_number (integer_text z +:+ rest) = Some (JNum z, rest).
Proof.
  intros Hnumber Hends.
  pose proof (number_ends_no_digit rest Hends) as Hrest.
  destruct (Z.eqb_spec z 0) as [->|Hz].
  { change (integer_text 0) with "0". rewrite str_app_cons, str_app_nil_l.
    unfold parse_number. cbn [Ascii.eqb Bool.eqb scan_int mbind option_bind].
    rewrite scan_frac_none by assumption. cbn [mbind option_bind].
    rewrite scan_exp_none by assumption. reflexivity. }
  unfold integer_number in Hnumber. apply orb_true_iff in Hnumber as [H0|Hnumber];
    [apply Z.eqb_eq in H0; congruence|].
  apply andb_true_iff in Hnumber as [Hplain Hname].
  unfold integer_text. unfold plain_integer in Hplain. rewrite Hplain.
  apply Nat.leb_le in Hplain. apply is_name_inv in Hname.
  assert (Hbody : forall p negative,
             Z.abs z = Z.pos p ->
             ('(int, r1) ← scan_int (NilZero.string_of_uint (Pos.to_uint p) +:+ rest);
              '(frac, r2) ← scan_frac r1;
              '(exp, r3) ← scan_exp r2;
              Some (number_of negative int frac exp, r3))
             = Some (JNum (if negative then - Z.pos p else Z.pos p), rest)).
  { intros p negative Habs.
    unfold integer_digits, number_to_string in Hplain, Hname. rewrite Habs in Hplain, Hname.
    cbn [Z.to_int NilZero.string_of_int] in Hplain, Hname.
    destruct (digits_of_pos p) as (c & r & Hd & Hc & Hall & Hval).
    rewrite Hd in *.
    rewrite scan_int_digits by assumption. cbn [mbind option_bind].
    rewrite scan_frac_none by assumption. cbn [mbind option_bind].
    rewrite scan_exp_none by assumption. cbn [mbind option_bind]. f_equal. f_equal.
    unfold number_of. rewrite str_app_nil_r, strip_leading_nonzero by assumption.
    destruct (strip_trailing_head c r Hc) as [r' Hst].
    pose proof (strip_trailing_pad (String c r)) as Hpad.
    pose proof (length_strip_trailing (String c r)) as Hle.
    rewrite Hst in *. rewrite Nat.sub_diag.
    replace (Z.of_nat (String.length (String c r)) - Z.of_nat 0 + 0)
      with (Z.of_nat (String.length (String c r))) by lia.
    rewrite Hname. unfold number_named.
    replace (Z.to_nat (Z.of_nat (String.length (String c r))
                       - Z.of_nat (String.length (String c r'))))
      with (String.length (String c r) - String.length (String c r'))%nat by lia.
    rewrite Hpad, Hval.
    replace ((Z.of_nat (String.length (String c r'))
              <=? Z.of_nat (String.length (String c r)))
             && (Z.of_nat (String.length (String c r)) <=? 21))
      with true; [reflexivity|].
    symmetry. apply andb_true_iff. split; apply Z.leb_le; lia. }
  destruct z as [|p|p]; [congruence| |].
  - unfold number_to_string. cbn [Z.to_int NilZero.string_of_int].
    destruct (digits_of_pos p) as (c & r & Hd & _ & Hall & _).
    destruct (digit_not_zero_is_digit c r Hall) as [Hdc _].
    pose proof (Hbody p false eq_refl) as Hb. rewrite Hd in *.
    etransitivity;
      [exact (parse_number_sign false c (r +:+ rest) (digit_not_minus c Hdc))|].
    rewrite <- str_app_cons. exact Hb.
  - unfold number_to_string. cbn [Z.to_int NilZero.string_of_int].
    destruct (digits_of_pos p) as (c & r & Hd & _ & Hall & _).
    destruct (digit_not_zero_is_digit c r Hall) as [Hdc _].
    pose proof (Hbody p true eq_refl) as Hb. rewrite Hd in *.
    etransitivity;
      [exact (parse_number_sign true c (r +:+ rest) (digit_not_minus c Hdc))|].
    rewrite <- str_app_cons. exact Hb.
Qed.

(** *** Values *)

Lemma starts_number_to_string (z : Z) (rest : string) :
  starts_number (number_to_string z +:+ rest) = true.
Proof.
  unfold number_to_string.
  destruct z as [|p|p]; cbn [Z.to_int NilZero.string_of_int]; try reflexivity.
  rewrite string_of_pos.
  pose proof (DecimalPos.Unsigned.to_uint_nonnil p) as Hnil.
  destruct (Pos.to_uint p); try congruence; reflexivity.
Qed.

Lemma starts_number_digit (c : ascii) (r : string) :
  is_digit c = true -> starts_number (String c r) = true.
Proof. unfold starts_number, is_digit. intros H. rewrite orb_true_iff. right. exact H. Qed.

Lemma starts_number_text (negative : bool) (d : string) (n : Z) (rest : string) :
  significant_digits d = true ->
  starts_number (number_text negative d n +:+ rest) = true.
Proof.
  intros Hsig.
  destruct (significant_digits_inv d Hsig) as (Hall & _ & c & r & Hd & _).
  destruct (digit_not_zero_is_digit c r ltac:(now rewrite <- Hd)) as [Hdc _].
  unfold number_text. destruct negative; [reflexivity|]. rewrite str_app_nil_l.
  destruct ((Z.of_nat (String.length d) <=? n) && (n <=? 21));
    [|destruct ((0 <? n) && (n <=? 21)) eqn:Hfixed;
      [|destruct ((-6 <? n) && (n <=? 0))]].
  - rewrite Hd, !str_app_cons. now apply starts_number_digit.
  - apply andb_true_iff in Hfixed as [H0 _]. apply Z.ltb_lt in H0.
    destruct (Z.to_nat n) as [|m] eqn:Hm; [lia|].
    rewrite Hd. cbn [str_take]. rewrite !str_app_cons. now apply starts_number_digit.
  - reflexivity.
  - rewrite Hd. destruct r; rewrite !str_app_cons; now apply starts_number_digit.
Qed.

Lemma starts_number_opens (s : string) : starts_number s = true -> opens s = true.
Proof.
  destruct s as [|c r]; [discriminate|].
  destruct c as [[] [] [] [] [] [] [] []]; simpl; (discriminate || reflexivity).
Qed.

Lemma value_of_number elements members (s : string) :
  starts_number s = true ->
  value_of elements members s = parse_number s.
Proof.
  destruct s as [|c r]; [discriminate|].
  destruct c as [[] [] [] [] [] [] [] []]; intros H; try discriminate H; reflexivity.
Qed.

Lemma starts_number_stringify (v : json) (rest : string) :
  serializable v = true ->
  match v with JNum _ | JDec _ _ _ => starts_number (stringify v +:+ rest) = true | _ => True end.
Proof.
  destruct v as [|b|z|neg d n|neg|s|xs|kvs]; try exact (fun _ => I);
    cbn [serializable stringify].
  - unfold integer_number. intros H. apply orb_true_iff in H as [H|H].
    + apply Z.eqb_eq in H. subst z. reflexivity.
    + apply andb_true_iff in H as [Hplain _].
      unfold integer_text. unfold plain_integer in Hplain. rewrite Hplain.
      apply starts_number_to_string.
  - unfold proper_decimal. intros H. apply andb_true_iff in H as [H _].
    apply andb_true_iff in H as [Hsig _].
    now apply starts_number_text.
Qed.

Lemma opens_stringify (v : json) (rest : string) :
  serializable v = true -> opens (stringify v +:+ rest) = true.
Proof.
  intros Hser. pose proof (starts_number_stringify v rest Hser) as Hnum.
  destruct v as [|[]|z|neg d n|neg|s|xs|kvs]; try reflexivity;
    try discriminate Hser; now apply starts_number_opens.
Qed.

Lemma skip_ws_opens (s : string) : opens s = true -> skip_ws s = s.
Proof.
  destruct s as [|c r]; [discriminate|]. simpl.
  destruct (is_ws c); [discriminate | reflexivity].
Qed.

Lemma value_of_array elements members (r : string) :
  opens r = true ->
  value_of elements members (String "[" r) = '(xs, r'') ← elements r; Some (JArr xs, r'').
Proof.
  intros Hr. unfold value_of. cbn [skip_ws is_ws Ascii.eqb orb].
  simpl. rewrite (skip_ws_opens r Hr).
  destruct r as [|c r']; [discriminate|]. simpl in Hr.
  destruct (Ascii.eqb c "]"); [now rewrite andb_false_r in Hr | reflexivity].
Qed.

Lemma value_of_object elements members (r : string) :
  opens r = true ->
  value_of elements members (String "{" r)
  = '(ms, r'') ← members r; Some (JObj (obj_of_members ms), r'').
Proof.
  intros Hr. unfold value_of. simpl. rewrite (skip_ws_opens r Hr).
  destruct r as [|c r']; [discriminate|]. simpl in Hr.
  destruct (Ascii.eqb c "}"); [now rewrite !andb_false_r in Hr | reflexivity].
Qed.

(** Induction on a value with the hypothesis for every element of an
    array and every member of an object. *)
Lemma json_nested_ind (P : json -> Prop) :
  P JNull -> (forall b, P (JBool b)) -> (forall z, P (JNum z)) ->
  (forall negative d n, P (JDec negative d n)) -> (forall negative, P (JInf negative)) ->
  (forall s, P (JStr s)) ->
  (forall xs, Forall P xs -> P (JArr xs)) ->
  (forall kvs, Forall (fun kv => P (snd kv)) kvs -> P (JObj kvs)) ->
  forall v, P v.
Proof.
  intros HNull HBool HNum HDec HInf HStr HArr HObj.
  fix IH 1. intros [|b|z|negative d n|negative|s|xs|kvs].
  - exact HNull.
  - apply HBool.
  - apply HNum.
  - apply HDec.
  - apply HInf.
  - apply HStr.
  - apply HArr. induction xs as [|x xs IHxs]; constructor; [apply IH | exact IHxs].
  - apply HObj. induction kvs as [|[k x] kvs IHkvs]; constructor; [apply IH | exact IHkvs].
Qed.

Lemma commas_cons (p q : string) (rest : list string) :
  commas (p :: q :: rest) = p +:+ "," +:+ commas (q :: rest).
Proof. reflexivity. Qed.

Lemma parse_elements_commas (xs : list json) :
  Forall reads xs -> xs <> [] ->
  forall fuel rest,
    (list_sum (map (fun x => S (size x)) xs) <= fuel)%nat ->
    forallb serializable xs = true ->
    parse_elements fuel (commas (map stringify xs) +:+ String "]" rest) = Some (xs, rest).
Proof.
  induction 1 as [|x xs Hx Hxs IH]; [congruence|].
  intros _ fuel rest Hfuel Hser.
  cbn [map list_sum forallb] in Hfuel, Hser.
  apply andb_true_iff in Hser as [Hserx Hserxs].
  destruct fuel as [|fuel]; [simpl in Hfuel; lia|].
  cbn [parse_elements]. unfold elements_of.
  destruct xs as [|y ys].
  - cbn [map commas].
    rewrite (Hx fuel (String "]" rest)); [reflexivity | simpl in *; lia | assumption | reflexivity].
  - cbn [map]. rewrite commas_cons, !str_app_assoc, str_app_cons, str_app_nil_l.
    rewrite (Hx fuel (String "," _)); [ | simpl in *; lia | assumption | reflexivity].
    cbn [mbind option_bind skip_ws is_ws Ascii.eqb]. simpl.
    change (stringify y :: map stringify ys) with (map stringify (y :: ys)).
    rewrite IH; [reflexivity | congruence | simpl in *; lia | assumption].
Qed.

Lemma members_of_member value members (k : string) (tail : string) :
  members_of value members (quote k +:+ ":" +:+ tail)
  = '(v, r) ← value tail;
    match skip_ws r with
    | String c r' =>
        if Ascii.eqb c "," then '(ms, r'') ← members r'; Some ((k, v) :: ms, r'')
        else if Ascii.eqb c "}" then Some ([(k, v)], r')
        else None
    | EmptyString => None
    end.
Proof.
  unfold members_of, quote. rewrite str_app_cons. simpl.
  rewrite !str_app_assoc, str_app_cons, str_app_nil_l, parse_chars_escape.
  reflexivity.
Qed.

Lemma parse_members_commas (kvs : list (string * json)) :
  Forall (fun kv => reads (snd kv)) kvs -> kvs <> [] ->
  forall fuel rest,
    (list_sum (map (fun kv => S (size (snd kv))) kvs) <= fuel)%nat ->
    forallb (fun kv => Utf8.well_formed (fst kv) && serializable (snd kv)) kvs = true ->
    parse_members fuel (commas (map member_text kvs) +:+ String "}" rest) = Some (kvs, rest).
Proof.
  induction 1 as [|[k x] kvs Hx Hkvs IH]; [congruence|].
  intros _ fuel rest Hfuel Hser.
  cbn [map list_sum forallb fst snd] in Hfuel, Hser. cbn [snd] in Hx.
  apply andb_true_iff in Hser as [Hserx Hserxs].
  apply andb_true_iff in Hserx as [_ Hserx].
  destruct fuel as [|fuel]; [simpl in Hfuel; lia|].
  cbn [parse_members].
  destruct kvs as [|y ys].
  - cbn [map commas]. unfold member_text at 1. cbn [fst snd].
    rewrite !str_app_assoc, members_of_member.
    rewrite (Hx fuel (String "}" rest)); [reflexivity | simpl in *; lia | assumption | reflexivity].
  - cbn [map]. rewrite commas_cons. unfold member_text at 1. cbn [fst snd].
    rewrite !str_app_assoc, members_of_member, str_app_cons, str_app_nil_l.
    rewrite (Hx fuel (String "," _)); [ | simpl in *; lia | assumption | reflexivity].
    cbn [mbind option_bind skip_ws is_ws Ascii.eqb]. simpl.
    change (member_text y :: map member_text ys) with (map member_text (y :: ys)).
    rewrite IH; [reflexivity | congruence | simpl in *; lia | assumption].
Qed.

(** Setting a key that is not there yet adds it at the end, so members
    with distinct keys come out as they went in. *)
Lemma obj_set_fresh (k : string) (v : json) (o : list (string * json)) :
  k ∉ map fst o -> obj_set k v o = o ++ [(k, v)].
Proof.
  induction o as [|[k' v'] o IH]; intros Hk; [reflexivity|].
  cbn [map fst] in Hk. apply not_elem_of_cons in Hk as [Hne Hk].
  cbn [obj_set]. destruct (String.eqb_spec k k') as [->|_]; [congruence|].
  now rewrite IH.
Qed.

Lemma fold_obj_set (ms o : list (string * json)) :
  NoDup (map fst (o ++ ms)) ->
  fold_left (fun o kv => obj_set (fst kv) (snd kv) o) ms o = o ++ ms.
Proof.
  revert o. induction ms as [|[k v] ms IH]; intros o Hnd; cbn [fold_left].
  - now rewrite List.app_nil_r.
  - cbn [fst snd]. rewrite obj_set_fresh.
    + rewrite IH; rewrite <- List.app_assoc; [reflexivity | exact Hnd].
    + rewrite map_app in Hnd. cbn [map fst] in Hnd.
      apply NoDup_app in Hnd as (_ & Hdisj & _).
      intros Hin. apply (Hdisj k Hin). left.
Qed.

Lemma obj_of_members_distinct (ms : list (string * json)) :
  NoDup (map fst ms) -> obj_of_members ms = ms.
Proof. intros Hnd. unfold obj_of_members. now rewrite fold_obj_set. Qed.

(** Every serializable value reads back, whatever follows it that can
    follow a value. *)
Lemma parse_value_stringify (v : json) : reads v.
Proof.
  induction v as [|b|z|negative d n|negative|s|xs IH|kvs IH] using json_nested_ind;
    intros fuel rest Hfuel Hser Hrest;
    (destruct fuel as [|fuel]; [simpl in Hfuel; lia|]); cbn [parse_value].
  - reflexivity.
  - destruct b; reflexivity.
  - rewrite value_of_number by exact (starts_number_stringify (JNum z) rest Hser).
    cbn [stringify]. now apply parse_integer_text.
  - rewrite value_of_number by exact (starts_number_stringify (JDec negative d n) rest Hser).
    cbn [stringify serializable] in *. apply andb_true_iff in Hser as [Hproper Hname].
    now apply parse_number_text.
  - discriminate Hser.
  - cbn [stringify]. unfold value_of, quote. rewrite str_app_cons. simpl.
    rewrite str_app_assoc, str_app_cons, str_app_nil_l, parse_chars_escape. reflexivity.
  - cbn [stringify]. rewrite !str_app_assoc, str_app_cons, str_app_nil_l, str_app_cons, str_app_nil_l.
    destruct xs as [|x xs]; [reflexivity|].
    cbn [serializable] in Hser.
    rewrite value_of_array.
    + rewrite parse_elements_commas; try (assumption || congruence || reflexivity).
      cbn [size] in Hfuel. lia.
    + cbn [forallb] in Hser. apply andb_true_iff in Hser as [Hx _].
      destruct xs; cbn [map]; [cbn [commas] | rewrite commas_cons, !str_app_assoc];
        now apply opens_stringify.
  - cbn [stringify]. rewrite !str_app_assoc, str_app_cons, str_app_nil_l, str_app_cons, str_app_nil_l.
    cbn [serializable] in Hser. apply andb_true_iff in Hser as [Hnd Hser].
    apply bool_decide_eq_true in Hnd.
    destruct kvs as [|kv kvs]; [reflexivity|].
    rewrite value_of_object.
    + change (fun kv : string * json => quote (fst kv) +:+ ":" +:+ stringify (snd kv))
        with member_text.
      rewrite parse_members_commas; try (assumption || congruence).
      * cbn [mbind option_bind]. simpl. now rewrite obj_of_members_distinct.
      * cbn [size] in Hfuel. lia.
    + destruct kvs; cbn [map]; [cbn [commas] | rewrite commas_cons, !str_app_assoc];
        reflexivity.
Qed.

(** *** Enough fuel: a value is no larger than its text *)

Lemma list_sum_commas {A} (f : A -> string) (g : A -> nat) (xs : list A) :
  Forall (fun x => (g x <= String.length (f x))%nat) xs ->
  (list_sum (map (fun x => S (g x)) xs) <= String.length (commas (map f xs)) + 1)%nat.
Proof.
  induction 1 as [|x xs Hx Hxs IH]; [simpl; lia|].
  destruct xs as [|y ys].
  - simpl. lia.
  - cbn [map] in *. rewrite commas_cons, !str_length_app.
    remember (commas (f y :: map f ys)) as tail.
    remember (map (fun x => S (g x)) ys) as sizes.
    change (String.length ",") with 1%nat.
    simpl list_sum in *. lia.
Qed.

Lemma length_starts_number (s : string) :
  starts_number (s +:+ "") = true -> (1 <= String.length s)%nat.
Proof. rewrite str_app_nil_r. destruct s; [discriminate | simpl; lia]. Qed.

Lemma size_le_length (v : json) :
  serializable v = true -> (size v <= String.length (stringify v))%nat.
Proof.
  induction v as [|b|z|negative d n|negative|s|xs IH|kvs IH] using json_nested_ind;
    intros Hser; cbn [size].
  - simpl. lia.
  - destruct b; simpl; lia.
  - apply length_starts_number. exact (starts_number_stringify (JNum z) "" Hser).
  - apply length_starts_number. exact (starts_number_stringify (JDec negative d n) "" Hser).
  - discriminate Hser.
  - cbn [stringify]. unfold quote. simpl. lia.
  - cbn [serializable] in Hser. cbn [stringify].
    assert (H : (list_sum (map (fun x => S (size x)) xs)
                 <= String.length (commas (map stringify xs)) + 1)%nat).
    { apply list_sum_commas. rewrite List.forallb_forall in Hser.
      rewrite List.Forall_forall in IH. apply List.Forall_forall. intros x Hx.
      apply IH; [exact Hx|]. now apply Hser. }
    rewrite !str_length_app. simpl String.length. lia.
  - cbn [serializable] in Hser. apply andb_true_iff in Hser as [_ Hser]. cbn [stringify].
    assert (H : (list_sum (map (fun kv => S (size (snd kv))) kvs)
                 <= String.length (commas (map member_text kvs)) + 1)%nat).
    { apply list_sum_commas. rewrite List.forallb_forall in Hser.
      rewrite List.Forall_forall in IH. apply List.Forall_forall. intros [k x] Hx.
      unfold member_text. cbn [fst snd]. rewrite !str_length_app.
      pose proof (Hser (k, x) Hx) as Hkx.
      cbn [fst snd] in Hkx. apply andb_true_iff in Hkx as [_ Hkx].
      pose proof (IH (k, x) Hx Hkx) as Hle. cbn [snd] in Hle. lia. }
    rewrite !str_length_app. simpl String.length. unfold member_text in H. lia.
Qed.

(** JSON.parse(JSON.stringify(v)) is v. *)
Lemma parse_stringify (v : json) :
  serializable v = true -> parse (stringify v) = Some v.
Proof.
  intros Hser. unfold parse.
  pose proof (parse_value_stringify v (S (String.length (stringify v))) ""
                ltac:(pose proof (size_le_length v Hser); lia) Hser eq_refl) as H.
  rewrite str_app_nil_r in H. rewrite H. reflexivity.
Qed.

(** *** Well-formed text *)

Lemma run_app (st : Utf8.expect) (a b : string) :
  Utf8.run st (a +:+ b)
  = match Utf8.run st a with
    | Some st' => Utf8.run st' b
    | None => None
    end.
Proof.
  revert st. induction a as [|x a IH]; intros st; [reflexivity|].
  rewrite str_app_cons. cbn [Utf8.run].
  destruct (Utf8.step st x); [apply IH | reflexivity].
Qed.

(** The decoder leaves well-formed text as it is. *)
Lemma decode_from_well_formed (s : string) :
  forall st pending,
    Utf8.run st s = Some Utf8.Boundary ->
    (st = Utf8.Boundary -> pending = "") ->
    Utf8.decode_from st pending s = pending +:+ s.
Proof.
  induction s as [|b rest IH]; intros st pending Hrun Hpending.
  - cbn [Utf8.run] in Hrun. assert (Hst : st = Utf8.Boundary) by congruence.
    subst st. rewrite (Hpending eq_refl). reflexivity.
  - cbn [Utf8.run] in Hrun. cbn [Utf8.decode_from].
    destruct (Utf8.step st b) as [st'|]; [|discriminate].
    destruct st'; try (rewrite (IH _ _ Hrun) by discriminate;
                       now rewrite str_app_assoc, str_app_cons, str_app_nil_l).
    rewrite (IH _ _ Hrun) by reflexivity. now rewrite str_app_nil_l.
Qed.

Lemma decode_well_formed (s : string) :
  Utf8.well_formed s = true -> Utf8.decode s = s.
Proof.
  unfold Utf8.well_formed, Utf8.decode. intros H.
  destruct (Utf8.run Utf8.Boundary s) as [[]|] eqn:Hrun; try discriminate.
  now rewrite decode_from_well_formed.
Qed.

Lemma run_ascii_only (s x : string) :
  ascii_only s = true -> Utf8.run Utf8.Boundary (s +:+ x) = Utf8.run Utf8.Boundary x.
Proof.
  induction s as [|c s IH]; intros H; [reflexivity|].
  cbn [ascii_only] in H. apply andb_true_iff in H as [Hc Hs].
  rewrite str_app_cons. cbn [Utf8.run Utf8.step]. unfold Utf8.between.
  apply N.ltb_lt in Hc.
  replace ((0 <=? N_of_ascii c)%N && (N_of_ascii c <=? 127)%N) with true.
  - now apply IH.
  - symmetry. apply andb_true_iff. split; apply N.leb_le; lia.
Qed.

Lemma ascii_only_app (a b : string) :
  ascii_only (a +:+ b) = ascii_only a && ascii_only b.
Proof.
  induction a as [|x a IH]; [reflexivity|].
  rewrite str_app_cons. cbn [ascii_only]. now rewrite IH, andb_assoc.
Qed.

Lemma is_digit_ascii (c : ascii) : is_digit c = true -> (N_of_ascii c <? 128)%N = true.
Proof.
  intros H. destruct c as [[] [] [] [] [] [] [] []]; try reflexivity; discriminate H.
Qed.

Lemma all_digits_ascii_only (s : string) : all_digits s = true -> ascii_only s = true.
Proof.
  induction s as [|c s IH]; [reflexivity|]. cbn [all_digits ascii_only].
  intros H. apply andb_true_iff in H as [Hc Hs].
  now rewrite (is_digit_ascii c Hc), IH.
Qed.

Lemma ascii_only_number_to_string (z : Z) : ascii_only (number_to_string z) = true.
Proof.
  destruct z as [|p|p]; [reflexivity| |];
    unfold number_to_string; cbn [Z.to_int NilZero.string_of_int];
    destruct (digits_of_pos p) as (c & r & -> & _ & Hall & _).
  - now apply all_digits_ascii_only.
  - change (String "-" (String c r)) with ("-" +:+ String c r).
    rewrite ascii_only_app. now rewrite (all_digits_ascii_only _ Hall).
Qed.

Lemma ascii_only_number_text (negative : bool) (d : string) (n : Z) :
  all_digits d = true -> ascii_only (number_text negative d n) = true.
Proof.
  intros Hall. pose proof (all_digits_ascii_only d Hall) as Hd.
  unfold number_text. rewrite ascii_only_app.
  apply andb_true_iff. split; [now destruct negative|].
  destruct ((Z.of_nat (String.length d) <=? n) && (n <=? 21));
    [|destruct ((0 <? n) && (n <=? 21)); [|destruct ((-6 <? n) && (n <=? 0))]].
  - rewrite ascii_only_app, Hd. apply all_digits_ascii_only, all_digits_zeros.
  - destruct (all_digits_take_drop (Z.to_nat n) d Hall) as [Ht Hr].
    rewrite !ascii_only_app, (all_digits_ascii_only _ Ht), (all_digits_ascii_only _ Hr).
    reflexivity.
  - change ("0." +:+ zeros (Z.to_nat (- n)) +:+ d)
      with (String "0" (String "." (zeros (Z.to_nat (- n)) +:+ d))).
    cbn [ascii_only]. rewrite ascii_only_app, Hd.
    now rewrite (all_digits_ascii_only _ (all_digits_zeros _)).
  - assert (He : ascii_only (exponent_text (n - 1)) = true).
    { unfold exponent_text. cbn [ascii_only]. rewrite ascii_only_app.
      rewrite ascii_only_number_to_string. now destruct (0 <=? n - 1). }
    destruct d as [|c [|c' r']]; [reflexivity| |];
      cbn [ascii_only] in Hd |- *; apply andb_true_iff in Hd as [Hc Hr]; rewrite Hc.
    + exact He.
    + rewrite !ascii_only_app. cbn [ascii_only andb] in *.
      apply andb_true_iff in Hr as [Hc' Hr]. now rewrite Hc', Hr, He.
Qed.

Lemma ascii_only_integer_text (z : Z) : ascii_only (integer_text z) = true.
Proof.
  unfold integer_text. destruct (_ <=? _)%nat; [apply ascii_only_number_to_string|].
  apply ascii_only_number_text.
  assert (Hall : all_digits (integer_digits z) = true).
  { unfold integer_digits. apply (natural_text (Z.abs z) (Z.abs_nonneg z)). }
  pose proof (strip_trailing_pad (integer_digits z)) as Hpad.
  rewrite <- Hpad, all_digits_app in Hall. now apply andb_true_iff in Hall.
Qed.

(** A byte that continues well-formed text does so when escaped. *)
Lemma run_escape_char (st st' : Utf8.expect) (c : ascii) (x : string) :
  Utf8.step st c = Some st' ->
  Utf8.run st (escape_char c +:+ x) = Utf8.run st' x.
Proof.
  intros H.
  destruct c as [[] [] [] [] [] [] [] []]; destruct st;
    vm_compute in H; try discriminate H; injection H as <-; reflexivity.
Qed.

Lemma run_escape (s x : string) :
  forall st,
    Utf8.run st s = Some Utf8.Boundary ->
    Utf8.run st (escape s +:+ x) = Utf8.run Utf8.Boundary x.
Proof.
  induction s as [|c s IH]; intros st Hrun.
  - cbn [Utf8.run] in Hrun. assert (Hst : st = Utf8.Boundary) by congruence.
    subst st. reflexivity.
  - cbn [Utf8.run] in Hrun. cbn [escape]. rewrite str_app_assoc.
    destruct (Utf8.step st c) as [st'|] eqn:Hstep; [|discriminate].
    rewrite (run_escape_char st st' c _ Hstep). now apply IH.
Qed.

Lemma run_quote (s x : string) :
  Utf8.well_formed s = true ->
  Utf8.run Utf8.Boundary (quote s +:+ x) = Utf8.run Utf8.Boundary x.
Proof.
  unfold Utf8.well_formed. intros H.
  destruct (Utf8.run Utf8.Boundary s) as [[]|] eqn:Hrun; try discriminate.
  unfold quote. rewrite str_app_cons.
  change (Utf8.run Utf8.Boundary (String dquote ((escape s +:+ String dquote "") +:+ x)))
    with (Utf8.run Utf8.Boundary ((escape s +:+ String dquote "") +:+ x)).
  rewrite str_app_assoc, (run_escape s _ Utf8.Boundary Hrun). reflexivity.
Qed.

Lemma run_commas {A} (f : A -> string) (xs : list A) (x : string) :
  Forall (fun y => forall x, Utf8.run Utf8.Boundary (f y +:+ x) = Utf8.run Utf8.Boundary x) xs ->
  Utf8.run Utf8.Boundary (commas (map f xs) +:+ x) = Utf8.run Utf8.Boundary x.
Proof.
  induction 1 as [|y ys Hy Hys IH]; [reflexivity|].
  destruct ys as [|y' ys'].
  - cbn [map commas]. apply Hy.
  - cbn [map]. rewrite commas_cons, !str_app_assoc, Hy.
    rewrite str_app_cons, str_app_nil_l. exact IH.
Qed.

(** What stringify writes for a serializable value is well-formed text. *)
Lemma run_stringify (v : json) :
  serializable v = true ->
  forall x, Utf8.run Utf8.Boundary (stringify v +:+ x) = Utf8.run Utf8.Boundary x.
Proof.
  induction v as [|b|z|negative d n|negative|s|xs IH|kvs IH] using json_nested_ind;
    intros Hser x; cbn [stringify serializable] in *.
  - reflexivity.
  - destruct b; reflexivity.
  - apply run_ascii_only, ascii_only_integer_text.
  - apply run_ascii_only, ascii_only_number_text.
    unfold proper_decimal in Hser. apply andb_true_iff in Hser as [Hsig _].
    apply andb_true_iff in Hsig as [Hsig _].
    apply (significant_digits_inv d Hsig).
  - discriminate Hser.
  - now apply run_quote.
  - rewrite !str_app_assoc, str_app_cons, str_app_nil_l.
    change (Utf8.run Utf8.Boundary (String "[" ?t)) with (Utf8.run Utf8.Boundary t).
    rewrite run_commas; [reflexivity|].
    rewrite List.forallb_forall in Hser. rewrite List.Forall_forall in IH.
    apply List.Forall_forall. intros y Hy. apply IH; [exact Hy | now apply Hser].
  - apply andb_true_iff in Hser as [_ Hser].
    rewrite !str_app_assoc, str_app_cons, str_app_nil_l.
    change (Utf8.run Utf8.Boundary (String "{" ?t)) with (Utf8.run Utf8.Boundary t).
    rewrite run_commas; [reflexivity|].
    rewrite List.forallb_forall in Hser. rewrite List.Forall_forall in IH.
    apply List.Forall_forall. intros [k y] Hy z.
    pose proof (Hser (k, y) Hy) as Hky. cbn [fst snd] in *.
    apply andb_true_iff in Hky as [Hk Hyser].
    rewrite !str_app_assoc, (run_quote k _ Hk), str_app_cons, str_app_nil_l.
    change (Utf8.run Utf8.Boundary (String ":" ?t)) with (Utf8.run Utf8.Boundary t).
    exact (IH (k, y) Hy Hyser z).
Qed.

Lemma well_formed_stringify (v : json) :
  serializable v = true -> Utf8.well_formed (stringify v) = true.
Proof.
  intros Hser. unfold Utf8.well_formed.
  pose proof (run_stringify v Hser "") as H. rewrite str_app_nil_r in H.
  now rewrite H.
Qed.

(** The bytes of a serializable value decode and parse back to it. *)
Lemma parse_bytes (v : json) :
  serializable v = true ->
  parse (Buffer_toString (Buffer_from (stringify v))) = Some v.
Proof.
  intros Hser. unfold Buffer_toString, Buffer_from.
  rewrite decode_well_formed by now apply well_formed_stringify.
  now apply parse_stringify.
Qed.

End JsonFacts.

(** ** The facade *)

Section FacadeFacts.
Context `{core : PubSubCore} `{parser : SafelyParseJson}.

(** Running a method body one step at a time. *)
Ltac step :=
  cbv [bind this ret throw await log success error emit request
       update_this update_world registered client_dot_topic discard
       promise_catch on removeListener new_closure];
  cbn [service emitted listeners closures unhandled calls
       name emitter config client topics
       set_client set_topics set_service add_emitted set_listeners
       set_closures add_unhandled add_call has_error_listener].

(** C2 (as the code has it). Construction checks nothing: for every
    configuration, with or without a project id, [new PubSub] returns an
    object and leaves the world as it was (no request is made). The object
    holds the name, the emitter and the given configuration, a null
    client and an empty registry. Its acknowledgement deadline is 300
    when the configuration has no key ack_deadline_seconds, and is what
    that key holds when it has one, undefined included. *)
Theorem new_PubSub_always_constructs
    (name_ : string) (emitter_ : EventEmitter) (cfg : PubSubConfig) (w : World) :
  exists p,
    new_PubSub name_ emitter_ cfg w = (Fulfilled p, w)
    /\ name p = name_
    /\ emitter p = emitter_
    /\ projectId (config p) = projectId cfg
    /\ file (config p) = file cfg
    /\ credentials (config p) = credentials cfg
    /\ ack_deadline_seconds (config p)
       = (if has_ack_deadline_seconds cfg then ack_deadline_seconds cfg else Some 300)
    /\ client p = None
    /\ topics p = ∅.
Proof.
  exists (constructor name_ emitter_ cfg). repeat split.
Qed.

(** C9. deleteTopic on a registered name whose upstream deletion succeeds:
    the deletion is requested, a log event is emitted, the entry for the
    name leaves the registry, every other entry stays, the result is
    true. *)
Theorem deleteTopic_removes_entry
    (p : PubSub) (w : World) (topicName : string) (t : Topic) (s' : Service) :
  topics p !! topicName = Some t ->
  topic_delete t (service w) = (Fulfilled tt, s') ->
  exists p' w',
    deleteTopic topicName p w = (Fulfilled true, p', w')
    /\ calls w' = calls w ++ [CallTopicDelete t]
    /\ service w' = s'
    /\ emitted w'
       = emitted w ++ [(emitter p, EvLog (name p) ("Deleted topic " +:+ topic_name t) None)]
    /\ topics p' = delete topicName (topics p)
    /\ topics p' !! topicName = None
    /\ (forall other, other <> topicName -> topics p' !! other = topics p !! other)
    /\ client p' = client p
    /\ config p' = config p.
Proof.
  intros Hreg Hdel. unfold deleteTopic. step. rewrite Hreg. cbn beta iota.
  rewrite Hdel. cbn beta iota.
  eexists _, _. split; [reflexivity|]. cbn.
  repeat split.
  - apply lookup_delete_eq.
  - intros other Hne. now apply lookup_delete_ne.
Qed.

(** C10. init sets the client only once listing topics has succeeded. If
    that request fails, init rejects with its error and the facade is
    exactly as before (a null client is still null); the only trace is
    the log event emitted at the start. If it succeeds, the new client is
    stored and the facade is returned. *)
Theorem init_sets_client_after_check (p : PubSub) (w : World) :
  let c := new_client {| opt_projectId := projectId (config p);
                         opt_keyFile := file (config p);
                         opt_credentials := credentials (config p) |} in
  (forall e s',
     getTopics c (service w) = (Rejected e, s') ->
     exists p' w',
       init p w = (Rejected e, p', w')
       /\ p' = p
       /\ client p' = client p
       /\ (client p = None -> client p' = None)
       /\ calls w' = calls w ++ [CallGetTopics c]
       /\ exists ev, emitted w' = emitted w ++ [(emitter p, ev)])
  /\ (forall s',
        getTopics c (service w) = (Fulfilled tt, s') ->
        exists p' w',
          init p w = (Fulfilled p', p', w')
          /\ client p' = Some c
          /\ topics p' = topics p).
Proof.
  intros c. subst c. split.
  - intros e s' Hfail. unfold init. step. rewrite Hfail. cbn beta iota.
    eexists _, _. split; [reflexivity|]. cbn. repeat split; eauto.
  - intros s' Hok. unfold init. step. rewrite Hok. cbn beta iota.
    eexists _, _. split; [reflexivity|]. cbn. auto.
Qed.

(** C1 (what the code does). publish with [handle = false] on a registered
    topic whose transport rejects: the method still resolves, to
    undefined; the rejected publish promise is let go, so the error
    reaches nobody through the returned promise and no error event is
    emitted. *)
Theorem publish_unhandled_hides_failure
    (p : PubSub) (w : World) (topicName : string) (content meta : option json)
    (t : Topic) (e : Error) (s' : Service) :
  topics p !! topicName = Some t ->
  publisher_publish t (Buffer_from (Json.stringify (envelope content (or_empty meta))))
    (service w) = (Rejected e, s') ->
  exists w',
    publish topicName content meta false p w = (Fulfilled tt, p, w')
    /\ unhandled w' = unhandled w ++ [e]
    /\ emitted w' = emitted w
    /\ calls w'
       = calls w ++ [CallPublish t (Buffer_from (Json.stringify (envelope content (or_empty meta))))].
Proof.
  intros Hreg Hfail. unfold publish. step. rewrite Hreg. cbn beta iota zeta.
  rewrite Hfail. cbn.
  eexists. split; [reflexivity|]. cbn. auto.
Qed.

(** C3 (as the code has it). publish with [handle = true] on a registered
    topic whose transport rejects catches the error and emits it as an
    error event carrying the topic name, the content and the meta. When
    the emitter has a listener for 'error' the event is taken, the
    method resolves, and the error is neither raised again nor left
    unhandled. When it has none, emit throws inside the catch handler
    and the method rejects, with the error of the emitter that holds the
    event; no event was taken. *)
Theorem publish_handled_reports_failure
    (p : PubSub) (w : World) (topicName : string) (content meta : option json)
    (t : Topic) (e : Error) (s' : Service) :
  topics p !! topicName = Some t ->
  publisher_publish t (Buffer_from (Json.stringify (envelope content (or_empty meta))))
    (service w) = (Rejected e, s') ->
  let payload := Some [("topicName", Some (JStr topicName));
                       ("message", content);
                       ("options", Some (or_empty meta))] in
  (has_error_listener w (emitter p) = true ->
   exists w',
     publish topicName content meta true p w = (Fulfilled tt, p, w')
     /\ emitted w' = emitted w ++ [(emitter p, EvError (name p) payload e)]
     /\ unhandled w' = unhandled w)
  /\ (has_error_listener w (emitter p) = false ->
      exists w',
        publish topicName content meta true p w
        = (Rejected (UnhandledError (name p) payload e), p, w')
        /\ emitted w' = emitted w
        /\ unhandled w' = unhandled w).
Proof.
  intros Hreg Hfail payload. subst payload.
  split; intros Hears; unfold publish; step; rewrite Hreg; cbn beta iota zeta;
    rewrite Hfail; cbn [negb]; step; rewrite Hears; cbn beta iota zeta;
    (eexists; split; [reflexivity|]); step; auto.
Qed.

(** C5 (as the code has it). publish does not check [meta]. On a
    registered topic, whatever fields [meta] has, whatever [handle] is
    and whatever the transport answers, exactly one publish request is
    made; its bytes are the JSON text of [{content, meta}] with [meta]
    as given, and when content and meta are serializable those bytes
    parse back to that very object, so replyTo, correlationId and every
    other field arrive unchanged. No outcome is a refusal of [meta]: the
    method resolves, except when a refused publish is handled on an
    emitter without a listener for 'error', where it rejects with the
    error of the emitter. *)
Theorem publish_passes_meta_through
    (p : PubSub) (w : World) (topicName : string) (content meta : json)
    (handle : bool) (t : Topic) :
  topics p !! topicName = Some t ->
  exists r w' payload,
    publish topicName (Some content) (Some meta) handle p w = (r, p, w')
    /\ calls w' = calls w ++ [CallPublish t payload]
    /\ payload = Buffer_from (Json.stringify (JObj [("content", content); ("meta", meta)]))
    /\ (serializable content = true -> serializable meta = true ->
        Json.parse (Buffer_toString payload)
        = Some (JObj [("content", content); ("meta", meta)]))
    /\ (r = Fulfilled tt
        \/ exists e s',
             handle = true
             /\ publisher_publish t payload (service w) = (Rejected e, s')
             /\ has_error_listener w (emitter p) = false
             /\ r = Rejected (UnhandledError (name p)
                                (Some [("topicName", Some (JStr topicName));
                                       ("message", Some content);
                                       ("options", Some meta)]) e)).
Proof.
  intros Hreg.
  assert (Hparse : serializable content = true -> serializable meta = true ->
                   Json.parse (Buffer_toString
                     (Buffer_from (Json.stringify (JObj [("content", content); ("meta", meta)]))))
                   = Some (JObj [("content", content); ("meta", meta)])).
  { intros Hc Hm. apply JsonFacts.parse_bytes. cbn [serializable map fst snd forallb].
    rewrite Hc, Hm. reflexivity. }
  unfold publish. step. rewrite Hreg. cbn beta iota zeta.
  cbn [or_empty envelope app].
  destruct (publisher_publish t _ (service w)) as [[id|e] s'] eqn:Hpub;
    destruct handle; cbn [negb]; step; cbn beta iota zeta.
  - eexists _, _, _. split; [reflexivity|]. step. auto.
  - eexists _, _, _. split; [reflexivity|]. step. auto.
  - destruct (has_error_listener w (emitter p)) eqn:Hears; cbn beta iota zeta;
      (eexists _, _, _; split; [reflexivity|]); step;
      (split; [reflexivity|]); (split; [reflexivity|]); (split; [exact Hparse|]).
    + now left.
    + right. exists e, s'. rewrite Hpub. auto.
  - eexists _, _, _. split; [reflexivity|]. step. auto.
Qed.



(** What a successful createTopic leaves behind. *)
Lemma createTopic_fulfilled
    (p p1 : PubSub) (w w1 : World) (topicName : string) (r : bool) :
  createTopic topicName p w = (Fulfilled r, p1, w1) ->
  r = true /\ client p1 = client p /\ name p1 = name p /\ emitter p1 = emitter p
  /\ exists h, topics p1 = <[topicName := h]> (topics p).
Proof.
  unfold createTopic. step.
  destruct (client p) as [c|] eqn:Hc; [|discriminate]. cbn beta iota zeta.
  destruct (topic_exists _ _) as [[[|]|e] s1]; cbn beta iota zeta; [| |discriminate].
  - intros [= <- <- <-]. cbn. split; [reflexivity|]. split; [exact Hc|]. now eauto.
  - destruct (topic_create _ _) as [[created|e] s2]; cbn beta iota zeta; [|discriminate].
    intros [= <- <- <-]. cbn. split; [reflexivity|]. split; [exact Hc|]. now eauto.
Qed.

(** C4. createTopic on a ready facade, with the service answering. If
    the topic exists upstream, the handle looked up through the client is
    registered and no creation is requested. If it does not, creation is
    requested and the handle it returns is registered. Both return true.
    Called again after a successful call, with the service now reporting
    the topic, it returns true, reports that the topic already exists,
    requests no creation and keeps the same names registered. *)
Theorem createTopic_idempotent
    (p : PubSub) (w : World) (c : Client) (topicName : string) :
  client p = Some c ->
  let t := client_topic c topicName in
  let creating := (emitter p, EvLog (name p) ("Creating topic " +:+ topicName) None) in
  let already :=
    (emitter p,
     EvSuccess (name p) ("Topic " +:+ dq +:+ topicName +:+ dq +:+ " already exists") None) in
  (forall s1,
     topic_exists t (service w) = (Fulfilled true, s1) ->
     exists p' w',
       createTopic topicName p w = (Fulfilled true, p', w')
       /\ topics p' = <[topicName := t]> (topics p)
       /\ calls w' = calls w ++ [CallTopicExists t]
       /\ emitted w' = emitted w ++ [creating; already])
  /\ (forall s1 s2 created,
        topic_exists t (service w) = (Fulfilled false, s1) ->
        topic_create t s1 = (Fulfilled created, s2) ->
        exists p' w',
          createTopic topicName p w = (Fulfilled true, p', w')
          /\ topics p' = <[topicName := created]> (topics p)
          /\ calls w' = calls w ++ [CallTopicExists t; CallTopicCreate t]
          /\ service w' = s2)
  /\ (forall r1 p1 w1 s3,
        createTopic topicName p w = (Fulfilled r1, p1, w1) ->
        topic_exists t (service w1) = (Fulfilled true, s3) ->
        exists p2 w2,
          createTopic topicName p1 w1 = (Fulfilled true, p2, w2)
          /\ r1 = true
          /\ calls w2 = calls w1 ++ [CallTopicExists t]
          /\ emitted w2 = emitted w1 ++ [creating; already]
          /\ topics p2 !! topicName = Some t
          /\ dom (topics p2) = dom (topics p1)
          /\ (forall other, other <> topicName -> topics p2 !! other = topics p1 !! other)).
Proof.
  intros Hc t creating already. subst t creating already. repeat split.
  - intros s1 Hex. unfold createTopic. step. rewrite Hc. cbn beta iota zeta.
    rewrite Hex. cbn beta iota zeta.
    eexists _, _. split; [reflexivity|]. step. rewrite <- !app_assoc. auto.
  - intros s1 s2 created Hex Hcr. unfold createTopic. step. rewrite Hc. cbn beta iota zeta.
    rewrite Hex. cbn beta iota zeta. step. rewrite Hcr. cbn beta iota zeta.
    eexists _, _. split; [reflexivity|]. step. rewrite <- !app_assoc. auto.
  - intros r1 p1 w1 s3 Hfirst Hex.
    pose proof Hfirst as Hinv. apply createTopic_fulfilled in Hinv as (-> & Hc1 & Hn & He & h & Hts).
    rewrite Hc in Hc1.
    unfold createTopic. step. rewrite Hc1. cbn beta iota zeta.
    rewrite Hex. cbn beta iota zeta.
    eexists _, _. split; [reflexivity|]. step. rewrite <- !app_assoc, Hn, He.
    repeat split.
    + apply lookup_insert_eq.
    + apply dom_insert_lookup_L. rewrite Hts, lookup_insert_eq. eauto.
    + intros other Hne. now apply lookup_insert_ne.
Qed.

(** removeListener leaves every registration of another function. *)
Lemma remove_last_keeps (r r0 : Registration) (ls : list Registration) :
  r <> r0 -> r ∈ ls -> r ∈ remove_last r0 ls.
Proof.
  intros Hne. induction ls as [|x rest IH]; intros Hin; [exact Hin|].
  cbn [remove_last].
  destruct (bool_decide (x = r0) && negb (bool_decide (r0 ∈ rest))) eqn:Hlast.
  - apply andb_true_iff in Hlast as [Hx _]. apply bool_decide_eq_true in Hx. subst x.
    apply elem_of_cons in Hin as [Heq|Hin]; [congruence | exact Hin].
  - apply elem_of_cons in Hin as [->|Hin]; [left | right; now apply IH].
Qed.

(** What a successful subscribe leaves behind: the facade as it was, and
    two more registrations, on one subscription object, of two new
    function objects. *)
Lemma subscribe_fulfilled
    (p p1 : PubSub) (w w1 : World) (topicName subName : string) (cb : Callback)
    (options : SubscribeOptions) (r : bool) :
  subscribe topicName subName cb options p w = (Fulfilled r, p1, w1) ->
  p1 = p
  /\ exists t sub f g,
       topics p !! topicName = Some t
       /\ listeners w1
          = listeners w
            ++ [{| reg_target := sub; reg_event := "message"; reg_fn := MessageListener f cb |};
                {| reg_target := sub; reg_event := "error";
                   reg_fn := ErrorListener g (topic_name t) (subscription_name sub) |}].
Proof.
  unfold subscribe. step.
  destruct (topics p !! topicName) as [t|] eqn:Hreg; [|discriminate]. cbn beta iota zeta.
  destruct (topic_subscription t subName _ (service w)) as [sub s0]. cbn beta iota zeta. step.
  destruct (subscription_exists sub s0) as [[[|]|e] s1]; cbn beta iota zeta; [| |discriminate].
  - intros [= <- <- <-]. split; [reflexivity|]. exists t, sub. eexists _, _.
    split; [reflexivity|]. step. now rewrite <- app_assoc.
  - step. destruct (subscription_create sub s1) as [[res|e] s2]; cbn beta iota zeta;
      [|discriminate].
    intros [= <- <- <-]. split; [reflexivity|]. exists t, res. eexists _, _.
    split; [reflexivity|]. step. now rewrite <- app_assoc.
Qed.

(** C8. After a successful subscribe, a message emitted on the
    subscription the listeners went on makes one call more than before:
    the caller's function, with an envelope in which ack is the
    message's ack bound to the message; nack and skip are the message's
    own methods bound to it when it has them and empty functions when it
    has not; data is the parse of the payload bytes decoded as text: the
    value JSON.parse gives when the text is JSON, and otherwise what the
    parsing helper falls back to, without throwing. A payload that
    JSON.stringify wrote for a value gives that value; the payload
    [{"a":1}] gives the object with a = 1, a fraction or an exponent in
    it is read as the number it writes, and [{bad json] is not JSON. *)
Theorem message_listener_envelope
    (p p1 : PubSub) (w w1 : World) (topicName subName : string) (cb : Callback)
    (options : SubscribeOptions) :
  subscribe topicName subName cb options p w = (Fulfilled true, p1, w1) ->
  let parsed msg :=
    match Json.parse (Buffer_toString (msg_data msg)) with
    | Some v => Some v
    | None => on_syntax_error (Buffer_toString (msg_data msg))
    end in
  exists sub,
    (forall msg,
       deliver w1 sub msg
       = deliver w sub msg
         ++ [WithEnvelope cb
               {| nack := if msg_has_nack msg then Bound Nack msg else Noop;
                  skip := if msg_has_skip msg then Bound Skip msg else Noop;
                  ack := Bound Ack msg;
                  data := parsed msg |}])
    /\ (forall msg v,
          serializable v = true ->
          msg_data msg = Buffer_from (Json.stringify v) ->
          parsed msg = Some v)
    /\ Json.parse (Buffer_toString (Buffer_from ("{" +:+ dq +:+ "a" +:+ dq +:+ ":1}")))
       = Some (JObj [("a", JNum 1)])
    /\ Json.parse (Buffer_toString (Buffer_from ("{" +:+ dq +:+ "a" +:+ dq +:+ ":1.5}")))
       = Some (JObj [("a", JDec false "15" 1)])
    /\ Json.parse (Buffer_toString (Buffer_from ("{" +:+ dq +:+ "a" +:+ dq +:+ ":1e3}")))
       = Some (JObj [("a", JNum 1000)])
    /\ Json.parse (Buffer_toString (Buffer_from "{bad json")) = None.
Proof.
  intros Hsub parsed.
  apply subscribe_fulfilled in Hsub as (_ & t & sub & f & g & _ & Hls).
  exists sub. split; [|split].
  - intros msg. unfold deliver. rewrite Hls, omap_app. f_equal.
    cbn [omap list_omap reg_target reg_event reg_fn].
    rewrite bool_decide_eq_true_2 by reflexivity. reflexivity.
  - intros msg v Hser Hmsg. subst parsed. cbn beta.
    now rewrite Hmsg, JsonFacts.parse_bytes.
  - repeat split; vm_compute; reflexivity.
Qed.

(** What unsubscribe does to the registrations, however it ends. *)
Lemma unsubscribe_listeners
    (p p2 : PubSub) (w w2 : World) (topicName subName : string) (cb : Callback)
    (t : Topic) (r : outcome bool) :
  topics p !! topicName = Some t ->
  unsubscribe topicName subName cb p w = (r, p2, w2) ->
  exists sub,
    listeners w2
    = remove_last {| reg_target := sub; reg_event := "message"; reg_fn := UserFn cb |}
        (listeners w).
Proof.
  intros Hreg. unfold unsubscribe. step. rewrite Hreg. cbn beta iota zeta.
  destruct (topic_subscription t subName None (service w)) as [sub s0]. cbn beta iota zeta.
  step.
  destruct (subscription_delete sub s0) as [[[]|e] s1]; cbn beta iota zeta;
    intros [= <- <- <-]; exists sub; reflexivity.
Qed.

(** C7 (what the code does). After subscribe with a callback and then
    unsubscribe with that same callback, on any client and with any
    outcome of the deletion, the function subscribe registered for
    messages is still registered on its subscription object, and a
    message emitted there still reaches the callback: the function
    registered is a wrapper around the callback, and unsubscribe asks for
    the removal of the callback itself. *)
Theorem unsubscribe_keeps_message_listener
    (p p1 p2 : PubSub) (w w1 w2 : World) (topicName subName : string) (cb : Callback)
    (options : SubscribeOptions) (r : outcome bool) :
  subscribe topicName subName cb options p w = (Fulfilled true, p1, w1) ->
  unsubscribe topicName subName cb p1 w1 = (r, p2, w2) ->
  exists sub f,
    let wrapper := {| reg_target := sub; reg_event := "message";
                      reg_fn := MessageListener f cb |} in
    wrapper ∈ listeners w1
    /\ wrapper ∈ listeners w2
    /\ (forall msg, message_listener cb msg ∈ deliver w2 sub msg).
Proof.
  intros Hsub Hunsub.
  apply subscribe_fulfilled in Hsub as (-> & t & sub & f & g & Hreg & Hls).
  destruct (unsubscribe_listeners _ _ _ _ _ _ _ _ _ Hreg Hunsub) as [sub2 Hls2].
  exists sub, f. cbn zeta.
  assert (Hin1 : {| reg_target := sub; reg_event := "message";
                    reg_fn := MessageListener f cb |} ∈ listeners w1).
  { rewrite Hls. apply elem_of_app. right. left. }
  assert (Hin2 : {| reg_target := sub; reg_event := "message";
                    reg_fn := MessageListener f cb |} ∈ listeners w2).
  { rewrite Hls2. apply remove_last_keeps; [congruence | exact Hin1]. }
  split; [exact Hin1|]. split; [exact Hin2|].
  intros msg. unfold deliver. apply list_elem_of_omap.
  eexists. split; [exact Hin2|]. cbn [reg_target reg_event reg_fn].
  rewrite bool_decide_eq_true_2 by reflexivity. reflexivity.
Qed.

End FacadeFacts.

(** ** The earlier implementation *)

Module LegacyFacts.
Section LegacyFacts.
Context `{core : PubSubCore}.

(** The earlier constructor refuses a configuration without a project id
    and accepts one with it. *)
Lemma new_PubSub_requires_projectId (cfg : Legacy.Config) :
  (Legacy.projectId cfg = None -> exists e, Legacy.new_PubSub cfg = inl e)
  /\ (forall id, Legacy.projectId cfg = Some id -> exists p, Legacy.new_PubSub cfg = inr p).
Proof.
  unfold Legacy.new_PubSub, Legacy.validate_config. split.
  - intros ->. eauto.
  - intros id ->. eauto.
Qed.

(** The earlier publish throws on a meta with a field it does not know. *)
Lemma publish_rejects_unknown_meta
    (p : Legacy.PubSub) (topicName : string) (content : option json)
    (kvs : list (string * json)) (s : Service) :
  forallb Legacy.known_meta_field kvs = false ->
  exists e, Legacy.publish_unhandled p topicName content (Some (JObj kvs)) s = (inl e, s).
Proof.
  intros H. unfold Legacy.publish_unhandled, Legacy.validate_meta, or_empty.
  rewrite H. eauto.
Qed.

(** The earlier publish, asked not to handle, returns the publish promise:
    a transport failure is the caller's to see. *)
Lemma publish_unhandled_returns_promise
    (p : Legacy.PubSub) (topicName : string) (content meta : option json)
    (t : Topic) (m : json) (e : Error) (s s' : Service) :
  Legacy.validate_meta (or_empty meta) = inr m ->
  Legacy.topics p !! topicName = Some t ->
  publisher_publish t (Json.stringify (envelope content m)) s = (Rejected e, s') ->
  Legacy.publish_unhandled p topicName content meta s = (inr (Rejected e), s').
Proof.
  intros Hm Hreg Hfail. unfold Legacy.publish_unhandled.
  now rewrite Hm, Hreg, Hfail.
Qed.

End LegacyFacts.
End LegacyFacts.

(** ** Runs on the in-memory service *)

Module Runs.
Import Memory.

(** C2, against the sentence of the specification: a configuration
    without a project id constructs. *)
Lemma new_PubSub_accepts_missing_projectId :
  exists p,
    new_PubSub "pubsub" 0%nat
      {| projectId := None; file := None; credentials := None;
         ack_deadline_seconds := None; has_ack_deadline_seconds := false |} (world up)
    = (Fulfilled p, world up)
    /\ projectId (config p) = None.
Proof. eexists. split; reflexivity. Qed.

(** C5, against the sentence of the specification: a meta with the field
    foo is published, field included. *)
Lemma publish_accepts_unknown_meta_field :
  meta_shape foo = false
  /\ publish "test" (Some x1) (Some foo) true with_test (world serving)
     = (Fulfilled tt, with_test,
        {| service := serving; emitted := []; listeners := []; closures := 0;
           unhandled := [];
           calls := [CallPublish "test"
                       (Json.stringify (JObj [("content", x1); ("meta", foo)]))];
           has_error_listener := fun _ => true |}).
Proof. split; [reflexivity|]. vm_compute. reflexivity. Qed.

(** C3, against the sentence of the specification: on an emitter that
    has no listener for 'error', publish with handling on a transport
    that refuses does not resolve. It rejects with the error the emitter
    throws, and no event is taken. *)
Lemma publish_handled_rejects_unheard :
  topics with_test !! "test" = Some "test"
  /\ publisher_publish "test"
       (Buffer_from (Json.stringify (envelope (Some x1) (or_empty None))))
       (service (unheard failing))
     = (Rejected (RpcError "UNAVAILABLE"), failing)
  /\ publish "test" (Some x1) None true with_test (unheard failing)
     = (Rejected (UnhandledError "pubsub"
                    (Some [("topicName", Some (JStr "test"));
                           ("message", Some x1);
                           ("options", Some (JObj []))])
                    (RpcError "UNAVAILABLE")),
        with_test,
        {| service := failing; emitted := []; listeners := []; closures := 0;
           unhandled := [];
           calls := [CallPublish "test"
                       (Json.stringify (JObj [("content", x1); ("meta", JObj [])]))];
           has_error_listener := fun _ => false |}).
Proof. split; [reflexivity|]. split; [reflexivity|]. vm_compute. reflexivity. Qed.

Lemma publish_unhandled_hides_failure_witness :
  topics with_test !! "test" = Some "test"
  /\ publisher_publish "test"
       (Buffer_from (Json.stringify (envelope (Some x1) (or_empty None))))
       (service (world failing))
     = (Rejected (RpcError "UNAVAILABLE"), failing)
  /\ exists w',
       publish "test" (Some x1) None false with_test (world failing)
       = (Fulfilled tt, with_test, w')
       /\ unhandled w' = [RpcError "UNAVAILABLE"]
       /\ emitted w' = [].
Proof.
  assert (H1 : topics with_test !! "test" = Some "test") by reflexivity.
  assert (H2 : publisher_publish "test"
                 (Buffer_from (Json.stringify (envelope (Some x1) (or_empty None))))
                 (service (world failing))
               = (Rejected (RpcError "UNAVAILABLE"), failing)) by reflexivity.
  split; [exact H1|]. split; [exact H2|].
  destruct (publish_unhandled_hides_failure with_test (world failing) "test"
              (Some x1) None "test" (RpcError "UNAVAILABLE") failing H1 H2)
    as (w' & Hrun & Hun & Hem & _).
  exists w'. split; [exact Hrun|]. split; [exact Hun | exact Hem].
Defined.

Lemma publish_handled_reports_failure_witness :
  topics with_test !! "test" = Some "test"
  /\ publisher_publish "test"
       (Buffer_from (Json.stringify (envelope (Some x1) (or_empty None))))
       (service (world failing))
     = (Rejected (RpcError "UNAVAILABLE"), failing)
  /\ has_error_listener (world failing) (emitter with_test) = true
  /\ exists w',
       publish "test" (Some x1) None true with_test (world failing)
       = (Fulfilled tt, with_test, w')
       /\ emitted w'
          = [(0%nat, EvError "pubsub"
                       (Some [("topicName", Some (JStr "test"));
                              ("message", Some x1);
                              ("options", Some (JObj []))])
                       (RpcError "UNAVAILABLE"))]
       /\ unhandled w' = [].
Proof.
  assert (H1 : topics with_test !! "test" = Some "test") by reflexivity.
  assert (H2 : publisher_publish "test"
                 (Buffer_from (Json.stringify (envelope (Some x1) (or_empty None))))
                 (service (world failing))
               = (Rejected (RpcError "UNAVAILABLE"), failing)) by reflexivity.
  split; [exact H1|]. split; [exact H2|]. split; [reflexivity|].
  destruct (publish_handled_reports_failure with_test (world failing) "test"
              (Some x1) None "test" (RpcError "UNAVAILABLE") failing H1 H2)
    as [Hheard _].
  destruct (Hheard eq_refl) as (w' & Hrun & Hem & Hun).
  exists w'. split; [exact Hrun|]. split; [exact Hem | exact Hun].
Defined.

Lemma createTopic_idempotent_witness :
  client ready = Some options
  /\ exists p1 w1 p2 w2,
       createTopic "test" ready (world up) = (Fulfilled true, p1, w1)
       /\ createTopic "test" p1 w1 = (Fulfilled true, p2, w2)
       /\ calls w1 = [CallTopicExists "test"; CallTopicCreate "test"]
       /\ calls w2 = calls w1 ++ [CallTopicExists "test"]
       /\ topics p2 !! "test" = Some "test".
Proof.
  assert (H : client ready = Some options) by reflexivity.
  split; [exact H|].
  destruct (createTopic_idempotent ready (world up) options "test" H)
    as (_ & Hcreate & Hagain).
  destruct (Hcreate up serving "test" eq_refl eq_refl) as (p1 & w1 & Hrun1 & _ & Hcalls1 & Hs1).
  assert (Hex : topic_exists (client_topic options "test") (service w1)
                = (Fulfilled true, serving)) by (rewrite Hs1; reflexivity).
  destruct (Hagain true p1 w1 serving Hrun1 Hex)
    as (p2 & w2 & Hrun2 & _ & Hcalls2 & _ & Hreg & _).
  exists p1, w1, p2, w2. repeat split; assumption.
Defined.

Lemma publish_passes_meta_through_witness :
  topics with_test !! "test" = Some "test"
  /\ exists r w' payload,
       publish "test" (Some x1) (Some foo) true with_test (world failing)
       = (r, with_test, w')
       /\ calls w' = [CallPublish "test" payload]
       /\ Json.parse (Buffer_toString payload) = Some (JObj [("content", x1); ("meta", foo)]).
Proof.
  assert (H : topics with_test !! "test" = Some "test") by reflexivity.
  split; [exact H|].
  destruct (publish_passes_meta_through with_test (world failing) "test" x1 foo true "test" H)
    as (r & w' & payload & Hrun & Hcalls & _ & Hparse & _).
  exists r, w', payload. split; [exact Hrun|]. split; [exact Hcalls|].
  exact (Hparse eq_refl eq_refl).
Defined.


Lemma unsubscribe_keeps_message_listener_witness :
  subscribe "test" "sub" 7%nat no_options with_test (world serving)
  = (Fulfilled true, with_test, subscribed)
  /\ unsubscribe "test" "sub" 7%nat with_test subscribed
     = (Fulfilled true, with_test, unsubscribed)
  /\ listeners unsubscribed = listeners subscribed
  /\ exists sub f,
       {| reg_target := sub; reg_event := "message"; reg_fn := MessageListener f 7%nat |}
       ∈ listeners unsubscribed
       /\ message_listener 7%nat a1 ∈ deliver unsubscribed sub a1.
Proof.
  assert (H1 : subscribe "test" "sub" 7%nat no_options with_test (world serving)
               = (Fulfilled true, with_test, subscribed)) by (vm_compute; reflexivity).
  assert (H2 : unsubscribe "test" "sub" 7%nat with_test subscribed
               = (Fulfilled true, with_test, unsubscribed)) by (vm_compute; reflexivity).
  split; [exact H1|]. split; [exact H2|]. split; [vm_compute; reflexivity|].
  destruct (unsubscribe_keeps_message_listener with_test with_test with_test
              (world serving) subscribed unsubscribed
              "test" "sub" 7%nat no_options (Fulfilled true) H1 H2)
    as (sub & f & _ & Hin & Hdeliver).
  exists sub, f. split; [exact Hin | apply Hdeliver].
Defined.

Lemma message_listener_envelope_witness :
  subscribe "test" "sub" 7%nat no_options with_test (world serving)
  = (Fulfilled true, with_test, subscribed)
  /\ exists sub,
       deliver subscribed sub a1
       = [WithEnvelope 7%nat
            {| nack := Bound Nack a1; skip := Noop; ack := Bound Ack a1;
               data := Some (JObj [("a", JNum 1)]) |}]
       /\ deliver subscribed sub half
          = [WithEnvelope 7%nat
               {| nack := Noop; skip := Bound Skip half; ack := Bound Ack half;
                  data := Some (JObj [("a", JDec false "15" 1)]) |}]
       /\ deliver subscribed sub bad
          = [WithEnvelope 7%nat
               {| nack := Noop; skip := Noop; ack := Bound Ack bad;
                  data := Some (JStr "{bad json") |}].
Proof.
  assert (H : subscribe "test" "sub" 7%nat no_options with_test (world serving)
              = (Fulfilled true, with_test, subscribed)) by (vm_compute; reflexivity).
  split; [exact H|].
  destruct (message_listener_envelope _ _ _ _ _ _ _ _ H) as (sub & Hdeliver & _).
  exists sub. split; [|split].
  - rewrite (Hdeliver a1). vm_compute. reflexivity.
  - rewrite (Hdeliver half). vm_compute. reflexivity.
  - rewrite (Hdeliver bad). vm_compute. reflexivity.
Defined.

Lemma deleteTopic_removes_entry_witness :
  topics with_test !! "test" = Some "test"
  /\ topic_delete "test" (service (world serving)) = (Fulfilled tt, up)
  /\ exists p' w',
       deleteTopic "test" with_test (world serving) = (Fulfilled true, p', w')
       /\ topics p' !! "test" = None
       /\ calls w' = [CallTopicDelete "test"].
Proof.
  assert (H1 : topics with_test !! "test" = Some "test") by reflexivity.
  assert (H2 : topic_delete "test" (service (world serving)) = (Fulfilled tt, up))
    by reflexivity.
  split; [exact H1|]. split; [exact H2|].
  destruct (deleteTopic_removes_entry with_test (world serving) "test" "test" up H1 H2)
    as (p' & w' & Hrun & Hcalls & _ & _ & _ & Hgone & _).
  exists p', w'. repeat split; assumption.
Defined.

Lemma init_sets_client_after_check_witness :
  getTopics (new_client options) (service (world down))
  = (Rejected (RpcError "UNAVAILABLE"), down)
  /\ exists w',
       init fresh (world down) = (Rejected (RpcError "UNAVAILABLE"), fresh, w')
       /\ client fresh = None.
Proof.
  assert (H : getTopics (new_client options) (service (world down))
              = (Rejected (RpcError "UNAVAILABLE"), down)) by reflexivity.
  split; [exact H|].
  destruct (init_sets_client_after_check fresh (world down)) as [Hfail _].
  destruct (Hfail (RpcError "UNAVAILABLE") down H) as (p' & w' & Hrun & -> & _).
  exists w'. split; [exact Hrun | reflexivity].
Defined.

End Runs.

(** ** More of the facade: edges, failures and how the methods compose *)

Section FacadeEdges.
Context `{core : PubSubCore} `{parser : SafelyParseJson}.

Ltac run :=
  cbv [bind this ret throw await log success error emit request
       update_this update_world registered client_dot_topic discard
       promise_catch on removeListener new_closure];
  cbn [service emitted listeners closures unhandled calls
       name emitter config client topics
       set_client set_topics set_service add_emitted set_listeners
       set_closures add_unhandled add_call has_error_listener].

(** X1. publish on a name that is not in the registry rejects with a
    TypeError before anything is sent, whatever [handle] is: the catch of
    publish covers the publish promise only. Nothing is requested, nothing
    is emitted, nothing changes. *)
Theorem publish_unregistered_rejects
    (p : PubSub) (w : World) (topicName : string) (content meta : option json)
    (handle : bool) :
  topics p !! topicName = None ->
  exists message,
    publish topicName content meta handle p w = (Rejected (TypeError message), p, w).
Proof.
  intros Hreg. unfold publish. run. rewrite Hreg. cbn beta iota zeta.
  eexists. reflexivity.
Qed.

(** X2. publish on a registered topic whose transport accepts: the method
    resolves, whatever [handle] is, after exactly one publish request on
    the registered handle; no event is emitted (success is silent) and
    nothing is left unhandled. *)
Theorem publish_fulfilled_is_silent
    (p : PubSub) (w : World) (topicName : string) (content meta : option json)
    (handle : bool) (t : Topic) (id : string) (s' : Service) :
  topics p !! topicName = Some t ->
  publisher_publish t (Buffer_from (Json.stringify (envelope content (or_empty meta))))
    (service w) = (Fulfilled id, s') ->
  exists w',
    publish topicName content meta handle p w = (Fulfilled tt, p, w')
    /\ calls w'
       = calls w ++ [CallPublish t (Buffer_from (Json.stringify (envelope content (or_empty meta))))]
    /\ service w' = s'
    /\ emitted w' = emitted w
    /\ unhandled w' = unhandled w
    /\ listeners w' = listeners w.
Proof.
  intros Hreg Hok. unfold publish. run. rewrite Hreg. cbn beta iota zeta.
  rewrite Hok. destruct handle; cbn [negb]; run; cbn beta iota zeta;
    (eexists; split; [reflexivity|]); run; auto.
Qed.

(** X3. publish without content: the property content is undefined and
    JSON.stringify leaves it out, so the bytes sent, whatever [handle] is
    and however the call ends, parse to an object with the single key
    meta; with meta left out too that is the empty object the parameter
    defaults to. *)
Theorem publish_without_content
    (p : PubSub) (w : World) (topicName : string) (meta : option json)
    (handle : bool) (t : Topic) :
  topics p !! topicName = Some t ->
  serializable (or_empty meta) = true ->
  exists r w' payload,
    publish topicName None meta handle p w = (r, p, w')
    /\ calls w' = calls w ++ [CallPublish t payload]
    /\ payload = Buffer_from (Json.stringify (JObj [("meta", or_empty meta)]))
    /\ Json.parse (Buffer_toString payload) = Some (JObj [("meta", or_empty meta)])
    /\ (meta = None -> Json.parse (Buffer_toString payload) = Some (JObj [("meta", JObj [])])).
Proof.
  intros Hreg Hser. unfold publish. run. rewrite Hreg. cbn beta iota zeta.
  assert (Hparse : Json.parse (Buffer_toString
                     (Buffer_from (Json.stringify (envelope None (or_empty meta)))))
                   = Some (JObj [("meta", or_empty meta)])).
  { apply JsonFacts.parse_bytes. cbn [envelope app serializable map fst snd forallb].
    now rewrite Hser. }
  destruct (publisher_publish t _ (service w)) as [[id|e] s'] eqn:Hpub;
    destruct handle; cbn [negb]; run; cbn beta iota zeta;
    try destruct (has_error_listener w (emitter p)); cbn beta iota zeta;
    (eexists _, _, _; split; [reflexivity|]; run; split; [reflexivity|];
     split; [reflexivity|]; split; [exact Hparse|]);
    intros ->; exact Hparse.
Qed.

(** X4. deleteTopic on a name that is not in the registry rejects with a
    TypeError: no deletion is requested upstream, no event is emitted and
    the registry is as it was. *)
Theorem deleteTopic_unregistered_rejects
    (p : PubSub) (w : World) (topicName : string) :
  topics p !! topicName = None ->
  exists message,
    deleteTopic topicName p w = (Rejected (TypeError message), p, w).
Proof.
  intros Hreg. unfold deleteTopic. run. rewrite Hreg. cbn beta iota zeta.
  eexists. reflexivity.
Qed.

(** X5. deleteTopic whose upstream deletion is refused rejects with that
    error and keeps the entry: the facade is unchanged and no log event is
    emitted; the one request made is the deletion. *)
Theorem deleteTopic_failure_keeps_entry
    (p : PubSub) (w : World) (topicName : string) (t : Topic) (e : Error) (s' : Service) :
  topics p !! topicName = Some t ->
  topic_delete t (service w) = (Rejected e, s') ->
  exists w',
    deleteTopic topicName p w = (Rejected e, p, w')
    /\ topics p !! topicName = Some t
    /\ emitted w' = emitted w
    /\ calls w' = calls w ++ [CallTopicDelete t].
Proof.
  intros Hreg Hdel. unfold deleteTopic. run. rewrite Hreg. cbn beta iota zeta.
  rewrite Hdel. cbn beta iota zeta.
  eexists. split; [reflexivity|]. run. auto.
Qed.

(** X6. createTopic before init (the client is null) rejects with a
    TypeError at once: nothing is emitted, nothing is requested, nothing
    is registered. *)
Theorem createTopic_uninitialized_rejects
    (p : PubSub) (w : World) (topicName : string) :
  client p = None ->
  exists message,
    createTopic topicName p w = (Rejected (TypeError message), p, w).
Proof.
  intros Hc. unfold createTopic. run. rewrite Hc. cbn beta iota zeta.
  eexists. reflexivity.
Qed.

(** X7. createTopic registers nothing unless it resolves: if the
    existence check is refused, or the topic is reported missing and its
    creation is refused, the method rejects with that error and the
    facade is unchanged; in the second case creation was requested after
    the check and no success event was emitted. *)
Theorem createTopic_failure_keeps_registry
    (p : PubSub) (w : World) (c : Client) (topicName : string) :
  client p = Some c ->
  let t := client_topic c topicName in
  let creating := (emitter p, EvLog (name p) ("Creating topic " +:+ topicName) None) in
  (forall e s1,
     topic_exists t (service w) = (Rejected e, s1) ->
     exists w',
       createTopic topicName p w = (Rejected e, p, w')
       /\ calls w' = calls w ++ [CallTopicExists t]
       /\ emitted w' = emitted w ++ [creating])
  /\ (forall e s1 s2,
        topic_exists t (service w) = (Fulfilled false, s1) ->
        topic_create t s1 = (Rejected e, s2) ->
        exists w',
          createTopic topicName p w = (Rejected e, p, w')
          /\ calls w' = calls w ++ [CallTopicExists t; CallTopicCreate t]
          /\ emitted w' = emitted w ++ [creating]).
Proof.
  intros Hc t creating. subst t creating. split.
  - intros e s1 Hex. unfold createTopic. run. rewrite Hc. cbn beta iota zeta.
    rewrite Hex. cbn beta iota zeta.
    eexists. split; [reflexivity|]. run. auto.
  - intros e s1 s2 Hex Hcr. unfold createTopic. run. rewrite Hc. cbn beta iota zeta.
    rewrite Hex. cbn beta iota zeta. run. rewrite Hcr. cbn beta iota zeta.
    eexists. split; [reflexivity|]. run. rewrite <- !app_assoc. auto.
Qed.

(** X8. createTopic then deleteTopic of a name that was not registered,
    with the service answering: both return true, the deletion is
    requested on the handle the creation returned, and the registry ends
    as it started. *)
Theorem createTopic_then_deleteTopic
    (p : PubSub) (w : World) (c : Client) (topicName : string)
    (created : Topic) (s1 s2 s3 : Service) :
  client p = Some c ->
  topics p !! topicName = None ->
  let t := client_topic c topicName in
  topic_exists t (service w) = (Fulfilled false, s1) ->
  topic_create t s1 = (Fulfilled created, s2) ->
  topic_delete created s2 = (Fulfilled tt, s3) ->
  exists p1 w1 p2 w2,
    createTopic topicName p w = (Fulfilled true, p1, w1)
    /\ topics p1 !! topicName = Some created
    /\ deleteTopic topicName p1 w1 = (Fulfilled true, p2, w2)
    /\ topics p2 = topics p
    /\ client p2 = client p
    /\ calls w2 = calls w ++ [CallTopicExists t; CallTopicCreate t; CallTopicDelete created]
    /\ service w2 = s3.
Proof.
  intros Hc Hnone t Hex Hcr Hdel. subst t.
  eexists _, _, _, _. split.
  { unfold createTopic. run. rewrite Hc. cbn beta iota zeta.
    rewrite Hex. cbn beta iota zeta. run. rewrite Hcr. cbn beta iota zeta.
    reflexivity. }
  run. split; [apply lookup_insert_eq|]. split.
  { unfold deleteTopic. run. rewrite lookup_insert_eq. cbn beta iota zeta.
    run. rewrite Hdel. cbn beta iota zeta. reflexivity. }
  run. rewrite delete_insert_eq, <- !app_assoc.
  split; [now apply delete_id|]. repeat split.
Qed.

(** X9. subscribe on a registered topic, with the service answering. The
    subscription is looked up with the flow-control limit and deadline
    worked out from the options. If it exists, no creation is requested
    and the listeners go on the handle looked up; if not, creation is
    requested and they go on the handle it returns. Either way two new
    function objects are registered, one for message wrapping the
    callback and one for error, the facade is unchanged and the result is
    true. *)
Theorem subscribe_attaches_listeners
    (p : PubSub) (w : World) (topicName subName : string) (cb : Callback)
    (options : SubscribeOptions) (t : Topic) (sub : Subscription) (s0 : Service) :
  topics p !! topicName = Some t ->
  topic_subscription t subName
    (Some {| flowControl_maxMessages :=
               match maxInProgress options with Some v => v | None => 1 end;
             ackDeadline :=
               match ackDeadlineSeconds options with
               | Some v => Some v
               | None => ack_deadline_seconds (config p)
               end |})
    (service w) = (sub, s0) ->
  let attached target :=
    listeners w
    ++ [{| reg_target := target; reg_event := "message";
           reg_fn := MessageListener (closures w) cb |};
        {| reg_target := target; reg_event := "error";
           reg_fn := ErrorListener (S (closures w)) (topic_name t) (subscription_name target) |}] in
  (forall s1,
     subscription_exists sub s0 = (Fulfilled true, s1) ->
     exists w1,
       subscribe topicName subName cb options p w = (Fulfilled true, p, w1)
       /\ listeners w1 = attached sub
       /\ closures w1 = S (S (closures w))
       /\ calls w1 = calls w ++ [CallSubscriptionExists sub])
  /\ (forall s1 s2 res,
        subscription_exists sub s0 = (Fulfilled false, s1) ->
        subscription_create sub s1 = (Fulfilled res, s2) ->
        exists w1,
          subscribe topicName subName cb options p w = (Fulfilled true, p, w1)
          /\ listeners w1 = attached res
          /\ closures w1 = S (S (closures w))
          /\ calls w1 = calls w ++ [CallSubscriptionExists sub; CallSubscriptionCreate sub]).
Proof.
  intros Hreg Hsub attached. subst attached. split.
  - intros s1 Hex. unfold subscribe. run. rewrite Hreg. cbn beta iota zeta.
    rewrite Hsub. cbn beta iota zeta. run. rewrite Hex. cbn beta iota zeta.
    eexists. split; [reflexivity|]. run. rewrite <- !app_assoc. auto.
  - intros s1 s2 res Hex Hcr. unfold subscribe. run. rewrite Hreg. cbn beta iota zeta.
    rewrite Hsub. cbn beta iota zeta. run. rewrite Hex. cbn beta iota zeta.
    run. rewrite Hcr. cbn beta iota zeta.
    eexists. split; [reflexivity|]. run. rewrite <- !app_assoc. auto.
Qed.

(** X10. The options of subscribe fall back: on a facade whose
    configuration went through the constructor, subscribing with no
    options is subscribing with maxInProgress 1 and the deadline the
    facade holds. That is 300 seconds when the configuration given to
    the constructor had no key ack_deadline_seconds; when it had the
    key, it is what the key held, and with the key set to undefined the
    subscription is asked for with no deadline at all. *)
Theorem subscribe_options_fall_back
    (p : PubSub) (w : World) (topicName subName : string) (cb : Callback)
    (cfg : PubSubConfig) :
  config p = with_defaults cfg ->
  subscribe topicName subName cb {| maxInProgress := None; ackDeadlineSeconds := None |} p w
  = subscribe topicName subName cb
      {| maxInProgress := Some 1;
         ackDeadlineSeconds :=
           if has_ack_deadline_seconds cfg then ack_deadline_seconds cfg else Some 300 |} p w
  /\ forall t,
       topics p !! topicName = Some t ->
       exists sub s0,
         topic_subscription t subName
           (Some {| flowControl_maxMessages := 1;
                    ackDeadline :=
                      if has_ack_deadline_seconds cfg then ack_deadline_seconds cfg
                      else Some 300 |})
           (service w) = (sub, s0)
         /\ exists r w1,
              subscribe topicName subName cb
                {| maxInProgress := None; ackDeadlineSeconds := None |} p w = (r, p, w1)
              /\ exists more, calls w1 = calls w ++ CallSubscriptionExists sub :: more.
Proof.
  intros Hcfg. split.
  - unfold subscribe. run. rewrite Hcfg.
    cbn [maxInProgress ackDeadlineSeconds ack_deadline_seconds with_defaults].
    destruct (has_ack_deadline_seconds cfg); [|reflexivity].
    destruct (ack_deadline_seconds cfg); reflexivity.
  - intros t Hreg.
    destruct (topic_subscription t subName
                (Some {| flowControl_maxMessages := 1;
                         ackDeadline :=
                           if has_ack_deadline_seconds cfg then ack_deadline_seconds cfg
                           else Some 300 |}) (service w)) as [sub s0] eqn:Hsub.
    exists sub, s0. split; [reflexivity|].
    unfold subscribe. run. rewrite Hreg. cbn beta iota zeta. rewrite Hcfg.
    cbn [maxInProgress ackDeadlineSeconds ack_deadline_seconds with_defaults].
    rewrite Hsub. cbn beta iota zeta. run.
    destruct (subscription_exists sub s0) as [[[|]|e] s1]; cbn beta iota zeta.
    + eexists _, _. split; [reflexivity|]. run. eexists. reflexivity.
    + run. destruct (subscription_create sub s1) as [[res|e] s2]; cbn beta iota zeta;
        (eexists _, _; split; [reflexivity|]); run; rewrite <- ?app_assoc; cbn [app];
        eexists; reflexivity.
    + eexists _, _. split; [reflexivity|]. run. eexists. reflexivity.
Qed.

(** A subscribe that rejects has attached nothing. *)
Lemma subscribe_rejected
    (p p1 : PubSub) (w w1 : World) (topicName subName : string) (cb : Callback)
    (options : SubscribeOptions) (e : Error) :
  subscribe topicName subName cb options p w = (Rejected e, p1, w1) ->
  p1 = p /\ listeners w1 = listeners w /\ closures w1 = closures w.
Proof.
  unfold subscribe. run.
  destruct (topics p !! topicName) as [t|]; cbn beta iota zeta;
    [|intros [= <- <- <-]; auto].
  destruct (topic_subscription t subName _ (service w)) as [sub s0]. cbn beta iota zeta. run.
  destruct (subscription_exists sub s0) as [[[|]|e0] s1]; cbn beta iota zeta;
    [discriminate| |intros [= <- <- <-]; auto].
  run. destruct (subscription_create sub s1) as [[res|e1] s2]; cbn beta iota zeta;
    [discriminate|intros [= <- <- <-]; auto].
Qed.

(** X11. subscribe attaches nothing unless it resolves: whenever it
    rejects (unregistered topic, existence check refused, creation
    refused), no listener has been registered, no function object made and
    the facade is unchanged. *)
Theorem subscribe_failure_attaches_nothing
    (p p1 : PubSub) (w w1 : World) (topicName subName : string) (cb : Callback)
    (options : SubscribeOptions) (e : Error) :
  subscribe topicName subName cb options p w = (Rejected e, p1, w1) ->
  p1 = p
  /\ listeners w1 = listeners w
  /\ closures w1 = closures w
  /\ (topics p !! topicName = None -> w1 = w /\ exists message, e = TypeError message).
Proof.
  intros Hrun. destruct (subscribe_rejected _ _ _ _ _ _ _ _ _ Hrun) as (Hp & Hl & Hc).
  split; [exact Hp|]. split; [exact Hl|]. split; [exact Hc|].
  intros Hnone. revert Hrun. unfold subscribe. run. rewrite Hnone. cbn beta iota zeta.
  intros [= <- <- <-]. eauto.
Qed.

(** X12. unsubscribe on a registered topic looks the subscription up
    without options and requests its deletion. If the deletion succeeds
    it emits a log event naming topic and subscription and returns true;
    if it is refused it rejects with that error and emits nothing. The
    facade is unchanged either way. *)
Theorem unsubscribe_deletes_subscription
    (p : PubSub) (w : World) (topicName subName : string) (cb : Callback)
    (t : Topic) (sub : Subscription) (s0 : Service) :
  topics p !! topicName = Some t ->
  topic_subscription t subName None (service w) = (sub, s0) ->
  (forall s1,
     subscription_delete sub s0 = (Fulfilled tt, s1) ->
     exists w1,
       unsubscribe topicName subName cb p w = (Fulfilled true, p, w1)
       /\ calls w1 = calls w ++ [CallSubscriptionDelete sub]
       /\ service w1 = s1
       /\ emitted w1
          = emitted w
            ++ [(emitter p,
                 EvLog (name p)
                   ("Removed listener from " +:+ topic_name t +:+ ", " +:+ subscription_name sub)
                   (Some [("topicName", Some (JStr (topic_name t)));
                          ("subName", Some (JStr (subscription_name sub)))]))])
  /\ (forall e s1,
        subscription_delete sub s0 = (Rejected e, s1) ->
        exists w1,
          unsubscribe topicName subName cb p w = (Rejected e, p, w1)
          /\ calls w1 = calls w ++ [CallSubscriptionDelete sub]
          /\ emitted w1 = emitted w).
Proof.
  intros Hreg Hsub. split.
  - intros s1 Hdel. unfold unsubscribe. run. rewrite Hreg. cbn beta iota zeta.
    rewrite Hsub. cbn beta iota zeta. run. rewrite Hdel. cbn beta iota zeta.
    eexists. split; [reflexivity|]. run. auto.
  - intros e s1 Hdel. unfold unsubscribe. run. rewrite Hreg. cbn beta iota zeta.
    rewrite Hsub. cbn beta iota zeta. run. rewrite Hdel. cbn beta iota zeta.
    eexists. split; [reflexivity|]. run. auto.
Qed.

(** removeListener of a function that is not registered changes nothing. *)
Lemma remove_last_absent (r : Registration) (ls : list Registration) :
  r ∉ ls -> remove_last r ls = ls.
Proof.
  induction ls as [|x rest IH]; intros Hnot; [reflexivity|].
  apply not_elem_of_cons in Hnot as [Hne Hnot]. cbn [remove_last].
  rewrite bool_decide_eq_false_2 by congruence. cbn [andb]. now rewrite IH.
Qed.

(** X13. The listeners the facade registers are never detached by the
    facade. subscribe only ever registers its own two arrow functions,
    never the caller's function itself; and where no caller's function is
    registered directly, unsubscribe leaves the registrations exactly as
    they were, whatever callback it is given and however it ends. *)
Theorem unsubscribe_never_detaches :
  (forall p w topicName subName cb options r p1 w1,
     Forall (fun reg => forall f, reg_fn reg <> UserFn f) (listeners w) ->
     subscribe topicName subName cb options p w = (r, p1, w1) ->
     Forall (fun reg => forall f, reg_fn reg <> UserFn f) (listeners w1))
  /\ (forall p w topicName subName cb r p1 w1,
        Forall (fun reg => forall f, reg_fn reg <> UserFn f) (listeners w) ->
        unsubscribe topicName subName cb p w = (r, p1, w1) ->
        listeners w1 = listeners w).
Proof.
  split.
  - intros p w topicName subName cb options [r|e] p1 w1 Hall Hrun.
    + apply subscribe_fulfilled in Hrun as (_ & t & sub & f & g & _ & ->).
      apply Forall_app. split; [exact Hall|].
      repeat constructor; cbn; congruence.
    + apply subscribe_rejected in Hrun as (_ & -> & _). exact Hall.
  - intros p w topicName subName cb r p1 w1 Hall Hrun.
    destruct (topics p !! topicName) as [t|] eqn:Hreg.
    + destruct (unsubscribe_listeners _ _ _ _ _ _ _ _ _ Hreg Hrun) as [sub ->].
      apply remove_last_absent. intros Hin.
      rewrite Forall_forall in Hall. apply (Hall _ Hin cb). reflexivity.
    + revert Hrun. unfold unsubscribe. run. rewrite Hreg. cbn beta iota zeta.
      now intros [= <- <- <-].
Qed.

(** Registrations for other events do not count when a subscription
    emits 'error'. *)
Lemma call_error_listeners_others
    (ls rest : list Registration) (target : Subscription) (err : Error) :
  Forall (fun r => reg_event r <> "error") ls ->
  call_error_listeners (ls ++ rest) target err = call_error_listeners rest target err.
Proof.
  induction 1 as [|r ls Hr Hls IH]; [reflexivity|].
  cbn [app call_error_listeners].
  destruct (String.eqb_spec (reg_event r) "error") as [Heq|_]; [congruence|].
  rewrite andb_false_r. exact IH.
Qed.

(** X14. After a successful subscribe an error listener is registered on
    the subscription. When the subscription then emits 'error', and no
    listener for 'error' was registered before, that listener is what
    runs: on a facade whose emitter has a listener for 'error' it emits
    one error event carrying the error with the names of the topic and
    of the subscription, changes nothing else and returns; on an emitter
    without one, the emit inside it throws and the error comes out of
    the subscription's own emit. *)
Theorem subscribe_error_listener
    (p p1 : PubSub) (w w1 : World) (topicName subName : string) (cb : Callback)
    (options : SubscribeOptions) :
  subscribe topicName subName cb options p w = (Fulfilled true, p1, w1) ->
  Forall (fun r => reg_event r <> "error") (listeners w) ->
  exists t sub g,
    topics p !! topicName = Some t
    /\ {| reg_target := sub; reg_event := "error";
          reg_fn := ErrorListener g (topic_name t) (subscription_name sub) |} ∈ listeners w1
    /\ forall err,
         let names := Some [("topicName", Some (JStr (topic_name t)));
                            ("subName", Some (JStr (subscription_name sub)))] in
         emit_subscription_error sub err p1 w1
         = if has_error_listener w1 (emitter p1)
           then (Fulfilled tt, p1, add_emitted (emitter p1, EvError (name p1) names err) w1)
           else (Rejected (UnhandledError (name p1) names err), p1, w1).
Proof.
  intros Hrun Hnone.
  apply subscribe_fulfilled in Hrun as (_ & t & sub & f & g & Hreg & Hls).
  exists t, sub, g. split; [exact Hreg|]. split.
  - rewrite Hls. apply elem_of_app. right. right. left.
  - intros err names. subst names. unfold emit_subscription_error.
    rewrite Hls, call_error_listeners_others by exact Hnone.
    cbn [call_error_listeners reg_target reg_event reg_fn].
    rewrite bool_decide_eq_true_2 by reflexivity.
    change (String.eqb "message" "error") with false.
    change (String.eqb "error" "error") with true.
    cbn [andb]. unfold error_listener. run.
    destruct (has_error_listener w1 (emitter p1)); reflexivity.
Qed.

(** What a successful deleteTopic leaves behind. *)
Lemma deleteTopic_fulfilled
    (p p1 : PubSub) (w w1 : World) (topicName : string) (r : bool) :
  deleteTopic topicName p w = (Fulfilled r, p1, w1) ->
  r = true /\ topics p1 = delete topicName (topics p) /\ client p1 = client p.
Proof.
  unfold deleteTopic. run.
  destruct (topics p !! topicName) as [t|]; cbn beta iota zeta; [|discriminate].
  destruct (topic_delete t (service w)) as [[[]|e] s1]; cbn beta iota zeta; [|discriminate].
  intros [= <- <- <-]. auto.
Qed.

(** X15. The registry decides whether publish can fail. Once createTopic
    has resolved for a name, publish with handling on that name, on a
    facade whose emitter has a listener for 'error', resolves whatever
    the transport answers; once deleteTopic has resolved for it, publish
    on that name rejects with a TypeError and sends nothing. *)
Theorem registry_decides_publish (topicName : string) (content meta : option json) :
  (forall p w r p1 w1 v,
     createTopic topicName p w = (Fulfilled r, p1, w1) ->
     has_error_listener v (emitter p) = true ->
     exists v', publish topicName content meta true p1 v = (Fulfilled tt, p1, v'))
  /\ (forall p w r p1 w1 v handle,
        deleteTopic topicName p w = (Fulfilled r, p1, w1) ->
        exists message,
          publish topicName content meta handle p1 v = (Rejected (TypeError message), p1, v)).
Proof.
  split.
  - intros p w r p1 w1 v Hrun Hears.
    apply createTopic_fulfilled in Hrun as (_ & _ & _ & He & h & Hts).
    rewrite <- He in Hears.
    unfold publish. run. rewrite Hts, lookup_insert_eq. cbn beta iota zeta.
    destruct (publisher_publish h _ (service v)) as [[id|e] s']; cbn [negb];
      run; cbn beta iota zeta; try rewrite Hears; eexists; reflexivity.
  - intros p w r p1 w1 v handle Hrun.
    apply deleteTopic_fulfilled in Hrun as (_ & Hts & _).
    unfold publish. run. rewrite Hts, lookup_delete_eq. cbn beta iota zeta.
    eexists. reflexivity.
Qed.

(** X16. What init emits. It starts with one log event that names the
    project, the client e-mail (or n/a) and the method (PrivateKey when
    credentials are configured, KeyFile otherwise); the private key is in
    no event. If listing topics fails that is all; if it succeeds one
    success event naming the project follows, and the facade with the
    new client is what init returns. *)
Theorem init_events (p : PubSub) (w : World) :
  let c := new_client {| opt_projectId := projectId (config p);
                         opt_keyFile := file (config p);
                         opt_credentials := credentials (config p) |} in
  let started :=
    (emitter p,
     EvLog (name p) "Using config"
       (Some [("projectId", JStr <$> projectId (config p));
              ("email", Some (JStr match credentials (config p) with
                                   | Some k => client_email k
                                   | None => "n/a"
                                   end));
              ("method", Some (JStr match credentials (config p) with
                                    | Some _ => "PrivateKey"
                                    | None => "KeyFile"
                                    end))])) in
  let connected :=
    (emitter p,
     EvSuccess (name p)
       ("Successfully connected on project "
        +:+ match projectId (config p) with Some id => id | None => "undefined" end) None) in
  (forall e s',
     getTopics c (service w) = (Rejected e, s') ->
     exists w', init p w = (Rejected e, p, w') /\ emitted w' = emitted w ++ [started])
  /\ (forall s',
        getTopics c (service w) = (Fulfilled tt, s') ->
        exists w',
          init p w = (Fulfilled (set_client c p), set_client c p, w')
          /\ emitted w' = emitted w ++ [started; connected]
          /\ calls w' = calls w ++ [CallGetTopics c]).
Proof.
  intros c started connected. subst c started connected. split.
  - intros e s' Hfail. unfold init. run. rewrite Hfail. cbn beta iota zeta.
    eexists. split; [reflexivity|]. run. unfold str.
    destruct (credentials (config p)); reflexivity.
  - intros s' Hok. unfold init. run. rewrite Hok. cbn beta iota zeta.
    eexists. split; [reflexivity|]. run. unfold str, show. rewrite <- !app_assoc.
    destruct (credentials (config p)); auto.
Qed.

(** X22. subscribe does not replace an earlier subscribe. Two calls with
    the same names and callback, each finding the subscription upstream,
    leave two message wrappers (two different function objects) and two
    error listeners registered; a message emitted on a subscription
    object is handed to the callback once for each of the two calls that
    attached to that object. *)
Theorem subscribe_twice_attaches_twice
    (p : PubSub) (w : World) (topicName subName : string) (cb : Callback)
    (options : SubscribeOptions) (t : Topic) (sub1 sub2 : Subscription)
    (s0 s1 s2 s3 : Service) :
  topics p !! topicName = Some t ->
  let opts := Some {| flowControl_maxMessages :=
                        match maxInProgress options with Some v => v | None => 1 end;
                      ackDeadline :=
                        match ackDeadlineSeconds options with
                        | Some v => Some v
                        | None => ack_deadline_seconds (config p)
                        end |} in
  topic_subscription t subName opts (service w) = (sub1, s0) ->
  subscription_exists sub1 s0 = (Fulfilled true, s1) ->
  topic_subscription t subName opts s1 = (sub2, s2) ->
  subscription_exists sub2 s2 = (Fulfilled true, s3) ->
  exists w1 w2,
    subscribe topicName subName cb options p w = (Fulfilled true, p, w1)
    /\ subscribe topicName subName cb options p w1 = (Fulfilled true, p, w2)
    /\ listeners w2
       = listeners w
         ++ [{| reg_target := sub1; reg_event := "message";
                reg_fn := MessageListener (closures w) cb |};
             {| reg_target := sub1; reg_event := "error";
                reg_fn := ErrorListener (S (closures w)) (topic_name t)
                            (subscription_name sub1) |};
             {| reg_target := sub2; reg_event := "message";
                reg_fn := MessageListener (S (S (closures w))) cb |};
             {| reg_target := sub2; reg_event := "error";
                reg_fn := ErrorListener (S (S (S (closures w)))) (topic_name t)
                            (subscription_name sub2) |}]
    /\ forall target msg,
         deliver w2 target msg
         = deliver w target msg
           ++ (if bool_decide (sub1 = target) then [message_listener cb msg] else [])
           ++ (if bool_decide (sub2 = target) then [message_listener cb msg] else []).
Proof.
  intros Hreg opts Hsub1 Hex1 Hsub2 Hex2. subst opts.
  eexists _, _. split.
  { unfold subscribe. run. rewrite Hreg. cbn beta iota zeta.
    rewrite Hsub1. cbn beta iota zeta. run. rewrite Hex1. cbn beta iota zeta.
    reflexivity. }
  split.
  { unfold subscribe. run. rewrite Hreg. cbn beta iota zeta. run.
    rewrite Hsub2. cbn beta iota zeta. run. rewrite Hex2. cbn beta iota zeta.
    reflexivity. }
  run. rewrite <- !app_assoc. split; [reflexivity|].
  intros target msg. unfold deliver. run.
  rewrite omap_app. f_equal.
  cbn [omap list_omap reg_target reg_event reg_fn app String.eqb Ascii.eqb].
  cbn. destruct (bool_decide (sub1 = target)); destruct (bool_decide (sub2 = target));
    reflexivity.
Qed.

End FacadeEdges.

(** ** send and sendWithoutCover *)

Section SendingFacts.
Context `{core : PubSubCore} `{direct : !TopicPublish}.

Ltac run :=
  cbv [bind this ret throw await log success error emit request
       update_this update_world registered client_dot_topic discard
       promise_catch on removeListener new_closure];
  cbn [service emitted listeners closures unhandled calls
       name emitter config client topics
       set_client set_topics set_service add_emitted set_listeners
       set_closures add_unhandled add_call has_error_listener].

(** X17. send does not consult the registry: on a ready facade it
    publishes on the handle the client gives for the name, registered or
    not, and registers nothing. With handling, a refused publish is
    caught and handed to the emitter as an error event carrying the
    topic name, the content and the meta: with a listener for 'error'
    on the emitter the event is taken and the method resolves, without
    one the method rejects with the error of the emitter. An accepted
    publish resolves in silence. *)
Theorem send_bypasses_registry
    (p : PubSub) (w : World) (c : Client) (topicName : string)
    (content meta : option json) :
  client p = Some c ->
  let t := client_topic c topicName in
  let payload := Buffer_from (Json.stringify (envelope_of content meta)) in
  let report := Some [("topicName", Some (JStr topicName));
                      ("message", content);
                      ("options", meta)] in
  (forall e s',
     topic_publish t payload (service w) = (Rejected e, s') ->
     has_error_listener w (emitter p) = true ->
     exists w',
       send topicName content meta true p w = (Fulfilled tt, p, w')
       /\ calls w' = calls w ++ [CallPublish t payload]
       /\ emitted w' = emitted w ++ [(emitter p, EvError (name p) report e)]
       /\ unhandled w' = unhandled w)
  /\ (forall e s',
        topic_publish t payload (service w) = (Rejected e, s') ->
        has_error_listener w (emitter p) = false ->
        exists w',
          send topicName content meta true p w
          = (Rejected (UnhandledError (name p) report e), p, w')
          /\ calls w' = calls w ++ [CallPublish t payload]
          /\ emitted w' = emitted w)
  /\ (forall id s',
        topic_publish t payload (service w) = (Fulfilled id, s') ->
        exists w',
          send topicName content meta true p w = (Fulfilled tt, p, w')
          /\ calls w' = calls w ++ [CallPublish t payload]
          /\ emitted w' = emitted w).
Proof.
  intros Hc t payload report. subst t payload report. split; [|split].
  - intros e s' Hfail Hears. unfold send. run. rewrite Hc. cbn beta iota zeta.
    rewrite Hfail. cbn [negb]. run. rewrite Hears. cbn beta iota zeta.
    eexists. split; [reflexivity|]. run. auto.
  - intros e s' Hfail Hears. unfold send. run. rewrite Hc. cbn beta iota zeta.
    rewrite Hfail. cbn [negb]. run. rewrite Hears. cbn beta iota zeta.
    eexists. split; [reflexivity|]. run. auto.
  - intros id s' Hok. unfold send. run. rewrite Hc. cbn beta iota zeta.
    rewrite Hok. cbn [negb]. run. cbn beta iota zeta.
    eexists. split; [reflexivity|]. run. auto.
Qed.

(** X18. Before init (the client is null) send and sendWithoutCover
    reject with a TypeError, whatever the handler flag is: nothing is
    sent, nothing is emitted, nothing changes. *)
Theorem send_uninitialized_rejects
    (p : PubSub) (w : World) (topicName : string) (content meta : option json)
    (data : Buffer) (handler : bool) :
  client p = None ->
  exists message,
    send topicName content meta handler p w = (Rejected (TypeError message), p, w)
    /\ sendWithoutCover topicName data handler p w = (Rejected (TypeError message), p, w).
Proof.
  intros Hc. unfold send, sendWithoutCover. run. rewrite Hc. cbn beta iota zeta.
  eexists. split; reflexivity.
Qed.

(** X19. The bytes of send. With a meta, send puts on the wire the very
    bytes publish sends for the same content and meta, and they parse
    back to [{content, meta}]. Without a meta, send leaves the key out
    (the parameter has no default, unlike that of publish) and the bytes
    parse back to [{content}] alone. *)
Theorem send_wire_format
    (p : PubSub) (w : World) (c : Client) (topicName : string) (content : json)
    (handler : bool) :
  client p = Some c ->
  serializable content = true ->
  (forall meta,
     serializable meta = true ->
     exists r w',
       send topicName (Some content) (Some meta) handler p w = (r, p, w')
       /\ calls w'
          = calls w ++ [CallPublish (client_topic c topicName)
                          (Buffer_from (Json.stringify (envelope (Some content) meta)))]
       /\ Json.parse (Buffer_toString
                        (Buffer_from (Json.stringify (envelope (Some content) meta))))
          = Some (JObj [("content", content); ("meta", meta)]))
  /\ exists r w' payload,
       send topicName (Some content) None handler p w = (r, p, w')
       /\ calls w' = calls w ++ [CallPublish (client_topic c topicName) payload]
       /\ Json.parse (Buffer_toString payload) = Some (JObj [("content", content)]).
Proof.
  intros Hc Hser. split.
  - intros meta Hm. unfold send. run. rewrite Hc. cbn beta iota zeta.
    change (envelope_of (Some content) (Some meta)) with (envelope (Some content) meta).
    destruct (topic_publish _ _ (service w)) as [[id|e] s']; destruct handler;
      cbn [negb]; run; cbn beta iota zeta;
      try destruct (has_error_listener w (emitter p)); cbn beta iota zeta;
      (eexists _, _; split; [reflexivity|]; run; split; [reflexivity|]);
      apply JsonFacts.parse_bytes; cbn [envelope app serializable map fst snd forallb];
      now rewrite Hser, Hm.
  - unfold send. run. rewrite Hc. cbn beta iota zeta.
    destruct (topic_publish _ _ (service w)) as [[id|e] s']; destruct handler;
      cbn [negb]; run; cbn beta iota zeta;
      try destruct (has_error_listener w (emitter p)); cbn beta iota zeta;
      (eexists _, _, _; split; [reflexivity|]; run; split; [reflexivity|]);
      apply JsonFacts.parse_bytes; cbn [envelope_of app serializable map fst snd forallb];
      now rewrite Hser.
Qed.

(** X20. sendWithoutCover sends the caller's bytes as they are, with no
    envelope and no encoding, on the handle the client gives for the
    name, whatever the handler flag is and however the call ends. With
    handling, a refused publish is handed to the emitter as an error
    event that carries the topic name and the data: with a listener for
    'error' on the emitter the event is taken and the method resolves,
    without one the method rejects with the error of the emitter. *)
Theorem sendWithoutCover_sends_bytes_unchanged
    (p : PubSub) (w : World) (c : Client) (topicName : string) (data : Buffer) :
  client p = Some c ->
  let t := client_topic c topicName in
  let report := Some [("topicName", Some (JStr topicName));
                      ("message", Some (JStr (Buffer_toString data)))] in
  (forall handler,
     exists r w',
       sendWithoutCover topicName data handler p w = (r, p, w')
       /\ calls w' = calls w ++ [CallPublish t data])
  /\ (forall e s',
        topic_publish t data (service w) = (Rejected e, s') ->
        has_error_listener w (emitter p) = true ->
        exists w',
          sendWithoutCover topicName data true p w = (Fulfilled tt, p, w')
          /\ emitted w' = emitted w ++ [(emitter p, EvError (name p) report e)]
          /\ unhandled w' = unhandled w)
  /\ (forall e s',
        topic_publish t data (service w) = (Rejected e, s') ->
        has_error_listener w (emitter p) = false ->
        exists w',
          sendWithoutCover topicName data true p w
          = (Rejected (UnhandledError (name p) report e), p, w')
          /\ emitted w' = emitted w).
Proof.
  intros Hc t report. subst t report. split; [|split].
  - intros handler. unfold sendWithoutCover. run. rewrite Hc. cbn beta iota zeta.
    destruct (topic_publish _ _ (service w)) as [[id|e] s']; destruct handler;
      cbn [negb]; run; cbn beta iota zeta;
      try destruct (has_error_listener w (emitter p)); cbn beta iota zeta;
      (eexists _, _; split; [reflexivity|]); run; reflexivity.
  - intros e s' Hfail Hears. unfold sendWithoutCover. run. rewrite Hc. cbn beta iota zeta.
    rewrite Hfail. cbn [negb]. run. rewrite Hears. cbn beta iota zeta.
    eexists. split; [reflexivity|]. run. auto.
  - intros e s' Hfail Hears. unfold sendWithoutCover. run. rewrite Hc. cbn beta iota zeta.
    rewrite Hfail. cbn [negb]. run. rewrite Hears. cbn beta iota zeta.
    eexists. split; [reflexivity|]. run. auto.
Qed.

(** X21. Who changes what in the facade. No method changes the name, the
    emitter or the configuration. Only init changes the client; only
    createTopic and deleteTopic change the registry. subscribe,
    unsubscribe, publish, send and sendWithoutCover leave the facade
    object exactly as it was. All of this whatever the arguments are and
    however the call ends. *)
Theorem methods_keep_configuration (p : PubSub) (w : World) :
  (forall r p' w',
     init p w = (r, p', w') ->
     name p' = name p /\ emitter p' = emitter p /\ config p' = config p
     /\ topics p' = topics p)
  /\ (forall topicName r p' w',
        createTopic topicName p w = (r, p', w') ->
        name p' = name p /\ emitter p' = emitter p /\ config p' = config p
        /\ client p' = client p)
  /\ (forall topicName r p' w',
        deleteTopic topicName p w = (r, p', w') ->
        name p' = name p /\ emitter p' = emitter p /\ config p' = config p
        /\ client p' = client p)
  /\ (forall topicName subName cb options r p' w',
        subscribe topicName subName cb options p w = (r, p', w') -> p' = p)
  /\ (forall topicName subName cb r p' w',
        unsubscribe topicName subName cb p w = (r, p', w') -> p' = p)
  /\ (forall topicName content meta handle r p' w',
        publish topicName content meta handle p w = (r, p', w') -> p' = p)
  /\ (forall topicName content meta handler r p' w',
        send topicName content meta handler p w = (r, p', w') -> p' = p)
  /\ (forall topicName data handler r p' w',
        sendWithoutCover topicName data handler p w = (r, p', w') -> p' = p).
Proof.
  split; [|split; [|split; [|split; [|split; [|split; [|split]]]]]].
  - intros r p' w'. unfold init. run.
    destruct (getTopics _ _) as [[[]|e] s']; cbn beta iota zeta;
      intros [= <- <- <-]; auto.
  - intros topicName r p' w'. unfold createTopic. run.
    destruct (client p) as [c|] eqn:Hc; cbn beta iota zeta;
      [|intros [= <- <- <-]; auto].
    destruct (topic_exists _ _) as [[[|]|e] s1]; cbn beta iota zeta;
      [intros [= <- <- <-]; auto| |intros [= <- <- <-]; auto].
    run. destruct (topic_create _ _) as [[created|e] s2]; cbn beta iota zeta;
      intros [= <- <- <-]; auto.
  - intros topicName r p' w'. unfold deleteTopic. run.
    destruct (topics p !! topicName) as [t|]; cbn beta iota zeta;
      [|intros [= <- <- <-]; auto].
    destruct (topic_delete _ _) as [[[]|e] s1]; cbn beta iota zeta;
      intros [= <- <- <-]; auto.
  - intros topicName subName cb options r p' w'.
    destruct r as [r|e]; intros Hrun.
    + now apply subscribe_fulfilled in Hrun as [-> _].
    + now apply subscribe_rejected in Hrun as [-> _].
  - intros topicName subName cb r p' w'. unfold unsubscribe. run.
    destruct (topics p !! topicName) as [t|]; cbn beta iota zeta;
      [|now intros [= <- <- <-]].
    destruct (topic_subscription t subName None (service w)) as [sub s0].
    cbn beta iota zeta. run.
    destruct (subscription_delete sub s0) as [[[]|e] s1]; cbn beta iota zeta;
      now intros [= <- <- <-].
  - intros topicName content meta handle r p' w'. unfold publish. run.
    destruct (topics p !! topicName) as [t|]; cbn beta iota zeta;
      [|now intros [= <- <- <-]].
    destruct (publisher_publish _ _ _) as [[id|e] s']; destruct handle;
      cbn [negb]; run; cbn beta iota zeta;
      try destruct (has_error_listener w (emitter p)); cbn beta iota zeta;
      now intros [= <- <- <-].
  - intros topicName content meta handler r p' w'. unfold send. run.
    destruct (client p) as [c|]; cbn beta iota zeta; [|now intros [= <- <- <-]].
    destruct (topic_publish _ _ _) as [[id|e] s']; destruct handler;
      cbn [negb]; run; cbn beta iota zeta;
      try destruct (has_error_listener w (emitter p)); cbn beta iota zeta;
      now intros [= <- <- <-].
  - intros topicName data handler r p' w'. unfold sendWithoutCover. run.
    destruct (client p) as [c|]; cbn beta iota zeta; [|now intros [= <- <- <-]].
    destruct (topic_publish _ _ _) as [[id|e] s']; destruct handler;
      cbn [negb]; run; cbn beta iota zeta;
      try destruct (has_error_listener w (emitter p)); cbn beta iota zeta;
      now intros [= <- <- <-].
Qed.

End SendingFacts.

(** ** More runs on the in-memory service *)

Module EdgeRuns.
Import Memory.

Lemma publish_unregistered_rejects_witness :
  topics ready !! "test" = None
  /\ exists message,
       publish "test" (Some x1) None true ready (world serving)
       = (Rejected (TypeError message), ready, world serving).
Proof.
  assert (H : topics ready !! "test" = None) by reflexivity.
  split; [exact H|].
  exact (publish_unregistered_rejects ready (world serving) "test" (Some x1) None true H).
Defined.

Lemma publish_fulfilled_is_silent_witness :
  topics with_test !! "test" = Some "test"
  /\ publisher_publish "test"
       (Buffer_from (Json.stringify (envelope (Some x1) (or_empty None))))
       (service (world serving)) = (Fulfilled "1", serving)
  /\ exists w',
       publish "test" (Some x1) None true with_test (world serving)
       = (Fulfilled tt, with_test, w')
       /\ emitted w' = [].
Proof.
  assert (H1 : topics with_test !! "test" = Some "test") by reflexivity.
  assert (H2 : publisher_publish "test"
                 (Buffer_from (Json.stringify (envelope (Some x1) (or_empty None))))
                 (service (world serving)) = (Fulfilled "1", serving)) by reflexivity.
  split; [exact H1|]. split; [exact H2|].
  destruct (publish_fulfilled_is_silent with_test (world serving) "test" (Some x1) None
              true "test" "1" serving H1 H2) as (w' & Hrun & _ & _ & Hem & _).
  exists w'. split; [exact Hrun | exact Hem].
Defined.

Lemma publish_without_content_witness :
  topics with_test !! "test" = Some "test"
  /\ serializable (or_empty None) = true
  /\ exists r w' payload,
       publish "test" None None false with_test (world serving) = (r, with_test, w')
       /\ calls w' = [CallPublish "test" payload]
       /\ Json.parse (Buffer_toString payload) = Some (JObj [("meta", JObj [])]).
Proof.
  assert (H : topics with_test !! "test" = Some "test") by reflexivity.
  split; [exact H|]. split; [reflexivity|].
  destruct (publish_without_content with_test (world serving) "test" None false "test"
              H eq_refl) as (r & w' & payload & Hrun & Hcalls & _ & _ & Hempty).
  exists r, w', payload.
  split; [exact Hrun|]. split; [exact Hcalls | exact (Hempty eq_refl)].
Defined.

Lemma deleteTopic_unregistered_rejects_witness :
  topics ready !! "test" = None
  /\ exists message,
       deleteTopic "test" ready (world serving)
       = (Rejected (TypeError message), ready, world serving).
Proof.
  assert (H : topics ready !! "test" = None) by reflexivity.
  split; [exact H|].
  exact (deleteTopic_unregistered_rejects ready (world serving) "test" H).
Defined.

Lemma deleteTopic_failure_keeps_entry_witness :
  topics with_test !! "test" = Some "test"
  /\ topic_delete "test" (service (world failing))
     = (Rejected (RpcError "UNAVAILABLE"), failing)
  /\ exists w',
       deleteTopic "test" with_test (world failing)
       = (Rejected (RpcError "UNAVAILABLE"), with_test, w')
       /\ emitted w' = [].
Proof.
  assert (H1 : topics with_test !! "test" = Some "test") by reflexivity.
  assert (H2 : topic_delete "test" (service (world failing))
               = (Rejected (RpcError "UNAVAILABLE"), failing)) by reflexivity.
  split; [exact H1|]. split; [exact H2|].
  destruct (deleteTopic_failure_keeps_entry with_test (world failing) "test" "test"
              (RpcError "UNAVAILABLE") failing H1 H2) as (w' & Hrun & _ & Hem & _).
  exists w'. split; [exact Hrun | exact Hem].
Defined.

Lemma createTopic_uninitialized_rejects_witness :
  client fresh = None
  /\ exists message,
       createTopic "test" fresh (world up) = (Rejected (TypeError message), fresh, world up).
Proof.
  assert (H : client fresh = None) by reflexivity.
  split; [exact H|].
  exact (createTopic_uninitialized_rejects fresh (world up) "test" H).
Defined.

Lemma createTopic_failure_keeps_registry_witness :
  client ready = Some options
  /\ topic_exists (client_topic options "test") (service (world down))
     = (Rejected (RpcError "UNAVAILABLE"), down)
  /\ exists w',
       createTopic "test" ready (world down) = (Rejected (RpcError "UNAVAILABLE"), ready, w')
       /\ calls w' = [CallTopicExists "test"].
Proof.
  assert (H1 : client ready = Some options) by reflexivity.
  assert (H2 : topic_exists (client_topic options "test") (service (world down))
               = (Rejected (RpcError "UNAVAILABLE"), down)) by reflexivity.
  split; [exact H1|]. split; [exact H2|].
  destruct (createTopic_failure_keeps_registry ready (world down) options "test" H1)
    as [Hcheck _].
  destruct (Hcheck (RpcError "UNAVAILABLE") down H2) as (w' & Hrun & Hcalls & _).
  exists w'. split; [exact Hrun | exact Hcalls].
Defined.

Lemma createTopic_then_deleteTopic_witness :
  client ready = Some options
  /\ topics ready !! "test" = None
  /\ topic_exists (client_topic options "test") (service (world up)) = (Fulfilled false, up)
  /\ topic_create (client_topic options "test") up = (Fulfilled "test", serving)
  /\ topic_delete "test" serving = (Fulfilled tt, up)
  /\ exists p1 w1 p2 w2,
       createTopic "test" ready (world up) = (Fulfilled true, p1, w1)
       /\ deleteTopic "test" p1 w1 = (Fulfilled true, p2, w2)
       /\ topics p2 = topics ready.
Proof.
  assert (H1 : client ready = Some options) by reflexivity.
  assert (H2 : topics ready !! "test" = None) by reflexivity.
  assert (H3 : topic_exists (client_topic options "test") (service (world up))
               = (Fulfilled false, up)) by reflexivity.
  assert (H4 : topic_create (client_topic options "test") up = (Fulfilled "test", serving))
    by reflexivity.
  assert (H5 : topic_delete "test" serving = (Fulfilled tt, up)) by reflexivity.
  repeat (split; [assumption|]).
  destruct (createTopic_then_deleteTopic ready (world up) options "test" "test"
              up serving up H1 H2 H3 H4 H5)
    as (p1 & w1 & p2 & w2 & Hc & _ & Hd & Hts & _).
  exists p1, w1, p2, w2. repeat split; assumption.
Defined.

Lemma subscribe_attaches_listeners_witness :
  topics with_test !! "test" = Some "test"
  /\ topic_subscription "test" "sub"
       (Some {| flowControl_maxMessages := 3; ackDeadline := Some 20 |})
       (service (world serving)) = ((0%nat, "sub"), serving_one)
  /\ subscription_exists (0%nat, "sub") serving_one = (Fulfilled false, serving_one)
  /\ subscription_create (0%nat, "sub") serving_one = (Fulfilled (0%nat, "sub"), listening_one)
  /\ exists w1,
       subscribe "test" "sub" 7%nat three_twenty with_test (world serving)
       = (Fulfilled true, with_test, w1)
       /\ calls w1 = [CallSubscriptionExists (0%nat, "sub");
                      CallSubscriptionCreate (0%nat, "sub")]
       /\ closures w1 = 2%nat.
Proof.
  assert (H1 : topics with_test !! "test" = Some "test") by reflexivity.
  assert (H2 : topic_subscription "test" "sub"
                 (Some {| flowControl_maxMessages := 3; ackDeadline := Some 20 |})
                 (service (world serving)) = ((0%nat, "sub"), serving_one)) by reflexivity.
  assert (H3 : subscription_exists (0%nat, "sub") serving_one
               = (Fulfilled false, serving_one)) by reflexivity.
  assert (H4 : subscription_create (0%nat, "sub") serving_one
               = (Fulfilled (0%nat, "sub"), listening_one)) by reflexivity.
  repeat (split; [assumption|]).
  destruct (subscribe_attaches_listeners with_test (world serving) "test" "sub" 7%nat
              three_twenty "test" (0%nat, "sub") serving_one H1 H2) as [_ Hcreate].
  destruct (Hcreate serving_one listening_one (0%nat, "sub") H3 H4)
    as (w1 & Hrun & _ & Hcl & Hcalls).
  exists w1. repeat split; assumption.
Defined.

Lemma subscribe_options_fall_back_witness :
  config with_test = with_defaults plain
  /\ config with_test_undefined = with_defaults undefined_deadline
  /\ subscribe "test" "sub" 7%nat no_options with_test (world serving)
     = subscribe "test" "sub" 7%nat
         {| maxInProgress := Some 1; ackDeadlineSeconds := Some 300 |}
         with_test (world serving)
  /\ subscribe "test" "sub" 7%nat no_options with_test_undefined (world serving)
     = subscribe "test" "sub" 7%nat
         {| maxInProgress := Some 1; ackDeadlineSeconds := None |}
         with_test_undefined (world serving)
  /\ exists sub s0,
       topic_subscription "test" "sub"
         (Some {| flowControl_maxMessages := 1; ackDeadline := None |})
         (service (world serving)) = (sub, s0).
Proof.
  assert (H1 : config with_test = with_defaults plain) by reflexivity.
  assert (H2 : config with_test_undefined = with_defaults undefined_deadline) by reflexivity.
  split; [exact H1|]. split; [exact H2|].
  split; [|split].
  - exact (proj1 (subscribe_options_fall_back with_test (world serving)
                    "test" "sub" 7%nat plain H1)).
  - exact (proj1 (subscribe_options_fall_back with_test_undefined (world serving)
                    "test" "sub" 7%nat undefined_deadline H2)).
  - destruct (proj2 (subscribe_options_fall_back with_test_undefined (world serving)
                       "test" "sub" 7%nat undefined_deadline H2) "test" eq_refl)
      as (sub & s0 & Hsub & _).
    exists sub, s0. exact Hsub.
Defined.

Lemma subscribe_failure_attaches_nothing_witness :
  subscribe "test" "sub" 7%nat no_options with_test (world failing)
  = (Rejected (RpcError "UNAVAILABLE"), with_test,
     snd (subscribe "test" "sub" 7%nat no_options with_test (world failing)))
  /\ listeners (snd (subscribe "test" "sub" 7%nat no_options with_test (world failing))) = [].
Proof.
  assert (H : subscribe "test" "sub" 7%nat no_options with_test (world failing)
              = (Rejected (RpcError "UNAVAILABLE"), with_test,
                 snd (subscribe "test" "sub" 7%nat no_options with_test (world failing))))
    by (vm_compute; reflexivity).
  split; [exact H|].
  exact (proj1 (proj2 (subscribe_failure_attaches_nothing _ _ _ _ _ _ _ _ _ H))).
Defined.

Lemma unsubscribe_deletes_subscription_witness :
  topics with_test !! "test" = Some "test"
  /\ topic_subscription "test" "sub" None (service (world listening))
     = ((0%nat, "sub"), listening_one)
  /\ subscription_delete (0%nat, "sub") listening_one = (Fulfilled tt, serving_one)
  /\ exists w1,
       unsubscribe "test" "sub" 7%nat with_test (world listening)
       = (Fulfilled true, with_test, w1)
       /\ calls w1 = [CallSubscriptionDelete (0%nat, "sub")].
Proof.
  assert (H1 : topics with_test !! "test" = Some "test") by reflexivity.
  assert (H2 : topic_subscription "test" "sub" None (service (world listening))
               = ((0%nat, "sub"), listening_one)) by reflexivity.
  assert (H3 : subscription_delete (0%nat, "sub") listening_one
               = (Fulfilled tt, serving_one)) by reflexivity.
  repeat (split; [assumption|]).
  destruct (unsubscribe_deletes_subscription with_test (world listening) "test" "sub" 7%nat
              "test" (0%nat, "sub") listening_one H1 H2) as [Hok _].
  destruct (Hok serving_one H3) as (w1 & Hrun & Hcalls & _).
  exists w1. split; [exact Hrun | exact Hcalls].
Defined.

Lemma unsubscribe_never_detaches_witness :
  Forall (fun reg => forall f, reg_fn reg <> UserFn f) (listeners subscribed)
  /\ unsubscribe "test" "sub" 7%nat with_test subscribed
     = (Fulfilled true, with_test, unsubscribed)
  /\ listeners unsubscribed = listeners subscribed.
Proof.
  assert (H1 : Forall (fun reg => forall f, reg_fn reg <> UserFn f) (listeners subscribed))
    by (repeat constructor; discriminate).
  assert (H2 : unsubscribe "test" "sub" 7%nat with_test subscribed
               = (Fulfilled true, with_test, unsubscribed)) by (vm_compute; reflexivity).
  split; [exact H1|]. split; [exact H2|].
  exact (proj2 unsubscribe_never_detaches _ _ _ _ _ _ _ _ H1 H2).
Defined.

Lemma subscribe_error_listener_witness :
  subscribe "test" "sub" 7%nat no_options with_test (world serving)
  = (Fulfilled true, with_test, subscribed)
  /\ Forall (fun r => reg_event r <> "error") (listeners (world serving))
  /\ exists t sub g,
       topics with_test !! "test" = Some t
       /\ {| reg_target := sub; reg_event := "error";
             reg_fn := ErrorListener g (topic_name t) (subscription_name sub) |}
          ∈ listeners subscribed
       /\ exists after,
            emit_subscription_error sub (RpcError "DEADLINE_EXCEEDED") with_test subscribed
            = (Fulfilled tt, with_test, after)
            /\ emitted after
               = emitted subscribed
                 ++ [(0%nat,
                      EvError "pubsub"
                        (Some [("topicName", Some (JStr (topic_name t)));
                               ("subName", Some (JStr (subscription_name sub)))])
                        (RpcError "DEADLINE_EXCEEDED"))].
Proof.
  assert (H1 : subscribe "test" "sub" 7%nat no_options with_test (world serving)
               = (Fulfilled true, with_test, subscribed)) by (vm_compute; reflexivity).
  assert (H2 : Forall (fun r => reg_event r <> "error") (listeners (world serving)))
    by constructor.
  split; [exact H1|]. split; [exact H2|].
  destruct (subscribe_error_listener _ _ _ _ _ _ _ _ H1 H2)
    as (t & sub & g & Hreg & Hin & Herr).
  exists t, sub, g. split; [exact Hreg|]. split; [exact Hin|].
  pose proof (Herr (RpcError "DEADLINE_EXCEEDED")) as He. cbn zeta in He.
  replace (has_error_listener subscribed (emitter with_test)) with true in He
    by (vm_compute; reflexivity).
  eexists. split; [exact He|]. reflexivity.
Defined.

Lemma registry_decides_publish_witness :
  createTopic "test" ready (world up) = (Fulfilled true, created, created_world)
  /\ has_error_listener (world failing) (emitter ready) = true
  /\ exists v',
       publish "test" (Some x1) None true created (world failing)
       = (Fulfilled tt, created, v').
Proof.
  assert (H : createTopic "test" ready (world up) = (Fulfilled true, created, created_world))
    by (vm_compute; reflexivity).
  split; [exact H|]. split; [reflexivity|].
  exact (proj1 (registry_decides_publish "test" (Some x1) None)
           ready (world up) true created created_world (world failing) H eq_refl).
Defined.

Lemma init_events_witness :
  getTopics (new_client {| opt_projectId := projectId (config (constructor "pubsub" 0%nat with_credentials));
                           opt_keyFile := file (config (constructor "pubsub" 0%nat with_credentials));
                           opt_credentials := credentials (config (constructor "pubsub" 0%nat with_credentials)) |})
    (service (world up)) = (Fulfilled tt, up)
  /\ exists p' w',
       init (constructor "pubsub" 0%nat with_credentials) (world up) = (Fulfilled p', p', w')
       /\ emitted w'
          = [(0%nat, EvLog "pubsub" "Using config"
                       (Some [("projectId", Some (JStr "quizizz-dev"));
                              ("email", Some (JStr "svc@quizizz-dev"));
                              ("method", Some (JStr "PrivateKey"))]));
             (0%nat, EvSuccess "pubsub" "Successfully connected on project quizizz-dev" None)].
Proof.
  assert (H : getTopics
                (new_client {| opt_projectId := projectId (config (constructor "pubsub" 0%nat with_credentials));
                               opt_keyFile := file (config (constructor "pubsub" 0%nat with_credentials));
                               opt_credentials := credentials (config (constructor "pubsub" 0%nat with_credentials)) |})
                (service (world up)) = (Fulfilled tt, up)) by reflexivity.
  split; [exact H|].
  destruct (init_events (constructor "pubsub" 0%nat with_credentials) (world up)) as [_ Hok].
  destruct (Hok up H) as (w' & Hrun & Hem & _).
  eexists _, w'. split; [exact Hrun | exact Hem].
Defined.

Lemma send_bypasses_registry_witness :
  client ready = Some options
  /\ topics ready !! "test" = None
  /\ topic_publish (client_topic options "test")
       (Buffer_from (Json.stringify (envelope_of (Some x1) (Some reply))))
       (service (world failing)) = (Rejected (RpcError "UNAVAILABLE"), failing)
  /\ has_error_listener (world failing) (emitter ready) = true
  /\ exists w',
       send "test" (Some x1) (Some reply) true ready (world failing)
       = (Fulfilled tt, ready, w')
       /\ emitted w'
          = [(0%nat, EvError "pubsub"
                       (Some [("topicName", Some (JStr "test"));
                              ("message", Some x1);
                              ("options", Some reply)])
                       (RpcError "UNAVAILABLE"))].
Proof.
  assert (H1 : client ready = Some options) by reflexivity.
  assert (H2 : topic_publish (client_topic options "test")
                 (Buffer_from (Json.stringify (envelope_of (Some x1) (Some reply))))
                 (service (world failing)) = (Rejected (RpcError "UNAVAILABLE"), failing))
    by reflexivity.
  split; [exact H1|]. split; [reflexivity|]. split; [exact H2|]. split; [reflexivity|].
  destruct (send_bypasses_registry ready (world failing) options "test" (Some x1) (Some reply)
              H1) as [Hfail _].
  destruct (Hfail (RpcError "UNAVAILABLE") failing H2 eq_refl) as (w' & Hrun & _ & Hem & _).
  exists w'. split; [exact Hrun | exact Hem].
Defined.

Lemma send_uninitialized_rejects_witness :
  client fresh = None
  /\ exists message,
       send "test" (Some x1) None true fresh (world serving)
       = (Rejected (TypeError message), fresh, world serving)
       /\ sendWithoutCover "test" "raw" true fresh (world serving)
          = (Rejected (TypeError message), fresh, world serving).
Proof.
  assert (H : client fresh = None) by reflexivity.
  split; [exact H|].
  exact (send_uninitialized_rejects fresh (world serving) "test" (Some x1) None "raw" true H).
Defined.

Lemma send_wire_format_witness :
  client ready = Some options
  /\ serializable x1 = true
  /\ exists r w' payload,
       send "test" (Some x1) None true ready (world serving) = (r, ready, w')
       /\ calls w' = [CallPublish "test" payload]
       /\ Json.parse (Buffer_toString payload) = Some (JObj [("content", x1)]).
Proof.
  assert (H : client ready = Some options) by reflexivity.
  split; [exact H|]. split; [reflexivity|].
  exact (proj2 (send_wire_format ready (world serving) options "test" x1 true H eq_refl)).
Defined.

Lemma sendWithoutCover_sends_bytes_unchanged_witness :
  client ready = Some options
  /\ topic_publish (client_topic options "test") "raw bytes" (service (world failing))
     = (Rejected (RpcError "UNAVAILABLE"), failing)
  /\ has_error_listener (world failing) (emitter ready) = true
  /\ (exists r w',
        sendWithoutCover "test" "raw bytes" false ready (world serving) = (r, ready, w')
        /\ calls w' = [CallPublish "test" "raw bytes"])
  /\ exists w',
       sendWithoutCover "test" "raw bytes" true ready (world failing)
       = (Fulfilled tt, ready, w')
       /\ emitted w'
          = [(0%nat, EvError "pubsub"
                       (Some [("topicName", Some (JStr "test"));
                              ("message", Some (JStr "raw bytes"))])
                       (RpcError "UNAVAILABLE"))].
Proof.
  assert (H1 : client ready = Some options) by reflexivity.
  assert (H2 : topic_publish (client_topic options "test") "raw bytes"
                 (service (world failing))
               = (Rejected (RpcError "UNAVAILABLE"), failing)) by reflexivity.
  split; [exact H1|]. split; [exact H2|]. split; [reflexivity|]. split.
  - exact (proj1 (sendWithoutCover_sends_bytes_unchanged ready (world serving) options
                    "test" "raw bytes" H1) false).
  - destruct (sendWithoutCover_sends_bytes_unchanged ready (world failing) options
                "test" "raw bytes" H1) as (_ & Hheard & _).
    destruct (Hheard (RpcError "UNAVAILABLE") failing H2 eq_refl) as (w' & Hrun & Hem & _).
    exists w'. split; [exact Hrun | exact Hem].
Defined.

Lemma methods_keep_configuration_witness :
  createTopic "test" ready (world up) = (Fulfilled true, created, created_world)
  /\ config created = config ready
  /\ client created = client ready.
Proof.
  assert (H : createTopic "test" ready (world up) = (Fulfilled true, created, created_world))
    by (vm_compute; reflexivity).
  split; [exact H|].
  destruct (methods_keep_configuration ready (world up)) as (_ & Hcreate & _).
  destruct (Hcreate "test" (Fulfilled true) created created_world H) as (_ & _ & Hcfg & Hcl).
  split; [exact Hcfg | exact Hcl].
Defined.

Lemma subscribe_twice_attaches_twice_witness :
  topics with_test !! "test" = Some "test"
  /\ topic_subscription "test" "sub"
       (Some {| flowControl_maxMessages := 1; ackDeadline := Some 300 |})
       (service (world listening)) = ((0%nat, "sub"), listening_one)
  /\ subscription_exists (0%nat, "sub") listening_one = (Fulfilled true, listening_one)
  /\ topic_subscription "test" "sub"
       (Some {| flowControl_maxMessages := 1; ackDeadline := Some 300 |})
       listening_one = ((1%nat, "sub"), listening_two)
  /\ subscription_exists (1%nat, "sub") listening_two = (Fulfilled true, listening_two)
  /\ exists w1 w2,
       subscribe "test" "sub" 7%nat no_options with_test (world listening)
       = (Fulfilled true, with_test, w1)
       /\ subscribe "test" "sub" 7%nat no_options with_test w1 = (Fulfilled true, with_test, w2)
       /\ deliver w2 (1%nat, "sub") a1 = [message_listener 7%nat a1].
Proof.
  assert (H1 : topics with_test !! "test" = Some "test") by reflexivity.
  assert (H2 : topic_subscription "test" "sub"
                 (Some {| flowControl_maxMessages := 1; ackDeadline := Some 300 |})
                 (service (world listening)) = ((0%nat, "sub"), listening_one)) by reflexivity.
  assert (H3 : subscription_exists (0%nat, "sub") listening_one
               = (Fulfilled true, listening_one)) by reflexivity.
  assert (H4 : topic_subscription "test" "sub"
                 (Some {| flowControl_maxMessages := 1; ackDeadline := Some 300 |})
                 listening_one = ((1%nat, "sub"), listening_two)) by reflexivity.
  assert (H5 : subscription_exists (1%nat, "sub") listening_two
               = (Fulfilled true, listening_two)) by reflexivity.
  repeat (split; [assumption|]).
  destruct (subscribe_twice_attaches_twice with_test (world listening) "test" "sub" 7%nat
              no_options "test" (0%nat, "sub") (1%nat, "sub")
              listening_one listening_one listening_two listening_two H1 H2 H3 H4 H5)
    as (w1 & w2 & Hrun1 & Hrun2 & _ & Hdeliver).
  exists w1, w2. split; [exact Hrun1|]. split; [exact Hrun2|].
  rewrite Hdeliver. reflexivity.
Defined.

End EdgeRuns.
